(** * RS_Opt: the windowed wavelet dataset and the multi-head decoder

    A shallow embedding of [deep_insight/wavelet_dataset.py], of the
    parts of [deep_insight/networks.py] that decide how a decoder is put
    together, what its wrapper modules do to the shape of a tensor and how
    its similarity penalty is accumulated, and of the split of the indices
    that [test_model.py] and [utils/get_MJ_dataset.py] make.

    Numbers.  The dataset works on numpy arrays of IEEE binary64 values;
    they are modelled by Rocq's primitive floats, whose operations are the
    IEEE ones, so a division by zero yields an infinity or a NaN exactly
    as numpy's does.  The decoder's similarity penalty is an algebraic
    expression over tensor entries; it is modelled over the real numbers
    (exact arithmetic, no rounding).

    Control.  Python exceptions and [exit(0)] are the [Raise] results of
    the [result] type; the recursion of [__getitem__] is bounded by a fuel
    argument, and [Diverge] is the answer of a run whose fuel ran out.
    numpy's global random generator is the stream of its draws to come.

    Libraries.  [math.atan2] and the test [math.log(n, 2).is_integer()]
    are parameters: IEEE 754 does not fix their values.  What the torch
    layers compute is a parameter too; a parameter tensor is modelled by
    the initialiser its values come from.  [utils.misc.getspeed] is not
    among the sources and is modelled from the specification. *)

From Stdlib Require Import String.
From Stdlib Require Import ZArith List Bool Lia Arith.
From Stdlib Require Import Floats.
From Stdlib Require Import Permutation.
From Stdlib Require Import DecimalString.
From Stdlib Require Reals Lra.
Import ListNotations.

#[local] Set Warnings "-inexact-float".

(** ** Results of running Python code *)

Inductive pyerr :=
  | IndexError          (* an index outside an array or a list *)
  | KeyError            (* a missing dataset of the HDF5 file *)
  | ValueError          (* [np.random.choice] on an empty array, shapes that do not broadcast *)
  | UnboundLocalError   (* a local variable read before any assignment *)
  | TypeError           (* a Python float that is subscripted *)
  | AttributeError      (* [getattr] of a name that was never set *)
  | SystemExit.         (* [exit(0)] after a printed error *)

Inductive result (A : Type) :=
  | Ret (a : A)
  | Raise (e : pyerr)
  | Diverge.

Arguments Ret {A} a.
Arguments Raise {A} e.
Arguments Diverge {A}.

Definition bind {A B} (m : result A) (k : A -> result B) : result B :=
  match m with
  | Ret a => k a
  | Raise e => Raise e
  | Diverge => Diverge
  end.

Notation "x <- m ;; k" := (bind m (fun x => k))
  (at level 61, m at next level, right associativity).
Notation "' pat <- m ;; k" := (bind m (fun x => match x with pat => k end))
  (at level 61, pat pattern, m at next level, right associativity).

Definition returns {A} (m : result A) : Prop := exists a, m = Ret a.
Definition raises {A} (m : result A) : Prop := exists e, m = Raise e.

Definition of_option {A} (e : pyerr) (o : option A) : result A :=
  match o with
  | Some a => Ret a
  | None => Raise e
  end.

Fixpoint mapM {A B} (f : A -> result B) (l : list A) : result (list B) :=
  match l with
  | [] => Ret []
  | a :: l' => b <- f a ;; bs <- mapM f l' ;; Ret (b :: bs)
  end.

(** ** numpy and the Python runtime *)

Module Numpy.

(** [a[i]] for an integer [i]: a negative index counts from the end, an
    index outside [-len, len) is an [IndexError]. *)
Definition normalize_index (len : nat) (i : Z) : option nat :=
  let n := Z.of_nat len in
  if ((0 <=? i) && (i <? n))%Z then Some (Z.to_nat i)
  else if ((- n <=? i) && (i <? 0))%Z then Some (Z.to_nat (i + n))
  else None.

Definition item {A} (a : list A) (i : Z) : result A :=
  match normalize_index (length a) i with
  | Some k => of_option IndexError (nth_error a k)
  | None => Raise IndexError
  end.

(** [a[idx, ...]] for an integer array [idx]: the rows picked one by one. *)
Definition take {A} (a : list A) (idx : list Z) : result (list A) :=
  mapM (item a) idx.

(** [a[-1]], the last row. *)
Definition last_item {A} (a : list A) : result A := item a (-1).

(** [np.arange(lo, hi)] *)
Definition arange (lo hi : Z) : list Z :=
  map (fun k => (lo + Z.of_nat k)%Z) (seq 0 (Z.to_nat (hi - lo))).

(** [[g 0; ...; g (n-1)]] *)
Definition tabulate {A} (n : nat) (g : nat -> A) : list A := map g (seq 0 n).

(** Entry [f, c] of a two-dimensional array. *)
Definition at2 (a : list (list float)) (f c : nat) : float :=
  nth c (nth f a []) 0%float.

End Numpy.

(** ** IEEE binary64 helpers *)

Module F64.

Local Open Scope float_scope.

Definition not_finite (x : float) : bool := is_nan x || is_infinity x.

(** Sorting by [<=], for arrays without NaN. *)
Fixpoint insert_sorted (x : float) (l : list float) : list float :=
  match l with
  | [] => [x]
  | y :: t => if x <=? y then x :: l else y :: insert_sorted x t
  end.

Definition sort (l : list float) : list float := fold_right insert_sorted [] l.

(** [np.median] of a one-dimensional array: NaN when the array is empty or
    holds a NaN, otherwise the middle of the sorted values (the mean of the
    two middle values for an even count). *)
Definition median (l : list float) : float :=
  if existsb is_nan l then nan
  else
    let s := sort l in
    let n := List.length s in
    match n with
    | O => nan
    | _ => if Nat.even n
           then (nth (n / 2 - 1) s 0 + nth (n / 2) s 0) / 2
           else nth (n / 2) s 0
    end.

(** [np.linalg.norm] of a vector: the square root of the sum of squares. *)
Definition norm (v : list float) : float :=
  PrimFloat.sqrt (fold_left (fun s x => s + x * x) v 0).

End F64.

(** ** deep_insight/wavelet_dataset.py *)

Module WaveletData.

Import Numpy.
Local Open Scope string_scope.
Local Open Scope list_scope.

Definition vector := list float.

(** A target channel: one row per time index ([hdf5_file['outputs/' + key]]). *)
Definition channel := list vector.

(** [hdf5_file['inputs/wavelets']]: rows indexed by time, each of shape
    [(n_freq, n_chan)]. *)
Record ndarray3 := {
  rows : list (list (list float));
  n_freq : nat;
  n_chan : nat }.

Record Hdf5 := {
  inputs_wavelets : option ndarray3;
  outputs_of : string -> option channel }.

(** The entries of the options dictionary the dataset reads.
    [loss_functions] is an ordered dict; only its keys, in order, are used
    here. *)
Record Opts := {
  loss_functions : list string;
  model_timesteps : Z;
  shuffle : bool;
  random_batches : bool;
  training_indices : list Z;
  testing_indices : list Z }.

(** One entry of an output sample: the position row, or a Python float. *)
Inductive label :=
  | Vec (v : vector)
  | Scalar (x : float).

(** The four-dimensional input window, indexed [channel][time][frequency][0]. *)
Definition window := list (list (list (list float))).

Record WaveletDataset := {
  opts : Opts;
  wavelets : ndarray3;
  train_half : option string;
  outputs : list channel;
  training : bool;
  sample_size : Z;
  cv_indices : list Z;
  est_mean : list (list float);
  est_std : list (list float);
  prev_ind : option Z;
  input_shape : list nat }.

Definition set_prev_ind (self : WaveletDataset) (idx : Z) : WaveletDataset :=
  {| opts := opts self; wavelets := wavelets self; train_half := train_half self;
     outputs := outputs self; training := training self;
     sample_size := sample_size self; cv_indices := cv_indices self;
     est_mean := est_mean self; est_std := est_std self;
     prev_ind := Some idx; input_shape := input_shape self |}.

Definition set_input_shape (self : WaveletDataset) (s : list nat) : WaveletDataset :=
  {| opts := opts self; wavelets := wavelets self; train_half := train_half self;
     outputs := outputs self; training := training self;
     sample_size := sample_size self; cv_indices := cv_indices self;
     est_mean := est_mean self; est_std := est_std self;
     prev_ind := prev_ind self; input_shape := s |}.

(** The state of numpy's global random generator: the stream of draws to
    come.  [np.random.choice(a)] picks [a[k]] for the next draw [k] (taken
    modulo the length) and fails on an empty array. *)
Definition Rng := nat -> nat.

Definition rng_next (g : Rng) : Rng := fun n => g (S n).

Definition choice (a : list Z) (g : Rng) : result (Z * Rng) :=
  match a with
  | [] => Raise ValueError
  | _ => Ret (nth (g 0 mod List.length a) a 0%Z, rng_next g)
  end.

(** The two locals of [get_output_sample] that only the position branch
    assigns. *)
Record locals := {
  cut_data_m : option vector;
  pcdm : option vector }.

Definition read_local (v : option vector) : result vector :=
  of_option UnboundLocalError v.

Section Dataset.

(** [math.atan2], the platform's. *)
Variable atan2 : float -> float -> float.

(** Modelled from the spec: [utils.misc.getspeed], whose file is not part
    of the sources.  The speed label is "the Euclidean distance between
    last-time-step positions of current and previous windows", "a pure
    function of the two position deltas". *)
Definition getspeed (cur prev : vector) : result float :=
  x1 <- item cur 0 ;;
  x0 <- item prev 0 ;;
  y1 <- item cur 1 ;;
  y0 <- item prev 1 ;;
  Ret (PrimFloat.sqrt ((x1 - x0) * (x1 - x0) + (y1 - y0) * (y1 - y0)))%float.

(** [math.atan2(cut_data_m[1] - pcdm[1], cut_data_m[0] - pcdm[0])] *)
Definition heading (env : locals) : result float :=
  cm <- read_local (cut_data_m env) ;;
  y1 <- item cm 1 ;;
  pm <- read_local (pcdm env) ;;
  y0 <- item pm 1 ;;
  x1 <- item cm 0 ;;
  x0 <- item pm 0 ;;
  Ret (atan2 (y1 - y0) (x1 - x0))%float.

(** The body of the loop of [get_output_sample] for one output. *)
Definition derive_label (cut_range prev_cut_range : list Z)
    (var_name : string) (out : channel) (env : locals) : result (locals * label) :=
  cut_data <- take out cut_range ;;
  pcd <- take out prev_cut_range ;;
  if var_name =? "position" then
    pm <- last_item pcd ;;
    cm <- last_item cut_data ;;
    Ret ({| cut_data_m := Some cm; pcdm := Some pm |}, Vec cm)
  else if var_name =? "head_direction" then
    dirr <- heading env ;;
    Ret (env, Scalar dirr)
  else if var_name =? "direction" then
    dirt <- heading env ;;
    Ret (env, Scalar dirt)
  else if var_name =? "speed" then
    cm <- read_local (cut_data_m env) ;;
    pm <- read_local (pcdm env) ;;
    spd <- getspeed cm pm ;;
    Ret (env, Scalar spd)
  else Raise SystemExit.

(** The loop of [get_output_sample] from output [i] on. *)
Fixpoint output_loop (keys : list string) (cut_range prev_cut_range : list Z)
    (i : nat) (outs : list channel) (env : locals) (out_sample : list label)
    : result (list label) :=
  match outs with
  | [] => Ret out_sample
  | out :: rest =>
      var_name <- of_option IndexError (nth_error keys i) ;;
      '(env', lab) <- derive_label cut_range prev_cut_range var_name out env ;;
      output_loop keys cut_range prev_cut_range (S i) rest env' (out_sample ++ [lab])
  end.

Definition get_output_sample (self : WaveletDataset)
    (cut_range prev_cut_range : list Z) : result (list label) :=
  output_loop (loss_functions (opts self)) cut_range prev_cut_range 0
    (outputs self) {| cut_data_m := None; pcdm := None |} [].

(** [output_sample[0][k]] *)
Definition first_component (output_sample : list label) (k : Z) : result float :=
  l <- item output_sample 0 ;;
  match l with
  | Vec v => item v k
  | Scalar _ => Raise TypeError
  end.

(** [np.linalg.norm(output_sample[0] - np.array([0.0264, 0.2185]))], with
    numpy's broadcasting of a single value against the two centre
    coordinates. *)
Definition distance_to_centre (output_sample : list label) : result float :=
  l <- item output_sample 0 ;;
  match l with
  | Vec [a; b] => Ret (F64.norm [a - 0.0264; b - 0.2185])%float
  | Vec [a] | Scalar a => Ret (F64.norm [a - 0.0264; a - 0.2185])%float
  | Vec _ => Raise ValueError
  end.

(** [_accept_output]: the region filter, read off [output_sample[0]]. *)
Definition _accept_output (output_sample : list label)
    (rule_keyword : option string) : result bool :=
  match rule_keyword with
  | None => Ret true
  | Some kw =>
      if kw =? "top" then y <- first_component output_sample 1 ;; Ret (0.1 <? y)%float
      else if kw =? "bottom" then y <- first_component output_sample 1 ;; Ret (y <=? 0.1)%float
      else if kw =? "inside" then d <- distance_to_centre output_sample ;; Ret (d <? 0.15)%float
      else if kw =? "outside" then d <- distance_to_centre output_sample ;; Ret (0.15 <=? d)%float
      else if kw =? "left" then x <- first_component output_sample 0 ;; Ret (x <? 400)%float
      else if kw =? "right" then x <- first_component output_sample 0 ;; Ret (400 <=? x)%float
      else Raise SystemExit
  end.

Definition modify_out_sample (output_sample : list label) : list label := output_sample.

(** [(cut_data - est_mean) / est_std], transposed to
    [channel, time, frequency] with a trailing axis of length one. *)
Definition get_input_sample (self : WaveletDataset) (cut_range : list Z) : result window :=
  cut_data <- take (rows (wavelets self)) cut_range ;;
  Ret (tabulate (n_chan (wavelets self)) (fun c =>
         map (fun slice =>
                tabulate (n_freq (wavelets self)) (fun f =>
                  [ ((at2 slice f c - at2 (est_mean self) f c) / at2 (est_std self) f c)%float ]))
             cut_data)).

(** Steps 1 and 2 of [__getitem__], the index lookup: the index itself,
    the current and the previous window, and the generator afterwards. *)
Definition resolve_window (self : WaveletDataset) (idx : Z) (g : Rng)
    : result (Z * list Z * list Z * Rng) :=
  '(idx, g) <- (if shuffle (opts self) then choice (cv_indices self) g
                else i <- item (cv_indices self) idx ;; Ret (i, g)) ;;
  let cut_range := arange idx (idx + sample_size self) in
  let past_cut_range := arange (idx - 1) (idx + sample_size self - 1) in
  if random_batches (opts self) then
    '(start_index, g) <- choice (cv_indices self) g ;;
    Ret (idx,
         arange start_index (start_index + model_timesteps (opts self)),
         arange (start_index - 1) (start_index + model_timesteps (opts self) - 1),
         g)
  else Ret (idx, cut_range, past_cut_range, g).

(** [__getitem__]; [fuel] bounds the depth of the retry recursion. *)
Fixpoint getitem (fuel : nat) (self : WaveletDataset) (idx : Z) (g : Rng)
    : result (window * list label * WaveletDataset * Rng) :=
  match fuel with
  | O => Diverge
  | S fuel' =>
      let og_idx := idx in
      '(idx, cut_range, past_cut_range, g) <- resolve_window self idx g ;;
      output_sample <- get_output_sample self cut_range past_cut_range ;;
      ok <- _accept_output output_sample (train_half self) ;;
      if negb ok then getitem fuel' self og_idx g
      else
        input_sample <- get_input_sample self cut_range ;;
        Ret (input_sample, modify_out_sample output_sample, set_prev_ind self idx, g)
  end.

(** [np.median(a, axis=0)] for [a] of shape [(n, n_f, n_c)]. *)
Definition median_axis0 (a : list (list (list float))) (n_f n_c : nat) : list (list float) :=
  tabulate n_f (fun f => tabulate n_c (fun c => F64.median (map (fun slice => at2 slice f c) a))).

(** [abs(a - m)] for [a] of shape [(n, n_f, n_c)] and [m] of shape [(n_f, n_c)]. *)
Definition abs_deviation (a : list (list (list float))) (m : list (list float))
    (n_f n_c : nat) : list (list (list float)) :=
  map (fun slice => tabulate n_f (fun f => tabulate n_c (fun c =>
         PrimFloat.abs (at2 slice f c - at2 m f c)%float))) a.

(** The shape of the array [get_input_sample] returns for a window of
    [n] indices: [(n_chan, n, n_freq, 1)]. *)
Definition window_shape (w : ndarray3) (n : nat) : list nat :=
  [n_chan w; n; n_freq w; 1].

(** [np.median(self.wavelets[self.training_indices, :, :], axis=0)] *)
Definition estimate_mean (o : Opts) (w : ndarray3) : result (list (list float)) :=
  sel <- take (rows w) (training_indices o) ;;
  Ret (median_axis0 sel (n_freq w) (n_chan w)).

(** [np.median(abs(self.wavelets[self.training_indices, :, :] - self.est_mean), axis=0)] *)
Definition estimate_std (o : Opts) (w : ndarray3) (mean : list (list float))
    : result (list (list float)) :=
  sel <- take (rows w) (training_indices o) ;;
  Ret (median_axis0 (abs_deviation sel mean (n_freq w) (n_chan w)) (n_freq w) (n_chan w)).

(** The object as [prepare_data_generator] has it when it draws the dummy
    sample: every attribute set but [input_shape]. *)
Definition unsampled (o : Opts) (w : ndarray3) (half : option string)
    (outs : list channel) (training : bool) (mean std : list (list float))
    : WaveletDataset :=
  {| opts := o; wavelets := w; train_half := half; outputs := outs;
     training := training; sample_size := model_timesteps o;
     cv_indices := if training then training_indices o else testing_indices o;
     est_mean := mean; est_std := std; prev_ind := None; input_shape := [] |}.

(** [prepare_data_generator]; [dummy_input.shape] is the shape of a window
    of [model_timesteps] indices, the length of every window
    [__getitem__] resolves here. *)
Definition prepare_data_generator (fuel : nat) (o : Opts) (w : ndarray3)
    (half : option string) (outs : list channel) (training : bool) (g : Rng)
    : result (WaveletDataset * Rng) :=
  mean <- estimate_mean o w ;;
  std <- estimate_std o w mean ;;
  '(dummy_input, dummy_output, self, g) <-
     getitem fuel (unsampled o w half outs training mean std) 0 g ;;
  Ret (set_input_shape self (window_shape w (Z.to_nat (model_timesteps o))), g).

(** [train_half in ["top", "bottom", "inside", "outside"] == False] is a
    chained comparison: [(train_half in l) and (l == False)], and a list
    never equals [False]. *)
Definition in_list_eq_False (x : string) (l : list string) : bool :=
  existsb (String.eqb x) l && false.

(** [WaveletDataset.__init__] *)
Definition WaveletDataset_init (fuel : nat) (o : Opts) (hdf5_file : Hdf5)
    (training : bool) (half : option string) (g : Rng)
    : result (WaveletDataset * Rng) :=
  w <- of_option KeyError (inputs_wavelets hdf5_file) ;;
  _ <- (match half with
        | Some kw =>
            if in_list_eq_False kw ["top"; "bottom"; "inside"; "outside"]
            then Raise SystemExit else Ret tt
        | None => Ret tt
        end) ;;
  outs <- mapM (fun key => of_option KeyError (outputs_of hdf5_file key)) (loss_functions o) ;;
  prepare_data_generator fuel o w half outs training g.

(** The region-filter keywords [_accept_output] knows. *)
Definition recognised_half (kw : string) : bool :=
  existsb (String.eqb kw) ["top"; "bottom"; "inside"; "outside"; "left"; "right"].

(** The keyword of the testing view, or the [exit(0)] of the last branch. *)
Definition opposite_half (kw : string) : result string :=
  if kw =? "top" then Ret "bottom"
  else if kw =? "bottom" then Ret "top"
  else if kw =? "inside" then Ret "outside"
  else if kw =? "outside" then Ret "inside"
  else if kw =? "left" then Ret "right"
  else if kw =? "right" then Ret "left"
  else Raise SystemExit.

Definition create_train_and_test_datasets (fuel : nat) (o : Opts) (hdf5_file : Hdf5)
    (half : option string) (g : Rng)
    : result (WaveletDataset * WaveletDataset * Rng) :=
  '(training_generator, g) <- WaveletDataset_init fuel o hdf5_file true half g ;;
  half <- (match half with
           | Some kw => n <- opposite_half kw ;; Ret (Some n)
           | None => Ret None
           end) ;;
  '(testing_generator, g) <- WaveletDataset_init fuel o hdf5_file false half g ;;
  Ret (training_generator, testing_generator, g).

End Dataset.

(** *** Predicates of the statements *)

(** The targets whose labels are derived from the position rows. *)
Definition needs_position (var : string) : Prop :=
  var = "direction" \/ var = "head_direction" \/ var = "speed".

(** The statistics of a view, entry by entry: the median over the rows
    [sel], and the median of the absolute deviations from it. *)
Definition statistics_of (sel : list (list (list float))) (self : WaveletDataset) : Prop :=
  forall f c, f < n_freq (wavelets self) -> c < n_chan (wavelets self) ->
    at2 (est_mean self) f c = F64.median (map (fun slice => at2 slice f c) sel) /\
    at2 (est_std self) f c =
      F64.median (map (fun slice =>
        PrimFloat.abs (at2 slice f c - F64.median (map (fun slice => at2 slice f c) sel))%float)
        sel).

(** Entry [c, t, f, u] of an input window. *)
Definition at4 (w : window) (c t f u : nat) : float :=
  nth u (nth f (nth t (nth c w []) []) []) 0%float.

End WaveletData.

(** ** A small recording for the examples *)

Module DatasetExamples.

Import Numpy WaveletData.
Local Open Scope string_scope.
Local Open Scope list_scope.
Local Open Scope float_scope.

(** [math.atan2] on the two half-axes the examples move along. *)
Definition atan2_axes (y x : float) : float :=
  if (y =? 0) && (0 <? x) then 0
  else if (x =? 0) && (0 <? y) then 0x1.921fb54442d18p+0
  else nan.

(** A recording of six time steps, one frequency band and two channels;
    the animal walks along +x, one unit per step, at height 0.5. *)
Definition walk_x : channel :=
  [[0; 0.5]; [1; 0.5]; [2; 0.5]; [3; 0.5]; [4; 0.5]; [5; 0.5]].

Definition walk_y : channel :=
  [[0.5; 0]; [0.5; 1]; [0.5; 2]; [0.5; 3]; [0.5; 4]; [0.5; 5]].

Definition scalars : channel := [[0]; [0]; [0]; [0]; [0]; [0]].

Definition recording : ndarray3 :=
  {| rows := [[[1; 7]]; [[2; 7]]; [[4; 7]]; [[8; 7]]; [[16; 7]]; [[32; 7]]];
     n_freq := 1; n_chan := 2 |}.

Definition file (position : channel) : Hdf5 :=
  {| inputs_wavelets := Some recording;
     outputs_of := fun key =>
       if (key =? "position")%string then Some position
       else if (key =? "direction")%string then Some scalars
       else if (key =? "head_direction")%string then Some scalars
       else if (key =? "speed")%string then Some scalars
       else None |}.

Definition options (keys : list string) : Opts :=
  {| loss_functions := keys;
     model_timesteps := 2;
     shuffle := false;
     random_batches := false;
     training_indices := [1; 2; 3]%Z;
     testing_indices := [4]%Z |}.

Definition shuffled (o : Opts) : Opts :=
  {| loss_functions := loss_functions o;
     model_timesteps := model_timesteps o;
     shuffle := true;
     random_batches := random_batches o;
     training_indices := training_indices o;
     testing_indices := testing_indices o |}.

Definition all_targets := ["position"; "direction"; "speed"]%string.

(** The view [create_train_and_test_datasets] builds from [file position]
    and [options keys], before its first sample is drawn. *)
Definition view (o : Opts) (position : channel) (half : option string)
    (training : bool) : WaveletDataset :=
  {| opts := o;
     wavelets := recording;
     train_half := half;
     outputs := map (fun key => if (key =? "position")%string then position else scalars)
                    (loss_functions o);
     WaveletData.training := training;
     sample_size := 2;
     cv_indices := if training then training_indices o else testing_indices o;
     est_mean := [[4; 7]];
     est_std := [[2; 0]];
     prev_ind := None;
     input_shape := [] |}.

(** A walk that stays at height 0 for three steps and then at 0.5. *)
Definition step_up : channel :=
  [[0; 0]; [1; 0]; [2; 0]; [3; 0.5]; [4; 0.5]; [5; 0.5]].

(** A generator whose draws are 0, 1, 2, ... *)
Definition counting : Rng := fun n => n.

(** A generator whose every draw is 0. *)
Definition zeros : Rng := fun _ => 0%nat.

End DatasetExamples.

(** ** deep_insight/networks.py *)

Module Networks.

Import Stdlib.Reals.Reals.
Local Open Scope string_scope.
Local Open Scope list_scope.

Local Infix "+++" := String.append (at level 60, right associativity).

(** Where the values of a parameter tensor come from: the constructor of
    the torch layer, or one of the two initialisers of [torch.nn.init]
    that [initialise_layer] calls. *)
Inductive init :=
  | TorchDefault
  | Zeros
  | KaimingNormal.

(** The layers [Standard_Decoder.__init__] creates.  [Conv2d] and [Linear]
    are the ones with a [weight] and a [bias] attribute.  The checks torch
    makes on the arguments of a layer (an activation of that name exists,
    a dropout ratio lies in [0, 1]) are not modelled. *)
Inductive layer :=
  | Conv2d (in_channels out_channels : Z) (kernel_size stride padding : Z * Z)
           (weight bias : init)
  | Linear (in_features out_features : Z) (weight bias : init)
  | TimeDistributed (inner : layer)
  | Activation (name : string)
  | Dropout (p : float)
  | GaussianNoise
  | CosineSimilarity
  | Lambda
  | TimeDistributedFlatten.

(** [layer.weight] and [layer.bias] where [hasattr] finds them. *)
Definition weight_of (l : layer) : option init :=
  match l with
  | Conv2d _ _ _ _ _ w _ | Linear _ _ w _ => Some w
  | _ => None
  end.

Definition bias_of (l : layer) : option init :=
  match l with
  | Conv2d _ _ _ _ _ _ b | Linear _ _ _ b => Some b
  | _ => None
  end.

(** [initialise_layer]: zero the bias if the layer has one, draw the
    weight with [kaiming_normal_] if it has one. *)
Definition initialise_layer (l : layer) : layer :=
  let l :=
    match l with
    | Conv2d i o k s p w _ => Conv2d i o k s p w Zeros
    | Linear i o w _ => Linear i o w Zeros
    | _ => l
    end in
  match l with
  | Conv2d i o k s p _ b => Conv2d i o k s p KaimingNormal b
  | Linear i o _ b => Linear i o KaimingNormal b
  | _ => l
  end.

(** The attributes of the options object [tg] the decoder reads;
    [outputs] holds the shape of each output array. *)
Record Config := {
  input_shape : list Z;
  loss_functions : list string;
  outputs : list (list Z);
  num_convs_tsr : Z;
  filter_size : Z;
  kernel_size : Z;
  act_conv : string;
  act_fc : string;
  num_dense : Z;
  num_units_dense : Z;
  dropout_ratio : float }.

Record Standard_Decoder := {
  self_input_shape : list Z;
  target_names : list string;
  conv_order : list string;
  fc_orders : list (list string);
  (** the registered submodules, by attribute name *)
  attrs : list (string * layer) }.

Fixpoint setattr (attrs : list (string * layer)) (name : string) (l : layer)
    : list (string * layer) :=
  match attrs with
  | [] => [(name, l)]
  | (n, l') :: rest => if n =? name then (n, l) :: rest else (n, l') :: setattr rest name l
  end.

Fixpoint lookup (attrs : list (string * layer)) (name : string) : option layer :=
  match attrs with
  | [] => None
  | (n, l) :: rest => if n =? name then Some l else lookup rest name
  end.

Definition getattr (self : Standard_Decoder) (name : string) : result layer :=
  of_option AttributeError (lookup (attrs self) name).

(** [f"{n}"] *)
Definition fmt_nat (n : nat) : string := NilZero.string_of_uint (Nat.to_uint n).
Definition fmt_int (z : Z) : string := NilZero.string_of_int (Z.to_int z).

(** [round(H/2)] for an integer [H]: halves round to the even neighbour. *)
Definition round_half (H : Z) : Z :=
  let q := (H / 2)%Z in
  if Z.even H then q else if Z.even q then q else (q + 1)%Z.

(** The state the constructor threads through its loops. *)
Record building := {
  b_attrs : list (string * layer);
  b_conv_order : list string }.

(** One round of the loop over [range(0, tg.num_convs_tsr)]. *)
Definition add_conv_pair (tg : Config) (st : building * Z) (nct : nat) : building * Z :=
  let '(b, input_channels) := st in
  let k := kernel_size tg in
  let tsr := "conv_tsr_" +++ fmt_nat nct in
  let fr := "conv_fr_" +++ fmt_nat nct in
  let a := setattr (b_attrs b) tsr
             (TimeDistributed (Conv2d input_channels (filter_size tg) (k, k) (2, 1) (1, 1)
                                 TorchDefault TorchDefault))%Z in
  let a := setattr a (tsr +++ "_activation") (Activation (act_conv tg)) in
  let a := setattr a fr
             (TimeDistributed (Conv2d (filter_size tg) (filter_size tg) (k, k) (1, 2) (1, 1)
                                 TorchDefault TorchDefault))%Z in
  let a := setattr a (fr +++ "_activation") (Activation (act_conv tg)) in
  ({| b_attrs := a;
      b_conv_order := b_conv_order b ++ [tsr; tsr +++ "_activation"; fr; fr +++ "_activation"] |},
   filter_size tg).

(** The loop [while H > 2]; [fuel] is set to [H] by the caller, more
    rounds than the loop can make. *)
Fixpoint add_after_tsr (fuel : nat) (tg : Config) (b : building)
    (num_channels H : Z) (layer_counter : nat) : building * Z :=
  match fuel with
  | O => (b, H)
  | S fuel' =>
      if (2 <? H)%Z then
        let name := "conv_after_tsr_" +++ fmt_nat layer_counter in
        let a := setattr (b_attrs b) name
                   (TimeDistributed (Conv2d num_channels (filter_size tg * 2) (2, 1) (2, 2) (1, 0)
                                       TorchDefault TorchDefault))%Z in
        let a := setattr a (name +++ "_activation") (Activation (act_conv tg)) in
        add_after_tsr fuel' tg
          {| b_attrs := a; b_conv_order := b_conv_order b ++ [name; name +++ "_activation"] |}
          (filter_size tg * 2)%Z (round_half H) (S layer_counter)
      else (b, H)
  end.

(** One round of the loop over [range(0, tg.num_dense)] of a head. *)
Definition add_dense (tg : Config) (key : string)
    (st : list (string * layer) * list string * Z) (d : nat)
    : list (string * layer) * list string * Z :=
  let '(a, fc_order, initial_in_channels) := st in
  let name := "target_" +++ key +++ "_fc_" +++ fmt_nat d in
  let a := setattr a name
             (Linear initial_in_channels (num_units_dense tg) TorchDefault TorchDefault) in
  let a := setattr a (name +++ "_activation") (Activation (act_fc tg)) in
  let a := setattr a (name +++ "_dropout") (Dropout (dropout_ratio tg)) in
  (a, fc_order ++ [name; name +++ "_activation"; name +++ "_dropout"], num_units_dense tg).

(** One round of the loop over [zip(tg.loss_functions.keys(), tg.outputs)]. *)
Definition add_head (tg : Config) (H : Z)
    (st : list (string * layer) * list (list string)) (head : string * list Z)
    : result (list (string * layer) * list (list string)) :=
  let '(a, orders) := st in
  let '(key, shape) := head in
  let '(a, fc_order, initial_in_channels) :=
    fold_left (add_dense tg key) (seq 0 (Z.to_nat (num_dense tg))) (a, [], (256 * H)%Z) in
  out_features <- Numpy.item shape 1 ;;
  let name := "target_" +++ key +++ "_fc_" +++ fmt_int (num_dense tg) in
  let a := setattr a name (Linear initial_in_channels out_features TorchDefault TorchDefault) in
  Ret (a, orders ++ [fc_order ++ [name]]).

Fixpoint add_heads (tg : Config) (H : Z)
    (st : list (string * layer) * list (list string)) (heads : list (string * list Z))
    : result (list (string * layer) * list (list string)) :=
  match heads with
  | [] => Ret st
  | head :: rest => st <- add_head tg H st head ;; add_heads tg H st rest
  end.

Section Decoder.

(** [math.log(n, 2).is_integer()] for a positive [n], as the platform's
    floating-point logarithm decides it. *)
Variable log2_is_integer : Z -> bool.

(** [Standard_Decoder.__init__] *)
Definition Standard_Decoder_init (tg : Config) : result Standard_Decoder :=
  timesteps <- Numpy.item (input_shape tg) 1 ;;
  _ <- (if (timesteps <=? 0)%Z then Raise ValueError else Ret tt) ;;
  _ <- (if negb (log2_is_integer timesteps) then Raise SystemExit else Ret tt) ;;
  let a := setattr [] "gaussian_noise" GaussianNoise in
  let a := setattr a "dropout" (Dropout 0) in
  let a := setattr a "sim" CosineSimilarity in
  input_channels <- Numpy.item (input_shape tg) 3 ;;
  let '(b, _) :=
    fold_left (add_conv_pair tg) (seq 0 (Z.to_nat (num_convs_tsr tg)))
      ({| b_attrs := a; b_conv_order := [] |}, input_channels) in
  let b := {| b_attrs := setattr (b_attrs b) "permute" Lambda;
              b_conv_order := b_conv_order b ++ ["permute"] |} in
  H <- Numpy.item (input_shape tg) 0 ;;
  let '(b, H) := add_after_tsr (Z.to_nat H) tg b (filter_size tg) H 0 in
  let a := setattr (b_attrs b) "flatten" TimeDistributedFlatten in
  let H := if (timesteps <? 64)%Z then 1%Z else H in
  let H := if (timesteps =? 64)%Z then 2%Z else H in
  let H := if (timesteps =? 512)%Z then 3%Z else H in
  let H := if (timesteps =? 1024)%Z then 5%Z else H in
  '(a, orders) <- add_heads tg H (a, []) (combine (loss_functions tg) (outputs tg)) ;;
  Ret {| self_input_shape := input_shape tg;
         target_names := loss_functions tg;
         conv_order := b_conv_order b;
         fc_orders := orders;
         attrs := a |}.

End Decoder.

(** *** The forward pass *)

Local Open Scope R_scope.

(** [torch.nn.CosineSimilarity] of two feature vectors, as its
    documentation defines it: the dot product over
    [max(norm x * norm y, eps)], [eps = 1e-8]. *)
Fixpoint dot (x y : list R) : R :=
  match x, y with
  | a :: x', b :: y' => a * b + dot x' y'
  | _, _ => 0
  end.

Definition eps : R := 1 / 100000000.

Definition cosine (x y : list R) : R :=
  dot x y / Rmax (sqrt (dot x x) * sqrt (dot y y)) eps.

(** [self.sim(a, b)] along [dim=1]: one similarity per row of the batch. *)
Fixpoint cosine_rows (a b : list (list R)) : list R :=
  match a, b with
  | x :: a', y :: b' => cosine x y :: cosine_rows a' b'
  | _, _ => []
  end.

(** [torch.sum(torch.abs(t))] *)
Definition sum_abs (t : list R) : R := fold_left (fun s v => s + Rabs v) t 0.

Section Forward.

(** Tensors and what the torch layers compute on them are taken as given;
    [features t] reads [t.squeeze()] as a batch of feature vectors. *)
Variable tensor : Type.
Variable apply_layer : layer -> tensor -> tensor.
Variable permute_input : tensor -> tensor.
Variable squeeze1 : tensor -> tensor.
Variable features : tensor -> list (list R).

Definition call (self : Standard_Decoder) (name : string) (x : tensor) : result tensor :=
  l <- getattr self name ;; Ret (apply_layer l x).

Fixpoint run_conv_order (self : Standard_Decoder) (steps : list string) (x : tensor)
    : result tensor :=
  match steps with
  | [] => Ret x
  | step_name :: rest =>
      x <- call self step_name x ;;
      x <- call self "dropout" x ;;
      run_conv_order self rest x
  end.

(** The loop over [fc_order[1::]]; [ffc] is the local of that name. *)
Fixpoint run_fc_steps (self : Standard_Decoder) (steps : list string) (x : tensor)
    (ffc : option tensor) : result (tensor * option tensor) :=
  match steps with
  | [] => Ret (x, ffc)
  | step_name :: rest =>
      let ffc := Some x in
      x <- call self "dropout" x ;;
      x <- call self step_name x ;;
      run_fc_steps self rest x ffc
  end.

Fixpoint run_fc_orders (self : Standard_Decoder) (orders : list (list string))
    (flat_x : tensor) (ffc : option tensor) (outputs final_fully_connected : list tensor)
    : result (list tensor * list tensor) :=
  match orders with
  | [] => Ret (outputs, final_fully_connected)
  | fc_order :: rest =>
      first <- of_option IndexError (nth_error fc_order 0) ;;
      x <- call self first flat_x ;;
      '(x, ffc) <- run_fc_steps self (tl fc_order) x ffc ;;
      f <- of_option UnboundLocalError ffc ;;
      run_fc_orders self rest flat_x ffc (outputs ++ [squeeze1 x])
        (final_fully_connected ++ [f])
  end.

(** The term one pair of heads adds:
    [torch.sum(torch.abs(self.sim(a.squeeze(), b.squeeze())))]. *)
Definition pair_term (a b : tensor) : R :=
  sum_abs (cosine_rows (features a) (features b)).

(** The two nested loops over [range(len(final_fully_connected))] and
    [range(i+1, len(final_fully_connected))]. *)
Definition similarity (final_fully_connected : list tensor) : R :=
  let n := length final_fully_connected in
  fold_left (fun sim i =>
    fold_left (fun sim j =>
      if (i =? j)%nat then sim
      else match nth_error final_fully_connected i, nth_error final_fully_connected j with
           | Some a, Some b => sim + pair_term a b
           | _, _ => sim
           end)
      (seq (i + 1) (n - (i + 1))) sim)
    (seq 0 n) 0.

(** [forward]; the second component is [sim] when [return_co_sim] is set. *)
Definition forward (self : Standard_Decoder) (x : tensor) (return_co_sim : bool)
    : result (list tensor * option R) :=
  let x := permute_input x in
  x <- call self "gaussian_noise" x ;;
  x <- run_conv_order self (conv_order self) x ;;
  flat_x <- call self "flatten" x ;;
  '(outputs, final_fully_connected) <- run_fc_orders self (fc_orders self) flat_x None [] [] ;;
  if negb return_co_sim then Ret (outputs, None)
  else Ret (outputs, Some (similarity final_fully_connected)).

(** The penalty in the words of the specification: the sum, over all
    unordered pairs of heads, of the pair's term. *)
Fixpoint sum_terms (a : tensor) (l : list tensor) : R :=
  match l with
  | [] => 0
  | b :: l' => pair_term a b + sum_terms a l'
  end.

Fixpoint sum_over_pairs (l : list tensor) : R :=
  match l with
  | [] => 0
  | a :: l' => sum_terms a l' + sum_over_pairs l'
  end.

(** The features of a head before its final layer: the first step on the
    flattened trunk output, then every later step but the last, each after
    the trunk's dropout. *)
Fixpoint run_steps (self : Standard_Decoder) (steps : list string) (x : tensor)
    : result tensor :=
  match steps with
  | [] => Ret x
  | step_name :: rest =>
      x <- call self "dropout" x ;;
      x <- call self step_name x ;;
      run_steps self rest x
  end.

Definition pre_final_features (self : Standard_Decoder) (fc_order : list string)
    (flat_x : tensor) : result tensor :=
  first <- of_option IndexError (nth_error fc_order 0) ;;
  x <- call self first flat_x ;;
  run_steps self (removelast (tl fc_order)) x.

End Forward.

(** Every parameter tensor of a layer, wrapped layers included. *)
Fixpoint parameters (l : layer) : list init :=
  match l with
  | Conv2d _ _ _ _ _ w b | Linear _ _ w b => [w; b]
  | TimeDistributed inner => parameters inner
  | _ => []
  end.

(** *** Predicates of the statements *)

(** Every parameter is as the torch constructor of its layer left it. *)
Definition fresh_layer (l : layer) : Prop := Forall (eq TorchDefault) (parameters l).

Definition fresh_attrs (a : list (string * layer)) : Prop :=
  Forall (fun nl => fresh_layer (snd nl)) a.

(** [getattr] finds the name. *)
Definition registered_in (a : list (string * layer)) (name : string) : Prop :=
  exists l, lookup a name = Some l.

(** The trunk under construction: every name of [conv_order] is
    registered, and so are the layers created before the loops. *)
Definition trunk_ok (b : building) : Prop :=
  registered_in (b_attrs b) "gaussian_noise" /\
  registered_in (b_attrs b) "dropout" /\
  Forall (registered_in (b_attrs b)) (b_conv_order b).

(** A head with [n] dense layers: three names per dense layer and the
    final projection, all registered. *)
Definition head_ok (n : nat) (a : list (string * layer)) (o : list string) : Prop :=
  (length o = 3 * n + 1)%nat /\ Forall (registered_in a) o.

End Networks.

(** ** A small decoder for the examples *)

Module DecoderExamples.

Import Networks.
Local Open Scope string_scope.
Local Open Scope list_scope.

(** [math.log(n, 2).is_integer()] on window lengths up to 1024, where the
    floating-point logarithm of a power of two is the exact exponent. *)
Definition log2_table (n : Z) : bool :=
  existsb (Z.eqb n) [1; 2; 4; 8; 16; 32; 64; 128; 256; 512; 1024]%Z.

Definition config : Config :=
  {| input_shape := [5; 64; 26; 1]%Z;
     loss_functions := ["position"; "direction"];
     outputs := [[100; 2]; [100; 1]]%Z;
     num_convs_tsr := 1;
     filter_size := 64;
     kernel_size := 3;
     act_conv := "ELU";
     act_fc := "ELU";
     num_dense := 1;
     num_units_dense := 1024;
     dropout_ratio := 0 |}.

(** The decoder [Standard_Decoder(config)] is. *)
Definition decoder : Standard_Decoder :=
  Eval vm_compute in
    match Standard_Decoder_init log2_table config with
    | Ret self => self
    | _ => {| self_input_shape := []; target_names := []; conv_order := [];
              fc_orders := []; attrs := [] |}
    end.

(** A stand-in for torch's tensors and layers in the examples: a tensor
    is a batch of feature vectors and every layer hands its input on. *)
Definition batch := list (list Rdefinitions.R).
Definition pass_on (l : layer) (x : batch) : batch := x.
Definition same (x : batch) : batch := x.

Definition two_rows : batch :=
  [[Rdefinitions.IZR 1; Rdefinitions.IZR 0]; [Rdefinitions.IZR 0; Rdefinitions.IZR 1]].

End DecoderExamples.


(** ** deep_insight/wavelet_dataset.py: what else the views offer *)

Module DatasetViews.

Import Numpy WaveletData.
Local Open Scope string_scope.
Local Open Scope list_scope.

(** [WaveletDataset.__len__] *)
Definition WaveletDataset_len (self : WaveletDataset) : nat := length (cv_indices self).

(** The number [_accept_output] compares with the threshold of a keyword:
    the second coordinate of [output_sample[0]] for top and bottom, its
    distance to the centre for inside and outside, its first coordinate
    for left and right. *)
Definition filter_quantity (kw : string) (output_sample : list label) : result float :=
  if (kw =? "top") || (kw =? "bottom") then first_component output_sample 1
  else if (kw =? "inside") || (kw =? "outside") then distance_to_centre output_sample
  else first_component output_sample 0.

End DatasetViews.

(** ** deep_insight/wavelet_dataset.py: WaveletDatasetFrey *)

Module Frey.

Import Numpy WaveletData.
Local Open Scope list_scope.

(** [np.arange(lo, hi, step)] for integers: [ceil((hi - lo) / step)]
    values from [lo] on, none when that count is not positive.  (numpy
    refuses a step of 0; no call here passes one.) *)
Definition arange_step (lo hi step : Z) : list Z :=
  let n := if (0 <? step)%Z then ((hi - lo + step - 1) / step)%Z
           else ((lo - hi - step - 1) / (- step))%Z in
  map (fun k => (lo + step * Z.of_nat k)%Z) (seq 0 (Z.to_nat n)).

(** A [WaveletDatasetFrey].  Its attributes are those of a
    [WaveletDataset], set by the same code ([train_half] and [prev_ind]
    are never read), and the option [average_output], which is read
    through a truth test and as a step: [None] and [False] count as 0. *)
Record WaveletDatasetFrey := {
  base : WaveletDataset;
  average_output : Z }.

(** [WaveletDatasetFrey.get_output_sample] *)
Definition get_output_sample (self : WaveletDatasetFrey) (cut_range : list Z)
    : result (list channel) :=
  mapM (fun out =>
          cut_data <- take out cut_range ;;
          if (average_output self =? 0)%Z then Ret cut_data
          else take cut_data
                 (map (fun i => (i - 1)%Z)
                      (tl (arange_step 0 (Z.of_nat (length cut_data) + 1)
                             (average_output self)))))
       (outputs (base self)).

(** [WaveletDatasetFrey.__getitem__]: neither a region filter nor a
    retry; the input window is cut before the labels. *)
Definition getitem (self : WaveletDatasetFrey) (idx : Z) (g : Rng)
    : result (window * list channel * Rng) :=
  '(idx, g) <- (if shuffle (opts (base self)) then choice (cv_indices (base self)) g
                else i <- item (cv_indices (base self)) idx ;; Ret (i, g)) ;;
  let cut_range := arange idx (idx + sample_size (base self)) in
  '(cut_range, g) <-
     (if random_batches (opts (base self)) then
        '(start_index, g) <- choice (cv_indices (base self)) g ;;
        Ret (arange start_index (start_index + model_timesteps (opts (base self))), g)
      else Ret (cut_range, g)) ;;
  input_sample <- get_input_sample (base self) cut_range ;;
  output_sample <- get_output_sample self cut_range ;;
  Ret (input_sample, output_sample, g).

(** [WaveletDatasetFrey.prepare_data_generator], the same lines as in
    [WaveletDataset] around the other [__getitem__]. *)
Definition prepare_data_generator (o : Opts) (w : ndarray3) (outs : list channel)
    (training : bool) (average : Z) (g : Rng) : result (WaveletDatasetFrey * Rng) :=
  mean <- estimate_mean o w ;;
  std <- estimate_std o w mean ;;
  let self := {| base := unsampled o w None outs training mean std;
                 average_output := average |} in
  '(dummy_input, dummy_output, g) <- getitem self 0 g ;;
  Ret ({| base := set_input_shape (base self)
                    (window_shape w (Z.to_nat (model_timesteps o)));
          average_output := average |}, g).

(** [WaveletDatasetFrey.__init__]; [average] is the entry [average_output]
    of the options. *)
Definition WaveletDatasetFrey_init (o : Opts) (hdf5_file : Hdf5) (training : bool)
    (average : Z) (g : Rng) : result (WaveletDatasetFrey * Rng) :=
  w <- of_option KeyError (inputs_wavelets hdf5_file) ;;
  outs <- mapM (fun key => of_option KeyError (outputs_of hdf5_file key)) (loss_functions o) ;;
  prepare_data_generator o w outs training average g.

End Frey.

(** ** test_model.py and utils/get_MJ_dataset.py: the split of the indices *)

Module Scripts.

Import Numpy.
Local Open Scope list_scope.

(** Consecutive sections of the given sizes. *)
Fixpoint cut_sections {A} (ary : list A) (sizes : list nat) : list (list A) :=
  match sizes with
  | [] => []
  | n :: rest => firstn n ary :: cut_sections (skipn n ary) rest
  end.

(** [np.array_split(ary, sections)] for an integer [sections]: the first
    [len(ary) % sections] sections hold one element more than the others. *)
Definition array_split {A} (ary : list A) (sections : Z) : result (list (list A)) :=
  if (sections <=? 0)%Z then Raise ValueError
  else
    let n := Z.to_nat sections in
    let each := length ary / n in
    let extras := length ary mod n in
    Ret (cut_sections ary (repeat (S each) extras ++ repeat each (n - extras))).

(** The lines both scripts run before they create the datasets:
    [exp_indices], [cv_splits], and from them [training_indices] and
    [test_indeces].  [n_rows] is [wavelets.shape[0]]. *)
Definition split_indices (n_rows model_timesteps num_cvs : Z) : result (list Z * list Z) :=
  let exp_indices := arange 0 (n_rows - model_timesteps) in
  cv_splits <- array_split exp_indices num_cvs ;;
  let training_indices := concat (removelast cv_splits) in
  test_indeces <- last_item cv_splits ;;
  Ret (training_indices, test_indeces).

(** The loop [for t in test_dataset] of utils/get_MJ_dataset.py, from
    index [i] on.  The dataset class has no [__iter__], so Python asks
    [__getitem__] for the indices 0, 1, 2, ... and ends the loop at the
    first [IndexError].  [dataset] collects the pairs [(d, labels)] handed
    to [MattJonesInput]; [rounds] bounds the number of rounds. *)
Fixpoint collect (atan2 : float -> float -> float) (rounds fuel : nat)
    (self : WaveletData.WaveletDataset) (i : Z) (g : WaveletData.Rng)
    (dataset : list (WaveletData.window * list WaveletData.label))
    : result (list (WaveletData.window * list WaveletData.label)) :=
  match rounds with
  | O => Diverge
  | S rounds' =>
      match WaveletData.getitem atan2 fuel self i g with
      | Ret (d, labels, self', g') =>
          collect atan2 rounds' fuel self' (i + 1) g' (dataset ++ [(d, labels)])
      | Raise IndexError => Ret dataset
      | Raise e => Raise e
      | Diverge => Diverge
      end
  end.

End Scripts.

(** ** deep_insight/networks.py: the wrapper modules *)

Module Layers.

Local Open Scope list_scope.

Section Tensors.

(** The type of the entries. *)
Variable A : Type.

(** A tensor: its sizes, and its entries in row-major order. *)
Record tensor := {
  shape : list nat;
  data : list A }.

Definition numel (s : list nat) : nat := fold_right Nat.mul 1 s.

(** torch's errors are [None] here: an [IndexError] for a missing
    dimension, a [RuntimeError] for sizes that do not fit. *)
Definition and_then {X Y} (m : option X) (k : X -> option Y) : option Y :=
  match m with
  | Some x => k x
  | None => None
  end.

Local Notation "x <-? m ;; k" := (and_then m (fun x => k))
  (at level 61, m at next level, right associativity).

(** [x.shape[k]] *)
Definition dim (x : tensor) (k : nat) : option nat := nth_error (shape x) k.

(** [torch.reshape(x, s)]: the same entries in the same order. *)
Definition reshape (x : tensor) (s : list nat) : option tensor :=
  if numel s =? numel (shape x) then Some {| shape := s; data := data x |} else None.

(** [torch.flatten(x, start_dim=1, end_dim=3)] *)
Definition flatten_1_3 (x : tensor) : option tensor :=
  match shape x with
  | s0 :: s1 :: s2 :: s3 :: rest =>
      Some {| shape := s0 :: s1 * s2 * s3 :: rest; data := data x |}
  | _ => None
  end.

(** [TimeDistributed.forward] *)
Definition TimeDistributed_forward (module : tensor -> option tensor) (x : tensor)
    : option tensor :=
  if length (shape x) <=? 2 then module x
  else
    s0 <-? dim x 0 ;;
    s1 <-? dim x 1 ;;
    s2 <-? dim x 2 ;;
    s3 <-? dim x 3 ;;
    s4 <-? dim x 4 ;;
    x_reshape <-? reshape x [s0 * s1; s2; s3; s4] ;;
    y <-? module x_reshape ;;
    y1 <-? dim y 1 ;;
    y2 <-? dim y 2 ;;
    y3 <-? dim y 3 ;;
    reshape y [s0; s1; y1; y2; y3].

(** [TimeDistributedFlatten.forward] *)
Definition TimeDistributedFlatten_forward (x : tensor) : option tensor :=
  s0 <-? dim x 0 ;;
  s1 <-? dim x 1 ;;
  s2 <-? dim x 2 ;;
  s3 <-? dim x 3 ;;
  s4 <-? dim x 4 ;;
  x_reshape <-? reshape x [s0 * s1; s2; s3; s4] ;;
  y <-? flatten_1_3 x_reshape ;;
  y1 <-? dim y 1 ;;
  reshape y [s0; s1; y1].

(** One module after another. *)
Definition sequence (m1 m2 : tensor -> option tensor) (x : tensor) : option tensor :=
  y <-? m1 x ;; m2 y.

(** A module that keeps the batch axis and answers in four dimensions, as
    a two-dimensional convolution does. *)
Definition keeps_batch (m : tensor -> option tensor) : Prop :=
  forall x y, m x = Some y ->
    exists c h w, shape y = [hd 0 (shape x); c; h; w].

End Tensors.

Arguments shape {A} t.
Arguments data {A} t.

End Layers.

(** ** deep_insight/networks.py: the names a decoder calls, in closed form *)

Module DecoderOrder.

Import Networks.
Local Open Scope string_scope.
Local Open Scope list_scope.

Local Infix "+++" := String.append (at level 60, right associativity).

(** The names round [nct] of the first loop appends to [conv_order]. *)
Definition conv_pair_names (nct : nat) : list string :=
  let tsr := "conv_tsr_" +++ fmt_nat nct in
  let fr := "conv_fr_" +++ fmt_nat nct in
  [tsr; tsr +++ "_activation"; fr; fr +++ "_activation"].

(** The names round [layer_counter] of the loop [while H > 2] appends. *)
Definition after_tsr_names (layer_counter : nat) : list string :=
  let name := "conv_after_tsr_" +++ fmt_nat layer_counter in
  [name; name +++ "_activation"].

(** How many rounds the loop [while H > 2: ... H = round(H/2)] makes,
    counted with [fuel] rounds at most. *)
Fixpoint halving_rounds (fuel : nat) (H : Z) : nat :=
  match fuel with
  | O => 0
  | S fuel' => if (2 <? H)%Z then S (halving_rounds fuel' (round_half H)) else 0
  end.

(** The [fc_order] of the head of [key]. *)
Definition head_names (tg : Config) (key : string) : list string :=
  flat_map (fun d =>
              let name := "target_" +++ key +++ "_fc_" +++ fmt_nat d in
              [name; name +++ "_activation"; name +++ "_dropout"])
           (seq 0 (Z.to_nat (num_dense tg)))
  ++ ["target_" +++ key +++ "_fc_" +++ fmt_int (num_dense tg)].

(** [H] as the constructor has it when it sizes the heads, for
    [timesteps = input_shape[1]] and [H0 = input_shape[0]]: what the
    halving loop left of [H0], overridden by the four tests on the number
    of time steps. *)
Definition flat_rows (timesteps H0 : Z) : Z :=
  let H := if (2 <? H0)%Z then 2%Z else H0 in
  let H := if (timesteps <? 64)%Z then 1%Z else H in
  let H := if (timesteps =? 64)%Z then 2%Z else H in
  let H := if (timesteps =? 512)%Z then 3%Z else H in
  let H := if (timesteps =? 1024)%Z then 5%Z else H in
  H.

(** A dense layer takes [256 * H] features, or the output of a dense
    layer before it. *)
Definition dense_width_ok (tg : Config) (H : Z) (l : layer) : Prop :=
  match l with
  | Linear in_features _ _ _ =>
      in_features = (256 * H)%Z \/ in_features = num_units_dense tg
  | _ => True
  end.

(** The attributes the constructor sets under a name of its own. *)
Definition fixed_submodules : list (string * layer) :=
  [("gaussian_noise", GaussianNoise); ("dropout", Dropout 0); ("sim", CosineSimilarity);
   ("permute", Lambda); ("flatten", TimeDistributedFlatten)].

End DecoderOrder.

(** ** More examples *)

Module MoreExamples.

Import Numpy WaveletData DatasetExamples.
Local Open Scope string_scope.
Local Open Scope list_scope.

(** The two views on the walk [step_up] when training is kept to the
    bottom: the windows of the training indices end at height 0, the
    window of the testing index at height 0.5. *)
Definition bottom_view : WaveletDataset :=
  set_input_shape
    (set_prev_ind (view (options ["position"]) step_up (Some "bottom") true) 1)
    [2; 2; 1; 1]%nat.

Definition top_view : WaveletDataset :=
  set_input_shape
    (set_prev_ind (view (options ["position"]) step_up (Some "top") false) 4)
    [2; 2; 1; 1]%nat.

(** A [WaveletDatasetFrey] over the walk along +x that keeps every second
    row of a window. *)
Definition every_second : Frey.WaveletDatasetFrey :=
  {| Frey.base := view (options ["position"]) walk_x None true;
     Frey.average_output := 2 |}.

(** The options of the small decoder, without dense layers. *)
Definition config_without_dense : Networks.Config :=
  {| Networks.input_shape := [5; 64; 26; 1]%Z;
     Networks.loss_functions := ["position"; "direction"];
     Networks.outputs := [[100; 2]; [100; 1]]%Z;
     Networks.num_convs_tsr := 1;
     Networks.filter_size := 64;
     Networks.kernel_size := 3;
     Networks.act_conv := "ELU";
     Networks.act_fc := "ELU";
     Networks.num_dense := 0;
     Networks.num_units_dense := 1024;
     Networks.dropout_ratio := 0 |}.

Definition decoder_without_dense : Networks.Standard_Decoder :=
  Eval vm_compute in
    match Networks.Standard_Decoder_init DecoderExamples.log2_table config_without_dense with
    | Ret self => self
    | _ => {| Networks.self_input_shape := []; Networks.target_names := [];
              Networks.conv_order := []; Networks.fc_orders := []; Networks.attrs := [] |}
    end.

(** A tensor of five dimensions, and a module that hands a tensor of four
    dimensions on and refuses any other. *)
Definition five_dims : Layers.tensor nat :=
  {| Layers.shape := [1; 2; 1; 2; 2]%nat; Layers.data := [1; 2; 3; 4; 5; 6; 7; 8]%nat |}.

Definition only_four_dims (x : Layers.tensor nat) : option (Layers.tensor nat) :=
  match Layers.shape x with
  | [_; _; _; _] => Some x
  | _ => None
  end.

End MoreExamples.

(** * Facts *)

(** ** The result monad *)

Lemma bind_Ret_inv {A B} (m : result A) (k : A -> result B) (b : B) :
  bind m k = Ret b -> exists a, m = Ret a /\ k a = Ret b.
Proof. destruct m; simpl; intros H; try discriminate. eauto. Qed.

Lemma bind_Diverge_inv {A B} (m : result A) (k : A -> result B) :
  bind m k = Diverge -> m = Diverge \/ exists a, m = Ret a /\ k a = Diverge.
Proof. destruct m; simpl; intros H; try discriminate; eauto. Qed.

Lemma of_option_not_diverge {A} (e : pyerr) (o : option A) : of_option e o <> Diverge.
Proof. destruct o; discriminate. Qed.

Lemma mapM_not_diverge {A B} (f : A -> result B) (l : list A) :
  (forall a, f a <> Diverge) -> mapM f l <> Diverge.
Proof.
  intros Hf. induction l as [|a l IH]; simpl; [discriminate|].
  intros H. apply bind_Diverge_inv in H as [H | (b & _ & H)]; [now apply (Hf a)|].
  apply bind_Diverge_inv in H as [H | (bs & _ & H)]; [contradiction|discriminate].
Qed.

Lemma mapM_length {A B} (f : A -> result B) (l : list A) (bs : list B) :
  mapM f l = Ret bs -> length bs = length l.
Proof.
  revert bs; induction l as [|a l IH]; simpl; intros bs H.
  - now inversion H.
  - apply bind_Ret_inv in H as (b & _ & H).
    apply bind_Ret_inv in H as (bs' & Hbs & H).
    inversion H; subst; simpl. now rewrite (IH bs').
Qed.

Lemma mapM_nth {A B} (f : A -> result B) (l : list A) (bs : list B) :
  mapM f l = Ret bs ->
  forall n a, nth_error l n = Some a ->
  exists b, nth_error bs n = Some b /\ f a = Ret b.
Proof.
  revert bs; induction l as [|x l IH]; simpl; intros bs H n a Hn.
  - destruct n; discriminate.
  - apply bind_Ret_inv in H as (b & Hb & H).
    apply bind_Ret_inv in H as (bs' & Hbs & H).
    inversion H; subst. destruct n as [|n]; simpl in *.
    + inversion Hn; subst. eauto.
    + eauto.
Qed.

Lemma mapM_returns {A B} (f : A -> result B) (l : list A) :
  (forall a, In a l -> returns (f a)) -> returns (mapM f l).
Proof.
  induction l as [|x l IH]; simpl; intros H.
  - now exists [].
  - destruct (H x (or_introl eq_refl)) as (b & ->).
    destruct IH as (bs & ->); [intros; apply H; now right|].
    simpl. now exists (b :: bs).
Qed.

(** ** numpy indexing *)

Section NumpyFacts.

Import Numpy.

Lemma normalize_index_lt len i k : normalize_index len i = Some k -> k < len.
Proof.
  unfold normalize_index.
  destruct ((0 <=? i) && (i <? Z.of_nat len))%Z eqn:E1.
  - intros [= <-]. apply andb_true_iff in E1 as [? ?]. lia.
  - destruct ((- Z.of_nat len <=? i) && (i <? 0))%Z eqn:E2; [|discriminate].
    intros [= <-]. apply andb_true_iff in E2 as [? ?]. lia.
Qed.

Lemma item_in_range {A} (a : list A) (i : Z) :
  (0 <= i < Z.of_nat (length a))%Z ->
  item a i = of_option IndexError (nth_error a (Z.to_nat i)).
Proof.
  intros H. unfold item, normalize_index.
  replace ((0 <=? i) && (i <? Z.of_nat (length a)))%Z with true; [easy|].
  symmetry. apply andb_true_iff. split; lia.
Qed.

Lemma item_returns {A} (a : list A) (i : Z) :
  (- Z.of_nat (length a) <= i < Z.of_nat (length a))%Z -> returns (item a i).
Proof.
  intros H. unfold item.
  destruct (normalize_index (length a) i) as [k|] eqn:E.
  - apply normalize_index_lt in E.
    destruct (nth_error a k) eqn:Ek; [now eexists|].
    apply nth_error_None in Ek. lia.
  - exfalso. unfold normalize_index in E.
    destruct ((0 <=? i) && (i <? Z.of_nat (length a)))%Z eqn:E1; [discriminate|].
    destruct ((- Z.of_nat (length a) <=? i) && (i <? 0))%Z eqn:E2; [discriminate|].
    apply andb_false_iff in E1, E2. lia.
Qed.

Lemma item_not_diverge {A} (a : list A) (i : Z) : item a i <> Diverge.
Proof.
  unfold item. destruct (normalize_index (length a) i); [|discriminate].
  apply of_option_not_diverge.
Qed.

Lemma take_not_diverge {A} (a : list A) (idx : list Z) : take a idx <> Diverge.
Proof. apply mapM_not_diverge. intros i. apply item_not_diverge. Qed.

Lemma arange_length lo hi : length (arange lo hi) = Z.to_nat (hi - lo).
Proof. unfold arange. now rewrite length_map, length_seq. Qed.

Lemma arange_nth lo hi k :
  k < Z.to_nat (hi - lo) -> nth_error (arange lo hi) k = Some (lo + Z.of_nat k)%Z.
Proof.
  intros H. unfold arange. rewrite nth_error_map, nth_error_seq.
  destruct (Nat.ltb_spec k (Z.to_nat (hi - lo))); [easy|lia].
Qed.

Lemma tabulate_nth {A} n (g : nat -> A) k d : k < n -> nth k (tabulate n g) d = g k.
Proof.
  intros H. unfold tabulate.
  rewrite (nth_indep _ d (g 0)) by now rewrite length_map, length_seq.
  rewrite (map_nth g), seq_nth; auto.
Qed.

Lemma nth_map_nth_error {A B} (f : A -> B) (l : list A) (t : nat) (x : A) (d : B) :
  nth_error l t = Some x -> nth t (map f l) d = f x.
Proof.
  revert t. induction l as [|a l IH]; intros [|t] H; simpl in *; try discriminate.
  - congruence.
  - auto.
Qed.

End NumpyFacts.

(** ** Division by zero in binary64 *)

Section FloatFacts.

Import F64.
Local Open Scope float_scope.

Lemma Prim2SF_is_zero z : is_zero z = true -> exists s, Prim2SF z = S754_zero s.
Proof.
  unfold is_zero. rewrite eqb_spec.
  change (Prim2SF zero) with (S754_zero false).
  destruct (Prim2SF z) as [s| s | |s m e]; simpl; try discriminate; eauto.
  - destruct s; discriminate.
  - destruct s; discriminate.
Qed.

(** Whatever the numerator, a quotient by zero is an infinity or a NaN. *)
Lemma div_zero_not_finite a z : is_zero z = true -> not_finite (a / z) = true.
Proof.
  intros Hz. destruct (Prim2SF_is_zero z Hz) as (s & Hs).
  assert (H : Prim2SF (a / z) = S754_nan \/ exists s', Prim2SF (a / z) = S754_infinity s').
  { rewrite div_spec, Hs. unfold SF64div, SFdiv.
    destruct (Prim2SF a); eauto. }
  unfold not_finite, is_nan, is_infinity.
  rewrite !eqb_spec, abs_spec.
  change (Prim2SF infinity) with (S754_infinity false).
  destruct H as [-> | (s' & ->)]; [reflexivity|].
  destruct s'; reflexivity.
Qed.

Lemma not_finite_is_finite x : not_finite x = true -> is_finite x = false.
Proof. unfold is_finite, not_finite. now intros ->. Qed.

End FloatFacts.

(** * The windowed dataset *)



Tactic Notation "inv_bind" hyp(H) "as" simple_intropattern(a) ident(Ha) :=
  apply bind_Ret_inv in H as (a & Ha & H).

Section DatasetFacts.

Import Numpy WaveletData.
Local Open Scope string_scope.
Local Open Scope list_scope.

Variable atan2 : float -> float -> float.

Lemma item_In {A} (a : list A) (i : Z) (x : A) : item a i = Ret x -> In x a.
Proof.
  unfold item. destruct (normalize_index (length a) i) as [k|]; [|discriminate].
  destruct (nth_error a k) eqn:E; simpl; [|discriminate].
  intros [= <-]. eapply nth_error_In; eauto.
Qed.

Lemma choice_In (a : list Z) (g g' : Rng) (x : Z) : choice a g = Ret (x, g') -> In x a.
Proof.
  unfold choice. destruct a as [|y a]; [discriminate|].
  remember (y :: a) as l eqn:El. intros H. inversion H; subst x g'.
  apply nth_In. apply Nat.mod_upper_bound. subst l. discriminate.
Qed.

Lemma normalize_index_last (n k : nat) :
  normalize_index n (-1) = Some k -> k = n - 1 /\ 0 < n.
Proof.
  unfold normalize_index.
  destruct (Z.leb_spec 0 (-1)); [lia|]. cbn [andb].
  destruct (Z.leb_spec (- Z.of_nat n) (-1)); cbn [andb]; [|discriminate].
  destruct (Z.ltb_spec (-1) 0); [|lia].
  intros H'. assert (Hk : Z.to_nat (-1 + Z.of_nat n) = k) by congruence.
  lia.
Qed.

(** The last row of [out[np.arange(lo, hi)]] is [out[hi - 1]]. *)
Lemma take_last {A} (out : list A) (lo hi : Z) (cd : list A) (x : A) :
  take out (arange lo hi) = Ret cd -> last_item cd = Ret x -> item out (hi - 1) = Ret x.
Proof.
  intros Ht Hl.
  pose proof (mapM_length _ _ _ Ht) as Hlen. rewrite arange_length in Hlen.
  unfold last_item, item in Hl.
  destruct (normalize_index (length cd) (-1)) as [k|] eqn:Ek; [|discriminate].
  apply normalize_index_last in Ek as [-> Hpos].
  destruct (nth_error cd (length cd - 1)) eqn:Hn; simpl in Hl; [|discriminate].
  inversion Hl; subst a.
  assert (Ha : nth_error (arange lo hi) (length cd - 1) = Some (hi - 1)%Z).
  { rewrite arange_nth by lia. f_equal. lia. }
  destruct (mapM_nth _ _ _ Ht _ _ Ha) as (b & Hb & Hitem).
  rewrite Hn in Hb. now inversion Hb; subst.
Qed.

(** The windows the index lookup resolves start at one of the view's
    indices. *)
Lemma resolve_window_inv self og g idx cut past g' :
  sample_size self = model_timesteps (opts self) ->
  resolve_window self og g = Ret (idx, cut, past, g') ->
  exists start,
    In start (cv_indices self) /\
    cut = arange start (start + sample_size self) /\
    past = arange (start - 1) (start + sample_size self - 1).
Proof.
  intros Hss H. unfold resolve_window in H.
  inv_bind H as [i g1] Hi.
  assert (Hin : In i (cv_indices self)).
  { destruct (shuffle (opts self)).
    - eapply choice_In; eauto.
    - inv_bind Hi as i' Hi'. inversion Hi; subst. eapply item_In; eauto. }
  destruct (random_batches (opts self)).
  - inv_bind H as [start g2] Hst. inversion H; subst; clear H.
    rewrite <- Hss. exists start. repeat split; auto. eapply choice_In; eauto.
  - inversion H; subst; clear H. exists idx. auto.
Qed.

(** What a call of [__getitem__] that returns has done: it resolved a
    window, derived its labels, had them accepted, and cut the input from
    the same window. *)
Lemma getitem_returns_inv fuel self og : forall g inp labels self' g',
  getitem atan2 fuel self og g = Ret (inp, labels, self', g') ->
  exists g0 idx cut past,
    resolve_window self og g0 = Ret (idx, cut, past, g') /\
    get_output_sample atan2 self cut past = Ret labels /\
    _accept_output labels (train_half self) = Ret true /\
    get_input_sample self cut = Ret inp /\
    self' = set_prev_ind self idx.
Proof.
  induction fuel as [|fuel IH]; intros g inp labels self' g' H; [discriminate|].
  simpl in H.
  inv_bind H as [[[idx cut] past] g1] Hwin.
  inv_bind H as out Hout.
  inv_bind H as ok Hok.
  destruct ok; simpl in H; [|eauto].
  inv_bind H as inp0 Hinp. inversion H; subst; clear H.
  exists g, idx, cut, past. auto.
Qed.

Lemma getitem_inv fuel self og g inp labels self' g' :
  sample_size self = model_timesteps (opts self) ->
  getitem atan2 fuel self og g = Ret (inp, labels, self', g') ->
  exists start,
    In start (cv_indices self) /\
    get_output_sample atan2 self
      (arange start (start + sample_size self))
      (arange (start - 1) (start + sample_size self - 1)) = Ret labels /\
    _accept_output labels (train_half self) = Ret true /\
    get_input_sample self (arange start (start + sample_size self)) = Ret inp.
Proof.
  intros Hss H.
  apply getitem_returns_inv in H as (g0 & idx & cut & past & Hw & Ho & Ha & Hi & _).
  apply resolve_window_inv in Hw as (start & Hin & -> & ->); eauto.
Qed.

(** *** The label loop *)

Lemma output_loop_app keys cut prev outs : forall i env acc labels,
  output_loop atan2 keys cut prev i outs env acc = Ret labels ->
  exists labs, labels = acc ++ labs /\ length labs = length outs.
Proof.
  induction outs as [|out outs IH]; simpl; intros i env acc labels H.
  - inversion H; subst. exists []. now rewrite app_nil_r.
  - inv_bind H as var Hvar. inv_bind H as [env' lab] Hd.
    apply IH in H as (labs & -> & Hlen).
    exists (lab :: labs). rewrite <- app_assoc. simpl. auto.
Qed.

Lemma derive_label_env cut prev var out env env' lab :
  derive_label atan2 cut prev var out env = Ret (env', lab) ->
  var <> "position" -> env' = env.
Proof.
  unfold derive_label. intros H Hvar.
  inv_bind H as cd Hcd. inv_bind H as pcd Hpcd.
  destruct (String.eqb_spec var "position"); [contradiction|].
  destruct (var =? "head_direction").
  { inv_bind H as d Hd. now inversion H. }
  destruct (var =? "direction").
  { inv_bind H as d Hd. now inversion H. }
  destruct (var =? "speed"); [|discriminate].
  inv_bind H as cm Hcm. inv_bind H as pm Hpm. inv_bind H as spd Hspd.
  now inversion H.
Qed.

Lemma derive_label_position lo hi lo' hi' out env env' lab :
  derive_label atan2 (arange lo hi) (arange lo' hi') "position" out env = Ret (env', lab) ->
  exists cm pm,
    item out (hi - 1) = Ret cm /\ item out (hi' - 1) = Ret pm /\
    env' = {| cut_data_m := Some cm; pcdm := Some pm |} /\ lab = Vec cm.
Proof.
  unfold derive_label. intros H.
  inv_bind H as cd Hcd. inv_bind H as pcd Hpcd.
  rewrite String.eqb_refl in H.
  inv_bind H as pm Hpm. inv_bind H as cm Hcm. inversion H; subst.
  exists cm, pm. repeat split; eauto using take_last.
Qed.

(** Past the position entry the two locals no longer change: every later
    label is derived from them. *)
Lemma output_loop_after_position keys cut prev outs : forall i env acc labels,
  length acc = i ->
  (forall n, i <= n -> nth_error keys n <> Some "position") ->
  output_loop atan2 keys cut prev i outs env acc = Ret labels ->
  forall j var, i <= j < i + length outs -> nth_error keys j = Some var ->
  exists out lab,
    nth_error outs (j - i) = Some out /\
    derive_label atan2 cut prev var out env = Ret (env, lab) /\
    nth_error labels j = Some lab.
Proof.
  induction outs as [|out outs IH]; simpl; intros i env acc labels Hacc Hno H j var Hj Hvar.
  - lia.
  - inv_bind H as v Hv. inv_bind H as [env' lab] Hd.
    destruct (nth_error keys i) as [v'|] eqn:Hk; simpl in Hv; inversion Hv; subst v'.
    assert (Hnp : v <> "position").
    { intros ->. now apply (Hno i (le_n _)). }
    pose proof (derive_label_env _ _ _ _ _ _ _ Hd Hnp) as ->.
    destruct (Nat.eq_dec j i) as [->|Hne].
    + rewrite Hk in Hvar. inversion Hvar; subst var.
      rewrite Nat.sub_diag. exists out, lab. repeat split; auto.
      apply output_loop_app in H as (labs & -> & _).
      rewrite nth_error_app1 by (rewrite length_app; simpl; lia).
      rewrite nth_error_app2 by lia. now rewrite Hacc, Nat.sub_diag.
    + destruct (IH (S i) env (acc ++ [lab]) labels) with (j := j) (var := var)
        as (out' & lab' & Hout' & Hd' & Hlab'); auto.
      * rewrite length_app. simpl. lia.
      * intros n Hn. apply Hno. lia.
      * lia.
      * exists out', lab'. repeat split; auto.
        replace (j - i) with (S (j - S i)) by lia. exact Hout'.
Qed.

(** The position entry binds the two locals to the position channel's rows
    at the ends of the current and of the previous window. *)
Lemma output_loop_through_position keys lo hi lo' hi' k p outs :
  forall i env acc labels,
  length acc = i ->
  NoDup keys ->
  nth_error keys k = Some "position" ->
  i <= k ->
  nth_error outs (k - i) = Some p ->
  output_loop atan2 keys (arange lo hi) (arange lo' hi') i outs env acc = Ret labels ->
  exists cm pm,
    item p (hi - 1) = Ret cm /\ item p (hi' - 1) = Ret pm /\
    nth_error labels k = Some (Vec cm) /\
    forall j var, k < j < i + length outs -> nth_error keys j = Some var ->
    exists out lab,
      nth_error outs (j - i) = Some out /\
      derive_label atan2 (arange lo hi) (arange lo' hi') var out
        {| cut_data_m := Some cm; pcdm := Some pm |}
      = Ret ({| cut_data_m := Some cm; pcdm := Some pm |}, lab) /\
      nth_error labels j = Some lab.
Proof.
  induction outs as [|out outs IH]; simpl; intros i env acc labels Hacc Hnd Hk Hik Hp H.
  - destruct (k - i); discriminate.
  - inv_bind H as v Hv. inv_bind H as [env' lab] Hd.
    destruct (nth_error keys i) as [v'|] eqn:Hki; simpl in Hv; inversion Hv; subst v'.
    destruct (Nat.eq_dec i k) as [->|Hne].
    + rewrite Hk in Hki. inversion Hki; subst v.
      rewrite Nat.sub_diag in Hp. simpl in Hp. inversion Hp; subst out.
      apply derive_label_position in Hd as (cm & pm & Hcm & Hpm & -> & ->).
      exists cm, pm. repeat split; auto.
      * apply output_loop_app in H as (labs & -> & _).
        rewrite nth_error_app1 by (rewrite length_app; simpl; lia).
        rewrite nth_error_app2 by lia. now rewrite Hacc, Nat.sub_diag.
      * intros j var Hj Hvar.
        destruct (output_loop_after_position keys (arange lo hi) (arange lo' hi') outs (S k)
                    {| cut_data_m := Some cm; pcdm := Some pm |} (acc ++ [Vec cm]) labels)
          with (j := j) (var := var) as (out' & lab' & Hout' & Hd' & Hlab'); auto.
        -- rewrite length_app. simpl. lia.
        -- intros n Hn Hc. rewrite <- Hk in Hc.
           apply (proj1 (NoDup_nth_error keys) Hnd) in Hc; [lia|].
           apply nth_error_Some. rewrite Hc, Hk. discriminate.
        -- lia.
        -- exists out', lab'. repeat split; auto.
           replace (j - k) with (S (j - S k)) by lia. exact Hout'.
    + assert (Hnp : v <> "position").
      { intros ->. rewrite <- Hk in Hki.
        apply (proj1 (NoDup_nth_error keys) Hnd) in Hki; [lia|].
        apply nth_error_Some. rewrite Hki, Hk. discriminate. }
      pose proof (derive_label_env _ _ _ _ _ _ _ Hd Hnp) as ->.
      replace (k - i) with (S (k - S i)) in Hp by lia. simpl in Hp.
      destruct (IH (S i) env (acc ++ [lab]) labels) as (cm & pm & Hcm & Hpm & Hlk & Hrest); auto.
      * rewrite length_app. simpl. lia.
      * lia.
      * exists cm, pm. repeat split; auto.
        intros j var Hj Hvar.
        destruct (Hrest j var) as (out' & lab' & Hout' & Hd' & Hlab'); auto; [lia|].
        exists out', lab'. repeat split; auto.
        replace (j - i) with (S (j - S i)) by lia. exact Hout'.
Qed.

Lemma get_output_sample_after_position self lo hi lo' hi' labels k p :
  NoDup (loss_functions (opts self)) ->
  nth_error (loss_functions (opts self)) k = Some "position" ->
  nth_error (outputs self) k = Some p ->
  get_output_sample atan2 self (arange lo hi) (arange lo' hi') = Ret labels ->
  exists cm pm,
    item p (hi - 1) = Ret cm /\ item p (hi' - 1) = Ret pm /\
    nth_error labels k = Some (Vec cm) /\
    forall j var, k < j < length (outputs self) ->
    nth_error (loss_functions (opts self)) j = Some var ->
    exists out lab,
      derive_label atan2 (arange lo hi) (arange lo' hi') var out
        {| cut_data_m := Some cm; pcdm := Some pm |}
      = Ret ({| cut_data_m := Some cm; pcdm := Some pm |}, lab) /\
      nth_error labels j = Some lab.
Proof.
  intros Hnd Hk Hp H. unfold get_output_sample in H.
  destruct (output_loop_through_position (loss_functions (opts self)) lo hi lo' hi' k p
              (outputs self) 0 {| cut_data_m := None; pcdm := None |} [] labels)
    as (cm & pm & Hcm & Hpm & Hlk & Hrest); auto.
  - lia.
  - now rewrite Nat.sub_0_r.
  - exists cm, pm. repeat split; auto.
    intros j var Hj Hvar.
    destruct (Hrest j var) as (out & lab & _ & Hd & Hlab); auto. eauto.
Qed.

Lemma derive_label_heading cut prev var out cm pm env' lab :
  var = "direction" \/ var = "head_direction" ->
  derive_label atan2 cut prev var out {| cut_data_m := Some cm; pcdm := Some pm |}
  = Ret (env', lab) ->
  exists x1 y1 x0 y0,
    item cm 0 = Ret x1 /\ item cm 1 = Ret y1 /\
    item pm 0 = Ret x0 /\ item pm 1 = Ret y0 /\
    lab = Scalar (atan2 (y1 - y0) (x1 - x0))%float.
Proof.
  unfold derive_label. intros Hvar H.
  inv_bind H as cd Hcd. inv_bind H as pcd Hpcd.
  assert (Hh : exists d, heading atan2 {| cut_data_m := Some cm; pcdm := Some pm |} = Ret d
                         /\ lab = Scalar d).
  { destruct Hvar as [-> | ->]; cbn in H; inv_bind H as d Hd; inversion H; eauto. }
  destruct Hh as (d & Hd & ->). unfold heading in Hd. cbn in Hd.
  inv_bind Hd as y1 Hy1. inv_bind Hd as y0 Hy0.
  inv_bind Hd as x1 Hx1. inv_bind Hd as x0 Hx0. inversion Hd; subst.
  exists x1, y1, x0, y0. auto.
Qed.

Lemma derive_label_speed cut prev out cm pm env' lab :
  derive_label atan2 cut prev "speed" out {| cut_data_m := Some cm; pcdm := Some pm |}
  = Ret (env', lab) ->
  exists spd, getspeed cm pm = Ret spd /\ lab = Scalar spd.
Proof.
  unfold derive_label. intros H.
  inv_bind H as cd Hcd. inv_bind H as pcd Hpcd. cbn in H.
  inv_bind H as spd Hspd. inversion H; eauto.
Qed.



(** *** Without an earlier position entry *)

Ltac split_diverge H :=
  repeat (apply bind_Diverge_inv in H as [H | (? & ? & H)];
          [ first [ now apply item_not_diverge in H
                  | now apply take_not_diverge in H
                  | now apply of_option_not_diverge in H
                  | idtac ] | ]).

Lemma heading_not_diverge env : heading atan2 env <> Diverge.
Proof.
  unfold heading, read_local. intros H. split_diverge H; discriminate.
Qed.

Lemma getspeed_not_diverge cm pm : getspeed cm pm <> Diverge.
Proof. unfold getspeed. intros H. split_diverge H; discriminate. Qed.

Lemma derive_label_not_diverge cut prev var out env :
  derive_label atan2 cut prev var out env <> Diverge.
Proof.
  unfold derive_label, last_item, read_local. intros H.
  apply bind_Diverge_inv in H as [H | (cd & _ & H)]; [now apply take_not_diverge in H|].
  apply bind_Diverge_inv in H as [H | (pcd & _ & H)]; [now apply take_not_diverge in H|].
  destruct (var =? "position"); [split_diverge H; discriminate|].
  destruct (var =? "head_direction").
  { apply bind_Diverge_inv in H as [H | (? & _ & H)]; [now apply heading_not_diverge in H|discriminate]. }
  destruct (var =? "direction").
  { apply bind_Diverge_inv in H as [H | (? & _ & H)]; [now apply heading_not_diverge in H|discriminate]. }
  destruct (var =? "speed"); [|discriminate].
  apply bind_Diverge_inv in H as [H | (? & _ & H)]; [now apply of_option_not_diverge in H|].
  apply bind_Diverge_inv in H as [H | (? & _ & H)]; [now apply of_option_not_diverge in H|].
  apply bind_Diverge_inv in H as [H | (? & _ & H)]; [now apply getspeed_not_diverge in H|discriminate].
Qed.

(** With the two locals unassigned, the branches of direction,
    head_direction and speed index the channel and then stop at the first
    read of [cut_data_m]. *)
Lemma derive_label_unassigned cut prev var out :
  needs_position var ->
  derive_label atan2 cut prev var out {| cut_data_m := None; pcdm := None |}
  = (cut_data <- take out cut ;; pcd <- take out prev ;; Raise UnboundLocalError).
Proof.
  intros [-> | [-> | ->]]; unfold derive_label; cbn;
    destruct (take out cut); simpl; auto; destruct (take out prev); reflexivity.
Qed.

Lemma derive_label_unassigned_fails cut prev var out r :
  needs_position var ->
  derive_label atan2 cut prev var out {| cut_data_m := None; pcdm := None |} <> Ret r.
Proof.
  intros Hv. rewrite derive_label_unassigned by auto.
  destruct (take out cut); simpl; try discriminate.
  destruct (take out prev); discriminate.
Qed.

Lemma output_loop_unassigned keys cut prev j var outs : forall i acc,
  nth_error keys j = Some var ->
  needs_position var ->
  i <= j < i + length outs ->
  (forall n, i <= n < j -> nth_error keys n <> Some "position") ->
  raises (output_loop atan2 keys cut prev i outs {| cut_data_m := None; pcdm := None |} acc).
Proof.
  induction outs as [|out outs IH]; simpl; intros i acc Hj Hv Hi Hno; [lia|].
  destruct (nth_error keys i) as [v|] eqn:Hk; simpl; [|now exists IndexError].
  destruct (derive_label atan2 cut prev v out {| cut_data_m := None; pcdm := None |})
    as [[env' lab] | e |] eqn:Hd; simpl.
  - destruct (Nat.eq_dec i j) as [->|Hne].
    + rewrite Hj in Hk. inversion Hk; subst v.
      now apply derive_label_unassigned_fails in Hd.
    + assert (Hnp : v <> "position").
      { intros ->. apply (Hno i); [lia|assumption]. }
      pose proof (derive_label_env _ _ _ _ _ _ _ Hd Hnp) as ->.
      apply IH; auto; [lia|]. intros n Hn. apply Hno. lia.
  - now exists e.
  - now apply derive_label_not_diverge in Hd.
Qed.


(** *** With position listed first the labels are derived *)

Lemma take_In {A} (a : list A) (idx : list Z) (l : list A) :
  take a idx = Ret l -> forall x, In x l -> In x a.
Proof.
  unfold take. revert l. induction idx as [|i idx IH]; simpl; intros l H x Hx.
  - inversion H; subst. contradiction.
  - inv_bind H as y Hy. inv_bind H as ys Hys. inversion H; subst.
    destruct Hx as [<- | Hx]; [eapply item_In; eauto | eauto].
Qed.

Lemma last_item_returns {A} (l : list A) : l <> [] -> returns (last_item l).
Proof.
  intros Hne. apply item_returns. destruct l; [congruence|]. simpl length. lia.
Qed.

Lemma item_pair_returns (v : vector) (k : Z) :
  2 <= length v -> (k = 0 \/ k = 1)%Z -> returns (item v k).
Proof. intros Hl Hk. apply item_returns. lia. Qed.

Lemma derive_label_returns cut prev var out cm pm :
  needs_position var ->
  returns (take out cut) -> returns (take out prev) ->
  2 <= length cm -> 2 <= length pm ->
  exists lab,
    derive_label atan2 cut prev var out {| cut_data_m := Some cm; pcdm := Some pm |}
    = Ret ({| cut_data_m := Some cm; pcdm := Some pm |}, lab).
Proof.
  intros Hv (cd & Hcd) (pcd & Hpcd) Hcm Hpm.
  destruct (item_pair_returns cm 0 Hcm) as (x1 & Hx1); auto.
  destruct (item_pair_returns cm 1 Hcm) as (y1 & Hy1); auto.
  destruct (item_pair_returns pm 0 Hpm) as (x0 & Hx0); auto.
  destruct (item_pair_returns pm 1 Hpm) as (y0 & Hy0); auto.
  unfold derive_label. rewrite Hcd, Hpcd. cbn [bind].
  destruct Hv as [-> | [-> | ->]]; cbn; unfold heading, getspeed; cbn;
    rewrite ?Hx1, ?Hy1, ?Hx0, ?Hy0; cbn; rewrite ?Hx1, ?Hy1, ?Hx0, ?Hy0; cbn;
    rewrite ?Hx1, ?Hy1, ?Hx0, ?Hy0; cbn; rewrite ?Hx1, ?Hy1, ?Hx0, ?Hy0; cbn;
    eexists; reflexivity.
Qed.

Lemma output_loop_returns keys cut prev cm pm outs : forall i acc,
  2 <= length cm -> 2 <= length pm ->
  (forall k, k < length outs ->
     exists v, nth_error keys (i + k) = Some v /\ needs_position v) ->
  Forall (fun out => returns (take out cut) /\ returns (take out prev)) outs ->
  returns (output_loop atan2 keys cut prev i outs
             {| cut_data_m := Some cm; pcdm := Some pm |} acc).
Proof.
  induction outs as [|out outs IH]; intros i acc Hcm Hpm Hk Ho; cbn [output_loop].
  - now eexists.
  - inversion Ho as [|? ? [Hc Hp] Hrest]; subst.
    destruct (Hk 0) as (v & Hv & Hnv); [simpl; lia|].
    rewrite Nat.add_0_r in Hv. rewrite Hv. cbn [of_option bind].
    destruct (derive_label_returns cut prev v out cm pm Hnv Hc Hp Hcm Hpm) as (lab & ->).
    cbn [bind]. apply IH; auto.
    intros k Hlt. destruct (Hk (S k)) as (v' & Hv' & Hnv'); [simpl; lia|].
    exists v'. split; auto. now replace (S i + k) with (i + S k) by lia.
Qed.

(** X2.  [get_output_sample] returns when [position] is listed first, the
    other names are direction, head_direction or speed, every channel
    holds both (non-empty) windows and the position rows have two
    coordinates. *)
Theorem get_output_sample_returns self cut prev rest p outs :
  loss_functions (opts self) = "position" :: rest ->
  outputs self = p :: outs ->
  length outs <= length rest ->
  Forall needs_position rest ->
  cut <> [] -> prev <> [] ->
  Forall (fun out => returns (take out cut) /\ returns (take out prev)) (p :: outs) ->
  Forall (fun row => 2 <= length row) p ->
  returns (get_output_sample atan2 self cut prev).
Proof.
  intros Hkeys Houts Hlen Hrest Hcut Hprev Hwin Hrows.
  unfold get_output_sample. rewrite Hkeys, Houts. cbn [output_loop nth_error of_option bind].
  inversion Hwin as [|? ? [(cd & Hcd) (pcd & Hpcd)] Hwin']; subst.
  unfold derive_label. rewrite Hcd, Hpcd. cbn [bind]. rewrite String.eqb_refl.
  assert (Hpcd_ne : pcd <> []).
  { intros ->. apply mapM_length in Hpcd. destruct prev; [congruence|discriminate]. }
  assert (Hcd_ne : cd <> []).
  { intros ->. apply mapM_length in Hcd. destruct cut; [congruence|discriminate]. }
  destruct (last_item_returns pcd Hpcd_ne) as (pm & Hpm).
  destruct (last_item_returns cd Hcd_ne) as (cm & Hcm).
  rewrite Hpm. cbn [bind]. rewrite Hcm. cbn [bind].
  rewrite Forall_forall in Hrows.
  apply output_loop_returns; auto.
  - apply Hrows. apply (take_In p cut cd Hcd). exact (item_In cd (-1) cm Hcm).
  - apply Hrows. apply (take_In p prev pcd Hpcd). exact (item_In pcd (-1) pm Hpm).
  - intros k Hk. destruct (nth_error rest k) as [v|] eqn:Hv.
    + exists v. split; auto. rewrite Forall_forall in Hrest.
      apply Hrest. eapply nth_error_In; eauto.
    + apply nth_error_None in Hv. exfalso. unfold channel in *. lia.
Qed.

(** *** The region filter and the retry *)

Lemma output_loop_not_diverge keys cut prev outs : forall i env acc,
  output_loop atan2 keys cut prev i outs env acc <> Diverge.
Proof.
  induction outs as [|out outs IH]; simpl; intros i env acc H; [discriminate|].
  apply bind_Diverge_inv in H as [H | (v & _ & H)]; [now apply of_option_not_diverge in H|].
  apply bind_Diverge_inv in H as [H | ([env' lab] & _ & H)];
    [now apply derive_label_not_diverge in H | now apply IH in H].
Qed.

Lemma choice_not_diverge a g : choice a g <> Diverge.
Proof. destruct a; discriminate. Qed.

Lemma resolve_window_not_diverge self og g : resolve_window self og g <> Diverge.
Proof.
  unfold resolve_window. intros H.
  apply bind_Diverge_inv in H as [H | ([i g1] & _ & H)].
  - destruct (shuffle (opts self)); [now apply choice_not_diverge in H|].
    apply bind_Diverge_inv in H as [H | (? & _ & H)];
      [now apply item_not_diverge in H | discriminate].
  - destruct (random_batches (opts self)); [|discriminate].
    apply bind_Diverge_inv in H as [H | ([? ?] & _ & H)];
      [now apply choice_not_diverge in H | discriminate].
Qed.

(** The first label of an output sample is the position row: no other
    target can come first. *)
Lemma first_label_is_position self cut past labels lab :
  get_output_sample atan2 self cut past = Ret labels ->
  nth_error labels 0 = Some lab ->
  nth_error (loss_functions (opts self)) 0 = Some "position" /\
  exists cm, lab = Vec cm.
Proof.
  unfold get_output_sample. intros H Hl.
  destruct (outputs self) as [|out outs]; cbn [output_loop] in H.
  { inversion H; subst. simpl in Hl. discriminate Hl. }
  inv_bind H as v Hv. inv_bind H as [env' lab'] Hd.
  apply output_loop_app in H as (labs & -> & _). simpl in Hl. inversion Hl; subst lab'.
  destruct (nth_error (loss_functions (opts self)) 0) as [v'|]; simpl in Hv; [|discriminate].
  assert (v' = v) by congruence. subst v'. clear Hv.
  destruct (String.eqb_spec v "position") as [->|Hne].
  - split; auto. unfold derive_label in Hd.
    inv_bind Hd as cd Hcd. inv_bind Hd as pcd Hpcd. rewrite String.eqb_refl in Hd.
    inv_bind Hd as pm Hpm. inv_bind Hd as cm Hcm. inversion Hd; subst. eauto.
  - exfalso. unfold derive_label in Hd.
    inv_bind Hd as cd Hcd. inv_bind Hd as pcd Hpcd.
    apply String.eqb_neq in Hne. rewrite Hne in Hd.
    destruct (v =? "head_direction"); [inv_bind Hd as d Hh; discriminate|].
    destruct (v =? "direction"); [inv_bind Hd as d Hh; discriminate|].
    destruct (v =? "speed"); [inv_bind Hd as d Hh; discriminate|discriminate].
Qed.

(** One call is enough when the filter accepts the window the lookup
    resolved. *)
Lemma getitem_accepted fuel self og g idx cut past g1 out inp :
  resolve_window self og g = Ret (idx, cut, past, g1) ->
  get_output_sample atan2 self cut past = Ret out ->
  _accept_output out (train_half self) = Ret true ->
  get_input_sample self cut = Ret inp ->
  getitem atan2 (S fuel) self og g = Ret (inp, out, set_prev_ind self idx, g1).
Proof.
  intros Hw Ho Ha Hi. cbn [getitem]. rewrite Hw. cbn [bind]. rewrite Ho. cbn [bind].
  rewrite Ha. cbn [bind negb]. rewrite Hi. reflexivity.
Qed.

(** C4.  A call of [__getitem__] never returns a sample the region filter
    rejects: the labels it returns passed [_accept_output], whose argument
    [output_sample[0]] is the row of the position target.  When the
    filter rejects the sample of the window the lookup resolved, the call
    is the call of [__getitem__] again with the index first asked for: the
    lookup, random draws included, runs anew on the generator as the
    rejected lookup left it. *)
Theorem getitem_retries_rejected_samples fuel self og g :
  (forall inp labels self' g',
     getitem atan2 fuel self og g = Ret (inp, labels, self', g') ->
     _accept_output labels (train_half self) = Ret true /\
     (forall lab, nth_error labels 0 = Some lab ->
        nth_error (loss_functions (opts self)) 0 = Some "position" /\
        exists pos, lab = Vec pos)) /\
  (forall idx cut past g1 out,
     resolve_window self og g = Ret (idx, cut, past, g1) ->
     get_output_sample atan2 self cut past = Ret out ->
     _accept_output out (train_half self) = Ret false ->
     getitem atan2 (S fuel) self og g = getitem atan2 fuel self og g1).
Proof.
  split.
  - intros inp labels self' g' H.
    apply getitem_returns_inv in H as (g0 & idx & cut & past & _ & Ho & Ha & _ & _).
    split; auto. intros lab Hl. eapply first_label_is_position; eauto.
  - intros idx cut past g1 out Hw Ho Ha.
    cbn [getitem]. rewrite Hw. cbn [bind]. rewrite Ho. cbn [bind]. rewrite Ha. reflexivity.
Qed.

(** *** Region-filter keywords *)

Lemma in_list_eq_False_never x l : in_list_eq_False x l = false.
Proof. unfold in_list_eq_False. apply andb_false_r. Qed.

Lemma accept_output_unrecognised out kw :
  recognised_half kw = false -> _accept_output out (Some kw) = Raise SystemExit.
Proof.
  unfold recognised_half. cbn [existsb]. intros H.
  repeat (apply orb_false_iff in H as [?E H]).
  unfold _accept_output. now rewrite E, E0, E1, E2, E3, E4.
Qed.

Lemma getitem_unrecognised_raises fuel self og g kw :
  train_half self = Some kw -> recognised_half kw = false ->
  raises (getitem atan2 (S fuel) self og g).
Proof.
  intros Hh Hkw. cbn [getitem].
  destruct (resolve_window self og g) as [[[[idx cut] past] g1] | e |] eqn:Hw;
    [| now exists e | now apply resolve_window_not_diverge in Hw].
  cbn [bind].
  destruct (get_output_sample atan2 self cut past) as [out | e |] eqn:Ho;
    [| now exists e | now apply output_loop_not_diverge in Ho].
  cbn [bind]. rewrite Hh, accept_output_unrecognised by assumption.
  now exists SystemExit.
Qed.

Lemma getitem_unrecognised_no_return fuel self og g kw :
  train_half self = Some kw -> recognised_half kw = false ->
  ~ returns (getitem atan2 fuel self og g).
Proof.
  intros Hh Hkw ([[[inp labels] self'] g'] & H).
  apply getitem_returns_inv in H as (g0 & idx & cut & past & _ & _ & Ha & _ & _).
  rewrite Hh, accept_output_unrecognised in Ha by assumption. discriminate.
Qed.

Lemma estimate_mean_not_diverge o w : estimate_mean o w <> Diverge.
Proof.
  unfold estimate_mean. intros H.
  apply bind_Diverge_inv in H as [H | (? & _ & H)];
    [now apply take_not_diverge in H | discriminate].
Qed.

Lemma estimate_std_not_diverge o w m : estimate_std o w m <> Diverge.
Proof.
  unfold estimate_std. intros H.
  apply bind_Diverge_inv in H as [H | (? & _ & H)];
    [now apply take_not_diverge in H | discriminate].
Qed.

Lemma raises_bind {A B} (m : result A) (k : A -> result B) :
  m <> Diverge -> (forall a, m = Ret a -> raises (k a)) -> raises (bind m k).
Proof.
  destruct m as [a | e |]; simpl; intros Hd Hk; [auto | now exists e | congruence].
Qed.

Lemma init_unrecognised_raises fuel o h training kw g :
  recognised_half kw = false ->
  raises (WaveletDataset_init atan2 (S fuel) o h training (Some kw) g).
Proof.
  intros Hkw. unfold WaveletDataset_init.
  apply raises_bind; [apply of_option_not_diverge|]. intros w _.
  rewrite in_list_eq_False_never. cbn [bind].
  apply raises_bind.
  { apply mapM_not_diverge. intros key. apply of_option_not_diverge. }
  intros outs _. unfold prepare_data_generator.
  apply raises_bind; [apply estimate_mean_not_diverge|]. intros mean _.
  apply raises_bind; [apply estimate_std_not_diverge|]. intros std _.
  destruct (getitem_unrecognised_raises fuel (unsampled o w (Some kw) outs training mean std)
              0 g kw eq_refl Hkw) as (e & ->).
  now exists e.
Qed.

Lemma init_unrecognised_no_return fuel o h training kw g :
  recognised_half kw = false ->
  ~ returns (WaveletDataset_init atan2 fuel o h training (Some kw) g).
Proof.
  intros Hkw ([self g'] & H). unfold WaveletDataset_init in H.
  inv_bind H as w Hw. inv_bind H as u Hu. inv_bind H as outs Houts.
  unfold prepare_data_generator in H.
  inv_bind H as mean Hm. inv_bind H as std Hs.
  inv_bind H as [[[inp lab] self0] g0] Hg.
  eapply getitem_unrecognised_no_return; [| exact Hkw | eexists; exact Hg]. reflexivity.
Qed.

(** C5.  With a region-filter keyword outside top, bottom, inside,
    outside, left and right, [create_train_and_test_datasets] builds no
    view: whatever the options, the file and the fuel, it does not return,
    and with fuel for one call of [__getitem__] it ends in a raised error
    while it builds the training view. *)
Theorem unknown_region_keyword_is_fatal fuel o h kw g :
  recognised_half kw = false ->
  ~ returns (create_train_and_test_datasets atan2 fuel o h (Some kw) g) /\
  raises (WaveletDataset_init atan2 (S fuel) o h true (Some kw) g) /\
  raises (create_train_and_test_datasets atan2 (S fuel) o h (Some kw) g) /\
  (forall w outs mean std idx cut past g1 out,
     inputs_wavelets h = Some w ->
     mapM (fun key => of_option KeyError (outputs_of h key)) (loss_functions o) = Ret outs ->
     estimate_mean o w = Ret mean ->
     estimate_std o w mean = Ret std ->
     resolve_window (unsampled o w (Some kw) outs true mean std) 0 g = Ret (idx, cut, past, g1) ->
     get_output_sample atan2 (unsampled o w (Some kw) outs true mean std) cut past = Ret out ->
     create_train_and_test_datasets atan2 (S fuel) o h (Some kw) g = Raise SystemExit).
Proof.
  intros Hkw. split; [|split; [|split]].
  4: { intros w outs mean std idx cut past g1 out Hw Ho Hm Hs Hr Hl.
       unfold create_train_and_test_datasets, WaveletDataset_init, prepare_data_generator.
       rewrite Hw. cbn [of_option bind]. rewrite in_list_eq_False_never. cbn [bind].
       rewrite Ho. cbn [bind]. rewrite Hm. cbn [bind]. rewrite Hs. cbn [bind getitem].
       rewrite Hr. cbn [bind]. rewrite Hl. cbn [bind unsampled train_half].
       now rewrite accept_output_unrecognised. }
  - intros ([[tr te] g'] & H). unfold create_train_and_test_datasets in H.
    inv_bind H as [tr0 g0] Htr.
    eapply init_unrecognised_no_return; [exact Hkw | eexists; exact Htr].
  - now apply init_unrecognised_raises.
  - unfold create_train_and_test_datasets.
    destruct (init_unrecognised_raises fuel o h true kw g Hkw) as (e & ->).
    now exists e.
Qed.

(** *** Normalisation statistics *)

Lemma at2_tabulate n_f n_c (h : nat -> nat -> float) f c :
  f < n_f -> c < n_c ->
  at2 (tabulate n_f (fun f => tabulate n_c (fun c => h f c))) f c = h f c.
Proof.
  intros Hf Hc. unfold at2. rewrite tabulate_nth by assumption.
  now rewrite tabulate_nth.
Qed.

Lemma median_axis0_at a n_f n_c f c :
  f < n_f -> c < n_c ->
  at2 (median_axis0 a n_f n_c) f c = F64.median (map (fun slice => at2 slice f c) a).
Proof. intros. unfold median_axis0. now rewrite at2_tabulate. Qed.

Lemma abs_deviation_at a m n_f n_c f c :
  f < n_f -> c < n_c ->
  map (fun slice => at2 slice f c) (abs_deviation a m n_f n_c)
  = map (fun slice => PrimFloat.abs (at2 slice f c - at2 m f c)%float) a.
Proof.
  intros Hf Hc. unfold abs_deviation. rewrite map_map.
  apply map_ext. intros slice. now rewrite at2_tabulate.
Qed.

Lemma init_statistics fuel o h training half g self g' :
  WaveletDataset_init atan2 fuel o h training half g = Ret (self, g') ->
  exists w sel mean std,
    inputs_wavelets h = Some w /\
    take (rows w) (training_indices o) = Ret sel /\
    estimate_mean o w = Ret mean /\ estimate_std o w mean = Ret std /\
    wavelets self = w /\ est_mean self = mean /\ est_std self = std /\
    statistics_of sel self.
Proof.
  unfold WaveletDataset_init. intros H.
  inv_bind H as w Hw. inv_bind H as u Hu. inv_bind H as outs Houts.
  unfold prepare_data_generator in H.
  inv_bind H as mean Hm. inv_bind H as std Hs.
  inv_bind H as [[[inp lab] self0] g0] Hg. inversion H; subst; clear H.
  apply getitem_returns_inv in Hg as (g1 & idx & cut & past & _ & _ & _ & _ & ->).
  destruct (inputs_wavelets h) as [w'|]; simpl in Hw; [|discriminate].
  assert (w' = w) by congruence. subst w'.
  pose proof Hm as Hm'. pose proof Hs as Hs'.
  unfold estimate_mean in Hm'. inv_bind Hm' as sel Hsel. inversion Hm'; subst mean.
  unfold estimate_std in Hs'. rewrite Hsel in Hs'. cbn [bind] in Hs'. inversion Hs'; subst std.
  exists w, sel, (median_axis0 sel (n_freq w) (n_chan w)),
    (median_axis0 (abs_deviation sel (median_axis0 sel (n_freq w) (n_chan w))
                     (n_freq w) (n_chan w)) (n_freq w) (n_chan w)).
  repeat (split; [solve [auto]|]).
  unfold statistics_of.
  cbn [est_mean est_std wavelets set_input_shape set_prev_ind unsampled].
  intros f c Hf Hc. split.
  - now apply median_axis0_at.
  - rewrite median_axis0_at, abs_deviation_at by assumption.
    f_equal. apply map_ext. intros slice. now rewrite median_axis0_at.
Qed.

(** C3.  In both views [create_train_and_test_datasets] returns, [est_mean]
    is, for every frequency band and channel, the median of the wavelet
    array over the rows picked by the training indices, and [est_std] the
    median over the same rows of the absolute deviations from that median.
    The statistics of the testing view are those of the training view: the
    testing indices enter neither. *)
Theorem statistics_from_training_indices_only fuel o h half g tr te g' :
  create_train_and_test_datasets atan2 fuel o h half g = Ret (tr, te, g') ->
  exists w sel,
    inputs_wavelets h = Some w /\
    take (rows w) (training_indices o) = Ret sel /\
    wavelets tr = w /\ wavelets te = w /\
    statistics_of sel tr /\ statistics_of sel te /\
    est_mean te = est_mean tr /\ est_std te = est_std tr.
Proof.
  unfold create_train_and_test_datasets. intros H.
  inv_bind H as [tr0 g0] Htr. inv_bind H as half' Hh.
  inv_bind H as [te0 g1] Hte. inversion H; subst; clear H.
  apply init_statistics in Htr
    as (w & sel & mean & std & Hw & Hsel & Hm & Hs & Hwt & Hmt & Hst & Hstat).
  apply init_statistics in Hte
    as (w' & sel' & mean' & std' & Hw' & Hsel' & Hm' & Hs' & Hwt' & Hmt' & Hst' & Hstat').
  assert (Ew : w' = w) by congruence. rewrite Ew in *.
  assert (Esel : sel' = sel) by congruence. rewrite Esel in *.
  assert (Em : mean' = mean) by congruence. rewrite Em in *.
  assert (Es : std' = std) by congruence.
  exists w, sel.
  refine (conj Hw (conj Hsel (conj Hwt (conj Hwt' (conj Hstat (conj Hstat' (conj _ _)))))));
    congruence.
Qed.

(** *** Division by a zero deviation *)

Lemma get_input_sample_at self cut sel inp c t f slice :
  take (rows (wavelets self)) cut = Ret sel ->
  get_input_sample self cut = Ret inp ->
  c < n_chan (wavelets self) -> f < n_freq (wavelets self) ->
  nth_error sel t = Some slice ->
  at4 inp c t f 0 =
    ((at2 slice f c - at2 (est_mean self) f c) / at2 (est_std self) f c)%float.
Proof.
  intros Hsel H Hc Hf Ht. unfold get_input_sample in H. rewrite Hsel in H.
  cbn [bind] in H. inversion H; subst inp; clear H.
  unfold at4. rewrite tabulate_nth by assumption.
  rewrite (nth_map_nth_error _ _ _ _ _ Ht).
  now rewrite tabulate_nth.
Qed.

(** The array [get_input_sample] returns has one entry per channel, and
    per channel one entry per index of the window. *)
Lemma get_input_sample_shape self cut inp :
  get_input_sample self cut = Ret inp ->
  length inp = n_chan (wavelets self) /\
  forall c, c < n_chan (wavelets self) -> length (nth c inp []) = length cut.
Proof.
  unfold get_input_sample. intros H. inv_bind H as sel Hsel. inversion H; subst; clear H.
  split.
  - unfold tabulate. now rewrite length_map, length_seq.
  - intros c Hc. rewrite tabulate_nth by assumption.
    rewrite length_map. exact (mapM_length _ _ _ Hsel).
Qed.

(** C10.  [get_input_sample] divides by [est_std] as it is.  At a
    frequency band and channel where [est_std] is zero, every time step of
    the window it returns holds an infinity or a NaN; the function raises
    nothing as long as the window lies inside the recording, and
    [__getitem__] hands such a window on. *)
Theorem zero_deviation_gives_non_finite_input self f c :
  f < n_freq (wavelets self) -> c < n_chan (wavelets self) ->
  is_zero (at2 (est_std self) f c) = true ->
  (forall cut, returns (take (rows (wavelets self)) cut) ->
     exists inp, get_input_sample self cut = Ret inp /\
       forall t, t < length cut -> F64.not_finite (at4 inp c t f 0) = true) /\
  (forall fuel og g inp labels self' g',
     sample_size self = model_timesteps (opts self) ->
     getitem atan2 fuel self og g = Ret (inp, labels, self', g') ->
     forall t, t < Z.to_nat (sample_size self) ->
       F64.not_finite (at4 inp c t f 0) = true).
Proof.
  intros Hf Hc Hz.
  assert (Hcut : forall cut sel inp,
            take (rows (wavelets self)) cut = Ret sel ->
            get_input_sample self cut = Ret inp ->
            forall t, t < length cut -> F64.not_finite (at4 inp c t f 0) = true).
  { intros cut sel inp Hsel Hinp t Ht.
    pose proof (mapM_length _ _ _ Hsel) as Hlen.
    destruct (nth_error sel t) as [slice|] eqn:Hn.
    2: { apply nth_error_None in Hn. lia. }
    rewrite (get_input_sample_at _ _ _ _ _ _ _ _ Hsel Hinp Hc Hf Hn).
    now apply div_zero_not_finite. }
  split.
  - intros cut (sel & Hsel).
    assert (Hr : returns (get_input_sample self cut)).
    { unfold get_input_sample. rewrite Hsel. cbn [bind]. eexists; reflexivity. }
    destruct Hr as (inp & Hinp). exists inp. split; eauto.
  - intros fuel og g inp labels self' g' Hss H t Ht.
    apply getitem_inv in H as (start & _ & _ & _ & Hinp); auto.
    pose proof Hinp as Hinp'. unfold get_input_sample in Hinp'.
    inv_bind Hinp' as sel Hsel.
    eapply Hcut; eauto. rewrite arange_length. lia.
Qed.

End DatasetFacts.


(** ** Examples on the small recording *)

Section DatasetWitnesses.

Import Numpy WaveletData DatasetExamples.
Local Open Scope string_scope.
Local Open Scope list_scope.
Local Open Scope float_scope.

Example create_walk_x :
  create_train_and_test_datasets atan2_axes 1 (options all_targets) (file walk_x) None zeros
  = Ret (set_input_shape (set_prev_ind (view (options all_targets) walk_x None true) 1) [2; 2; 1; 1]%nat,
         set_input_shape (set_prev_ind (view (options all_targets) walk_x None false) 4) [2; 2; 1; 1]%nat,
         zeros).
Proof. vm_compute. reflexivity. Qed.

(** Moving along +x the direction label is 0 and the speed label 1; along
    +y the direction label is pi/2. *)
Example getitem_walk_x :
  getitem atan2_axes 1 (view (options all_targets) walk_x None true) 1 zeros
  = Ret ([[[[0]]; [[2]]]; [[[nan]]; [[nan]]]],
         [Vec [3; 0.5]; Scalar 0; Scalar 1],
         set_prev_ind (view (options all_targets) walk_x None true) 2, zeros).
Proof. vm_compute. reflexivity. Qed.

Example getitem_walk_y :
  getitem atan2_axes 1 (view (options all_targets) walk_y None true) 1 zeros
  = Ret ([[[[0]]; [[2]]]; [[[nan]]; [[nan]]]],
         [Vec [0.5; 3]; Scalar 0x1.921fb54442d18p+0; Scalar 1],
         set_prev_ind (view (options all_targets) walk_y None true) 2, zeros).
Proof. vm_compute. reflexivity. Qed.

Lemma NoDup_all_targets : NoDup all_targets.
Proof. repeat constructor; simpl; intuition discriminate. Qed.






Lemma statistics_witness :
  exists w sel,
    inputs_wavelets (file walk_x) = Some w /\
    take (rows w) (training_indices (options all_targets)) = Ret sel /\
    wavelets (set_input_shape (set_prev_ind (view (options all_targets) walk_x None true) 1)
                [2; 2; 1; 1]%nat) = w /\
    wavelets (set_input_shape (set_prev_ind (view (options all_targets) walk_x None false) 4)
                [2; 2; 1; 1]%nat) = w /\
    statistics_of sel
      (set_input_shape (set_prev_ind (view (options all_targets) walk_x None true) 1) [2; 2; 1; 1]%nat) /\
    statistics_of sel
      (set_input_shape (set_prev_ind (view (options all_targets) walk_x None false) 4) [2; 2; 1; 1]%nat) /\
    est_mean (set_input_shape (set_prev_ind (view (options all_targets) walk_x None false) 4)
                [2; 2; 1; 1]%nat)
    = est_mean (set_input_shape (set_prev_ind (view (options all_targets) walk_x None true) 1)
                  [2; 2; 1; 1]%nat) /\
    est_std (set_input_shape (set_prev_ind (view (options all_targets) walk_x None false) 4)
               [2; 2; 1; 1]%nat)
    = est_std (set_input_shape (set_prev_ind (view (options all_targets) walk_x None true) 1)
                 [2; 2; 1; 1]%nat).
Proof.
  apply (statistics_from_training_indices_only atan2_axes 1 (options all_targets)
           (file walk_x) None zeros _ _ zeros).
  vm_compute; reflexivity.
Defined.

(** In shuffle mode with the filter [top], the first draw resolves a
    window that ends at height 0 and is rejected; the retry draws again
    and returns a window that ends at height 0.5. *)
Example getitem_retry :
  getitem atan2_axes 2 (view (shuffled (options ["position"])) step_up (Some "top") true) 0 counting
  = Ret ([[[[0]]; [[2]]]; [[[nan]]; [[nan]]]], [Vec [3; 0.5]],
         set_prev_ind (view (shuffled (options ["position"])) step_up (Some "top") true) 2,
         rng_next (rng_next counting)).
Proof. vm_compute. reflexivity. Qed.

Lemma retry_witness :
  getitem atan2_axes 2 (view (shuffled (options ["position"])) step_up (Some "top") true) 0 counting
  = getitem atan2_axes 1 (view (shuffled (options ["position"])) step_up (Some "top") true) 0
      (rng_next counting) /\
  _accept_output [Vec [3; 0.5]] (Some "top") = Ret true.
Proof.
  split.
  - apply (proj2 (getitem_retries_rejected_samples atan2_axes 1
             (view (shuffled (options ["position"])) step_up (Some "top") true) 0 counting)
             1%Z (arange 1 3) (arange 0 2) (rng_next counting) [Vec [2; 0]]);
      vm_compute; reflexivity.
  - apply (proj1 (getitem_retries_rejected_samples atan2_axes 1
             (view (shuffled (options ["position"])) step_up (Some "top") true) 0
             (rng_next counting))
             [[[[0]]; [[2]]]; [[[nan]]; [[nan]]]] [Vec [3; 0.5]]
             (set_prev_ind (view (shuffled (options ["position"])) step_up (Some "top") true) 2)
             (rng_next (rng_next counting))).
    vm_compute; reflexivity.
Defined.

Lemma unknown_keyword_witness :
  ~ returns (create_train_and_test_datasets atan2_axes 0 (options all_targets) (file walk_x)
               (Some "middle") zeros) /\
  raises (WaveletDataset_init atan2_axes 1 (options all_targets) (file walk_x) true
            (Some "middle") zeros) /\
  raises (create_train_and_test_datasets atan2_axes 1 (options all_targets) (file walk_x)
            (Some "middle") zeros).
Proof.
  destruct (unknown_region_keyword_is_fatal atan2_axes 0 (options all_targets) (file walk_x)
              "middle" zeros eq_refl) as (H1 & H2 & H3 & _).
  exact (conj H1 (conj H2 H3)).
Defined.

Example unknown_keyword_exits :
  create_train_and_test_datasets atan2_axes 1 (options all_targets) (file walk_x)
    (Some "middle") zeros = Raise SystemExit.
Proof. vm_compute. reflexivity. Qed.

(** Channel 1 of the recording is constant over the training rows: its
    deviation is zero, and every window holds NaN there. *)
Lemma zero_deviation_witness :
  at2 (est_std (view (options all_targets) walk_x None true)) 0 1 = 0 /\
  (forall cut, returns (take (rows recording) cut) ->
     exists inp, get_input_sample (view (options all_targets) walk_x None true) cut = Ret inp /\
       forall t, t < length cut -> F64.not_finite (at4 inp 1 t 0 0) = true).
Proof.
  split; [reflexivity|].
  apply (zero_deviation_gives_non_finite_input atan2_axes
           (view (options all_targets) walk_x None true) 0 1).
  - simpl; lia.
  - simpl; lia.
  - vm_compute; reflexivity.
Defined.

Lemma get_output_sample_returns_witness :
  returns (get_output_sample atan2_axes (view (options all_targets) walk_x None true)
             (arange 1 3) (arange 0 2)).
Proof.
  apply (get_output_sample_returns atan2_axes (view (options all_targets) walk_x None true)
           (arange 1 3) (arange 0 2) ["direction"; "speed"] walk_x [scalars; scalars]).
  - reflexivity.
  - reflexivity.
  - simpl; lia.
  - constructor; [left; reflexivity | constructor; [right; right; reflexivity | constructor]].
  - discriminate.
  - discriminate.
  - repeat constructor; eexists; vm_compute; reflexivity.
  - repeat constructor; simpl; lia.
Defined.

End DatasetWitnesses.

(** * The decoder *)

(** ** The similarity penalty *)

Section SimilarityFacts.

Import Networks.
Import Stdlib.Reals.Reals Stdlib.micromega.Lra.
Local Open Scope R_scope.

Variable tensor : Type.
Variable features : tensor -> list (list R).

Local Abbreviation pair_term := (Networks.pair_term tensor features).
Local Abbreviation sum_terms := (Networks.sum_terms tensor features).
Local Abbreviation sum_over_pairs := (Networks.sum_over_pairs tensor features).
Local Abbreviation similarity := (Networks.similarity tensor features).

Lemma dot_comm x : forall y, dot x y = dot y x.
Proof.
  induction x as [|a x IH]; intros [|b y]; simpl; auto.
  rewrite IH. ring.
Qed.

Lemma cosine_comm x y : cosine x y = cosine y x.
Proof.
  unfold cosine. rewrite (dot_comm x y).
  now rewrite (Rmult_comm (sqrt (dot x x))).
Qed.

Lemma cosine_rows_comm a : forall b, cosine_rows a b = cosine_rows b a.
Proof.
  induction a as [|x a IH]; intros [|y b]; simpl; auto.
  now rewrite IH, cosine_comm.
Qed.

Lemma pair_term_comm a b : pair_term a b = pair_term b a.
Proof. unfold Networks.pair_term. now rewrite cosine_rows_comm. Qed.

Lemma sum_abs_from t : forall s, fold_left (fun s v => s + Rabs v) t s = s + sum_abs t.
Proof.
  unfold sum_abs. induction t as [|v t IH]; simpl; intros s; [ring|].
  rewrite IH, (IH (0 + Rabs v)). ring.
Qed.

Lemma sum_abs_nonneg t : 0 <= sum_abs t.
Proof.
  induction t as [|v t IH]; unfold sum_abs; simpl; [lra|].
  rewrite sum_abs_from. pose proof (Rabs_pos v). lra.
Qed.

Lemma pair_term_nonneg a b : 0 <= pair_term a b.
Proof. apply sum_abs_nonneg. Qed.

Lemma sum_terms_nonneg a l : 0 <= sum_terms a l.
Proof.
  induction l as [|b l IH]; simpl; [lra|].
  pose proof (pair_term_nonneg a b). lra.
Qed.

Lemma sum_over_pairs_nonneg l : 0 <= sum_over_pairs l.
Proof.
  induction l as [|a l IH]; simpl; [lra|].
  pose proof (sum_terms_nonneg a l). lra.
Qed.

Lemma sum_terms_perm a l l' : Permutation l l' -> sum_terms a l = sum_terms a l'.
Proof.
  induction 1 as [| x l l' _ IH | x y l | l l' l'' _ IH1 _ IH2]; simpl.
  - reflexivity.
  - now rewrite IH.
  - ring.
  - now rewrite IH1.
Qed.

(** The sum over unordered pairs does not depend on the order of the heads. *)
Lemma sum_over_pairs_perm l l' : Permutation l l' -> sum_over_pairs l = sum_over_pairs l'.
Proof.
  induction 1 as [| x l l' Hp IH | x y l | l l' l'' _ IH1 _ IH2]; simpl.
  - reflexivity.
  - now rewrite IH, (sum_terms_perm x l l' Hp).
  - rewrite (pair_term_comm y x). ring.
  - now rewrite IH1.
Qed.

Lemma swap_two_perm {A} (l1 l2 l3 : list A) (a b : A) :
  Permutation (l1 ++ b :: l2 ++ a :: l3) (l1 ++ a :: l2 ++ b :: l3).
Proof.
  apply Permutation_app_head.
  transitivity (b :: a :: l2 ++ l3).
  - constructor. symmetry. apply Permutation_middle.
  - transitivity (a :: b :: l2 ++ l3); [constructor|].
    constructor. apply Permutation_middle.
Qed.

Lemma skipn_nth_error {A} (l : list A) : forall j b,
  nth_error l j = Some b -> skipn j l = b :: skipn (S j) l.
Proof.
  induction l as [|x l IH]; intros [|j] b H; simpl in *; try discriminate.
  - now inversion H.
  - now apply IH.
Qed.

(** The inner loop for head [i] adds the terms of the pairs [(i, j)],
    [j] from its start on. *)
Lemma inner_loop l i a : nth_error l i = Some a ->
  forall m j acc, (i < j)%nat -> (j + m = length l)%nat ->
  fold_left (fun sim j =>
      if (i =? j)%nat then sim
      else match nth_error l i, nth_error l j with
           | Some a, Some b => sim + pair_term a b
           | _, _ => sim
           end) (seq j m) acc
  = acc + sum_terms a (skipn j l).
Proof.
  intros Ha. induction m as [|m IH]; intros j acc Hij Hlen; simpl.
  - rewrite skipn_all2 by lia. simpl. ring.
  - rewrite IH by lia.
    destruct (Nat.eqb_spec i j) as [->|_]; [lia|].
    destruct (nth_error l j) as [b|] eqn:Hb.
    2: { apply nth_error_None in Hb. lia. }
    rewrite Ha, (skipn_nth_error l j b Hb). cbn [Networks.sum_terms]. ring.
Qed.

Lemma outer_loop l : forall m i acc, (i + m = length l)%nat ->
  fold_left (fun sim i =>
      fold_left (fun sim j =>
        if (i =? j)%nat then sim
        else match nth_error l i, nth_error l j with
             | Some a, Some b => sim + pair_term a b
             | _, _ => sim
             end) (seq (i + 1) (length l - (i + 1))) sim)
    (seq i m) acc
  = acc + sum_over_pairs (skipn i l).
Proof.
  induction m as [|m IH]; intros i acc Hlen; simpl.
  - rewrite skipn_all2 by lia. simpl. ring.
  - rewrite IH by lia.
    assert (Hex : exists a, nth_error l i = Some a).
    { destruct (nth_error l i) eqn:E; eauto. apply nth_error_None in E. lia. }
    destruct Hex as (a & Ha).
    rewrite (inner_loop l i a Ha) by lia.
    rewrite (skipn_nth_error l i a Ha). cbn [Networks.sum_over_pairs].
    replace (i + 1)%nat with (S i) by lia. ring.
Qed.

(** The two loops of [forward] compute the sum over unordered pairs. *)
Lemma similarity_sum_over_pairs l : similarity l = sum_over_pairs l.
Proof.
  unfold Networks.similarity. rewrite outer_loop by reflexivity.
  simpl. ring.
Qed.

End SimilarityFacts.

(** ** The forward pass *)

Section ForwardFacts.

Import Networks.
Import Stdlib.Reals.Reals Stdlib.micromega.Lra.
Local Open Scope string_scope.
Local Open Scope list_scope.

Variable tensor : Type.
Variable apply_layer : layer -> tensor -> tensor.
Variable permute_input : tensor -> tensor.
Variable squeeze1 : tensor -> tensor.
Variable features : tensor -> list (list R).

Local Abbreviation call := (Networks.call tensor apply_layer).
Local Abbreviation run_steps := (Networks.run_steps tensor apply_layer).
Local Abbreviation run_fc_steps := (Networks.run_fc_steps tensor apply_layer).
Local Abbreviation run_fc_orders := (Networks.run_fc_orders tensor apply_layer squeeze1).
Local Abbreviation pre_final_features := (Networks.pre_final_features tensor apply_layer).
Local Abbreviation forward :=
  (Networks.forward tensor apply_layer permute_input squeeze1 features).

(** After the loop over [fc_order[1::]], [ffc] holds the input of the
    last step. *)
Lemma run_fc_steps_ffc self steps : forall x ffc x' ffc',
  steps <> [] ->
  run_fc_steps self steps x ffc = Ret (x', ffc') ->
  exists y, run_steps self (removelast steps) x = Ret y /\ ffc' = Some y.
Proof.
  induction steps as [|s steps IH]; intros x ffc x' ffc' Hne H; [congruence|].
  cbn [Networks.run_fc_steps] in H.
  inv_bind H as x1 Hx1. inv_bind H as x2 Hx2.
  destruct steps as [|s' steps].
  - cbn in H. inversion H; subst. exists x. split; reflexivity.
  - apply IH in H as (y & Hy & ->); [|discriminate].
    exists y. split; auto.
    change (removelast (s :: s' :: steps)) with (s :: removelast (s' :: steps)).
    cbn [Networks.run_steps]. rewrite Hx1. cbn [bind]. rewrite Hx2. exact Hy.
Qed.

Lemma run_fc_orders_features self flat_x orders : forall ffc outs ffcs outs' ffcs',
  Forall (fun o => 2 <= length o) orders ->
  run_fc_orders self orders flat_x ffc outs ffcs = Ret (outs', ffcs') ->
  exists fs,
    ffcs' = ffcs ++ fs /\
    Forall2 (fun o f => pre_final_features self o flat_x = Ret f) orders fs.
Proof.
  induction orders as [|o orders IH]; intros ffc outs ffcs outs' ffcs' Hlen H.
  - cbn in H. inversion H; subst. exists []. rewrite app_nil_r. auto.
  - cbn [Networks.run_fc_orders] in H.
    inversion Hlen as [|o' orders' Ho Hrest]; subst.
    inv_bind H as first Hfirst. inv_bind H as x Hx.
    inv_bind H as [x' ffc1] Hsteps. inv_bind H as f Hf.
    apply run_fc_steps_ffc in Hsteps as (y & Hy & ->).
    2: { destruct o as [|? [|? ?]]; simpl in Ho; try lia. discriminate. }
    cbn in Hf. inversion Hf; subst f.
    apply IH in H as (fs & -> & Hfs); auto.
    exists (y :: fs). rewrite <- app_assoc. split; auto.
    constructor; auto.
    unfold Networks.pre_final_features. rewrite Hfirst. cbn [bind]. rewrite Hx. exact Hy.
Qed.

(** *** Every name a constructed decoder calls is registered *)

Local Abbreviation registered := (fun self => registered_in (attrs self)).

Lemma call_returns self name x : registered self name -> returns (call self name x).
Proof.
  intros (l & Hl). unfold Networks.call, getattr. rewrite Hl. cbn. now eexists.
Qed.

Lemma run_conv_order_returns self steps : forall x,
  registered self "dropout" -> Forall (registered self) steps ->
  returns (Networks.run_conv_order tensor apply_layer self steps x).
Proof.
  induction steps as [|s steps IH]; intros x Hd Hs; cbn [Networks.run_conv_order].
  - now eexists.
  - inversion Hs; subst.
    destruct (call_returns self s x) as (x1 & ->); auto. cbn [bind].
    destruct (call_returns self "dropout" x1) as (x2 & ->); auto. cbn [bind]. auto.
Qed.

Lemma run_fc_steps_returns self steps : forall x ffc,
  registered self "dropout" -> Forall (registered self) steps ->
  exists x' ffc', run_fc_steps self steps x ffc = Ret (x', ffc') /\
                  (steps <> [] \/ ffc <> None -> ffc' <> None).
Proof.
  induction steps as [|s steps IH]; intros x ffc Hd Hs; cbn [Networks.run_fc_steps].
  - exists x, ffc. split; auto. intros [H|H]; congruence.
  - inversion Hs; subst.
    destruct (call_returns self "dropout" x) as (x1 & ->); auto. cbn [bind].
    destruct (call_returns self s x1) as (x2 & ->); auto. cbn [bind].
    destruct (IH x2 (Some x)) as (x' & ffc' & -> & Hffc); auto.
    exists x', ffc'. split; auto. intros _. apply Hffc. right. discriminate.
Qed.

Lemma run_fc_orders_returns self flat_x orders : forall ffc outs ffcs,
  registered self "dropout" ->
  Forall (fun o => 2 <= length o /\ Forall (registered self) o) orders ->
  returns (run_fc_orders self orders flat_x ffc outs ffcs).
Proof.
  induction orders as [|o orders IH]; intros ffc outs ffcs Hd Ho;
    cbn [Networks.run_fc_orders].
  - now eexists.
  - inversion Ho as [|? ? [Hlen Hreg] Hrest]; subst.
    destruct o as [|first [|second rest]]; simpl in Hlen; try lia.
    inversion Hreg as [|? ? Hfirst Htl]; subst.
    cbn [nth_error of_option bind tl].
    destruct (call_returns self first flat_x) as (x1 & ->); auto. cbn [bind].
    destruct (run_fc_steps_returns self (second :: rest) x1 ffc Hd Htl)
      as (x' & ffc' & -> & Hffc). cbn [bind].
    destruct ffc' as [f|]; [|exfalso; apply Hffc; [left; discriminate | reflexivity]].
    cbn [of_option bind]. auto.
Qed.

(** [forward] returns whenever the names it calls are registered and
    every head has a layer before its final one. *)
Lemma forward_returns self x return_co_sim :
  registered self "gaussian_noise" -> registered self "dropout" ->
  registered self "flatten" ->
  Forall (registered self) (conv_order self) ->
  Forall (fun o => 2 <= length o /\ Forall (registered self) o) (fc_orders self) ->
  returns (forward self x return_co_sim).
Proof.
  intros Hg Hd Hf Hc Ho. unfold Networks.forward.
  destruct (call_returns self "gaussian_noise" (permute_input x)) as (x1 & ->); auto.
  cbn [bind].
  destruct (run_conv_order_returns self (conv_order self) x1 Hd Hc) as (x2 & ->). cbn [bind].
  destruct (call_returns self "flatten" x2) as (flat_x & ->); auto. cbn [bind].
  destruct (run_fc_orders_returns self flat_x (fc_orders self) None [] [] Hd Ho)
    as ([outs ffcs] & ->). cbn [bind].
  destruct return_co_sim; cbn; now eexists.
Qed.

(** With the similarity requested, [forward] returns the loops' sum over
    the heads' pre-final features. *)
Lemma forward_similarity self x outs r :
  Forall (fun o => 2 <= length o) (fc_orders self) ->
  forward self x true = Ret (outs, r) ->
  exists flat_x ffcs,
    Forall2 (fun o f => pre_final_features self o flat_x = Ret f) (fc_orders self) ffcs /\
    r = Some (Networks.similarity tensor features ffcs).
Proof.
  intros Hlen H. unfold Networks.forward in H.
  inv_bind H as x1 Hx1. inv_bind H as x2 Hx2. inv_bind H as flat_x Hflat.
  inv_bind H as [outs0 ffcs] Hheads. cbn in H. inversion H; subst.
  apply run_fc_orders_features in Hheads as (fs & -> & Hfs); auto.
  exists flat_x, fs. auto.
Qed.

End ForwardFacts.


(** ** Construction and initialisation *)

Section ConstructionFacts.

Import Networks.
Local Open Scope string_scope.
Local Open Scope list_scope.

Lemma setattr_fresh a name l :
  fresh_attrs a -> fresh_layer l -> fresh_attrs (setattr a name l).
Proof.
  intros Ha Hl. induction a as [|[n l'] a IH]; simpl.
  - constructor; [exact Hl|constructor].
  - inversion Ha as [|? ? Hh Ht]; subst.
    destruct (n =? name); constructor; [exact Hl | exact Ht | exact Hh | exact (IH Ht)].
Qed.

Lemma lookup_In a name l : lookup a name = Some l -> In (name, l) a.
Proof.
  induction a as [|[n l'] a IH]; simpl; [discriminate|].
  destruct (String.eqb_spec n name) as [->|_].
  - intros [= ->]. now left.
  - intros H. right. auto.
Qed.

Lemma fold_left_invariant {A B} (P : A -> Prop) (f : A -> B -> A) (l : list B) :
  (forall a b, P a -> P (f a b)) -> forall a, P a -> P (fold_left f l a).
Proof. intros Hf. induction l as [|b l IH]; simpl; auto. Qed.

Ltac fresh_setattr :=
  repeat (apply setattr_fresh; [|repeat constructor]); try assumption.

Lemma add_conv_pair_fresh tg st nct :
  fresh_attrs (b_attrs (fst st)) -> fresh_attrs (b_attrs (fst (add_conv_pair tg st nct))).
Proof.
  destruct st as [b c]. unfold add_conv_pair. cbn [fst b_attrs]. intros H. fresh_setattr.
Qed.

Lemma add_after_tsr_fresh tg fuel : forall b num_channels H k,
  fresh_attrs (b_attrs b) ->
  fresh_attrs (b_attrs (fst (add_after_tsr fuel tg b num_channels H k))).
Proof.
  induction fuel as [|fuel IH]; intros b c H k Hb; simpl; auto.
  destruct (2 <? H)%Z; auto.
  apply IH. cbn [b_attrs]. fresh_setattr.
Qed.

Lemma add_dense_fresh tg key st d :
  fresh_attrs (fst (fst st)) -> fresh_attrs (fst (fst (add_dense tg key st d))).
Proof.
  destruct st as [[a o] c]. unfold add_dense. cbn [fst]. intros H. fresh_setattr.
Qed.

Lemma add_head_fresh tg H st head st' :
  fresh_attrs (fst st) -> add_head tg H st head = Ret st' -> fresh_attrs (fst st').
Proof.
  destruct st as [a orders], head as [key shape]. unfold add_head. cbn [fst]. intros Ha.
  pose proof (fold_left_invariant (fun st => fresh_attrs (fst (fst st))) (add_dense tg key)
                (seq 0 (Z.to_nat (num_dense tg))) (add_dense_fresh tg key)
                (a, [], (256 * H)%Z) Ha) as Hf.
  destruct (fold_left (add_dense tg key) (seq 0 (Z.to_nat (num_dense tg))) (a, [], (256 * H)%Z))
    as [[a' o] c]. cbn [fst] in Hf.
  intros E. inv_bind E as out Hout. inversion E; subst. cbn [fst]. fresh_setattr.
Qed.

Lemma add_heads_fresh tg H heads : forall st st',
  fresh_attrs (fst st) -> add_heads tg H st heads = Ret st' -> fresh_attrs (fst st').
Proof.
  induction heads as [|head heads IH]; simpl; intros st st' Hst E.
  - now inversion E; subst.
  - inv_bind E as st1 H1. eapply IH; [|exact E]. eapply add_head_fresh; eauto.
Qed.

Variable log2_is_integer : Z -> bool.

(** Construction calls neither [zeros_] nor [kaiming_normal_]. *)
Lemma init_fresh tg self :
  Standard_Decoder_init log2_is_integer tg = Ret self -> fresh_attrs (attrs self).
Proof.
  unfold Standard_Decoder_init. intros E.
  inv_bind E as timesteps Ht. inv_bind E as u1 Hu1. inv_bind E as u2 Hu2.
  inv_bind E as input_channels Hic.
  pose proof (fold_left_invariant (fun st => fresh_attrs (b_attrs (fst st))) (add_conv_pair tg)
                (seq 0 (Z.to_nat (num_convs_tsr tg))) (add_conv_pair_fresh tg)
                ({| b_attrs := setattr (setattr (setattr [] "gaussian_noise" GaussianNoise)
                                           "dropout" (Dropout 0)) "sim" CosineSimilarity;
                    b_conv_order := [] |}, input_channels)) as Hconv.
  destruct (fold_left (add_conv_pair tg) (seq 0 (Z.to_nat (num_convs_tsr tg))) _) as [b c].
  cbn [fst] in Hconv.
  inv_bind E as H HH.
  match type of E with
  | context [add_after_tsr ?f tg ?b0 ?c0 H 0] =>
      pose proof (add_after_tsr_fresh tg f b0 c0 H 0) as Hafter;
      destruct (add_after_tsr f tg b0 c0 H 0) as [b' H']
  end.
  cbn [fst b_attrs] in Hafter.
  inv_bind E as [a orders] Hheads. inversion E; subst; clear E. cbn [attrs].
  apply add_heads_fresh in Hheads; auto. cbn [fst].
  fresh_setattr. apply Hafter. fresh_setattr. apply Hconv.
  cbn [b_attrs]. repeat constructor.
Qed.

End ConstructionFacts.

(** *** The halving loop ends by itself *)

Section HalvingLoop.

Import Networks.

Lemma round_half_bounds H : (2 < H)%Z -> (0 < round_half H < H)%Z.
Proof.
  intros HH. unfold round_half.
  pose proof (Z.div_mod H 2 ltac:(lia)) as Hdm.
  pose proof (Z.mod_pos_bound H 2 ltac:(lia)) as Hm.
  destruct (Z.even H); [lia|]. destruct (Z.even (H / 2)); lia.
Qed.

(** With [H] rounds of fuel the loop [while H > 2] stops because [H] has
    come down to 2 or less, not because the fuel ran out. *)
Lemma add_after_tsr_ends tg fuel : forall b num_channels H k,
  Z.to_nat H <= fuel -> (snd (add_after_tsr fuel tg b num_channels H k) <= 2)%Z.
Proof.
  induction fuel as [|fuel IH]; intros b c H k Hf; simpl.
  - lia.
  - destruct (Z.ltb_spec 2 H) as [HH|HH]; simpl; [|lia].
    apply IH. pose proof (round_half_bounds H HH). lia.
Qed.

End HalvingLoop.

(** *** What a constructed decoder can call *)

Section ConstructionNames.

Import Networks.
Local Open Scope string_scope.
Local Open Scope list_scope.

Lemma registered_setattr_same a name l : registered_in (setattr a name l) name.
Proof.
  unfold registered_in.
  induction a as [|[n l'] a IH]; cbn [setattr lookup].
  - rewrite String.eqb_refl. now exists l.
  - destruct (n =? name) eqn:E; cbn [lookup]; rewrite E; [now exists l | exact IH].
Qed.

Lemma registered_setattr_mono a name l m :
  registered_in a m -> registered_in (setattr a name l) m.
Proof.
  unfold registered_in. intros (lm & Hm).
  induction a as [|[n l'] a IH]; cbn [setattr lookup] in *; [discriminate|].
  destruct (n =? name) eqn:E; cbn [lookup].
  - destruct (n =? m); [now eexists | now exists lm].
  - destruct (n =? m); [now eexists | auto].
Qed.

Ltac reg_solve :=
  first [ assumption
        | apply registered_setattr_same
        | apply registered_setattr_mono; reg_solve ].

Lemma Forall_registered_mono a name l names :
  Forall (registered_in a) names -> Forall (registered_in (setattr a name l)) names.
Proof. apply Forall_impl. intros m. apply registered_setattr_mono. Qed.

Lemma add_conv_pair_ok tg st nct : trunk_ok (fst st) -> trunk_ok (fst (add_conv_pair tg st nct)).
Proof.
  destruct st as [b c]. unfold add_conv_pair, trunk_ok. cbn [fst b_attrs b_conv_order].
  intros (Hg & Hd & Hc). split; [reg_solve|]. split; [reg_solve|].
  apply Forall_app. split.
  - repeat apply Forall_registered_mono. exact Hc.
  - repeat constructor; reg_solve.
Qed.

Lemma add_after_tsr_ok tg fuel : forall b num_channels H k,
  trunk_ok b -> trunk_ok (fst (add_after_tsr fuel tg b num_channels H k)).
Proof.
  induction fuel as [|fuel IH]; intros b c H k Hb; simpl; auto.
  destruct (2 <? H)%Z; auto.
  apply IH. destruct Hb as (Hg & Hd & Hc). unfold trunk_ok. cbn [b_attrs b_conv_order].
  split; [reg_solve|]. split; [reg_solve|].
  apply Forall_app. split.
  - repeat apply Forall_registered_mono. exact Hc.
  - repeat constructor; reg_solve.
Qed.

(** A head under construction: its names are registered and each round
    of the dense loop adds three of them. *)
Lemma add_dense_fold tg key l : forall a o c,
  Forall (registered_in a) o ->
  let '(a', o', _) := fold_left (add_dense tg key) l (a, o, c) in
  Forall (registered_in a') o' /\
  length o' = length o + 3 * length l /\
  (forall m, registered_in a m -> registered_in a' m).
Proof.
  induction l as [|d l IH]; intros a o c Ho; cbn [fold_left].
  - repeat split; auto; simpl; lia.
  - unfold add_dense at 2.
    match goal with
    | |- context [fold_left _ l (?a1, ?o1, ?c1)] =>
        specialize (IH a1 o1 c1);
        destruct (fold_left (add_dense tg key) l (a1, o1, c1)) as [[a' o'] c']
    end.
    destruct IH as (H1 & H2 & H3).
    { apply Forall_app. split.
      - repeat apply Forall_registered_mono. exact Ho.
      - repeat constructor; reg_solve. }
    split; [exact H1|]. split.
    + rewrite H2, length_app. simpl. lia.
    + intros m Hm. apply H3. reg_solve.
Qed.

Lemma add_head_ok tg H a orders head a' orders' :
  Forall (head_ok (Z.to_nat (num_dense tg)) a) orders ->
  add_head tg H (a, orders) head = Ret (a', orders') ->
  Forall (head_ok (Z.to_nat (num_dense tg)) a') orders' /\
  (forall m, registered_in a m -> registered_in a' m).
Proof.
  intros Ho. destruct head as [key shape]. unfold add_head.
  pose proof (add_dense_fold tg key (seq 0 (Z.to_nat (num_dense tg))) a [] (256 * H)%Z
                (Forall_nil _)) as Hf.
  destruct (fold_left (add_dense tg key) (seq 0 (Z.to_nat (num_dense tg))) (a, [], (256 * H)%Z))
    as [[a1 o1] c1].
  destruct Hf as (H1 & H2 & H3). rewrite length_seq in H2. simpl in H2.
  intros E. inv_bind E as out Hout. inversion E; subst; clear E.
  assert (Hmono : forall m, registered_in a m ->
            registered_in (setattr a1 ("target_" ++ key ++ "_fc_" ++ fmt_int (num_dense tg))
                             (Linear c1 out TorchDefault TorchDefault)) m).
  { intros m Hm. apply registered_setattr_mono. auto. }
  split; [|exact Hmono].
  apply Forall_app. split.
  - eapply Forall_impl; [|exact Ho]. intros o [Hl Hr]. split; auto.
    eapply Forall_impl; [|exact Hr]. exact Hmono.
  - constructor; [|constructor]. split.
    + rewrite length_app, H2. simpl. lia.
    + apply Forall_app. split.
      * apply Forall_registered_mono. exact H1.
      * repeat constructor. apply registered_setattr_same.
Qed.

Lemma add_heads_ok tg H heads : forall a orders a' orders',
  Forall (head_ok (Z.to_nat (num_dense tg)) a) orders ->
  add_heads tg H (a, orders) heads = Ret (a', orders') ->
  Forall (head_ok (Z.to_nat (num_dense tg)) a') orders' /\
  (forall m, registered_in a m -> registered_in a' m).
Proof.
  induction heads as [|head heads IH]; simpl; intros a orders a' orders' Ho E.
  - inversion E; subst. auto.
  - inv_bind E as [a1 o1] H1.
    destruct (add_head_ok _ _ _ _ _ _ _ Ho H1) as (Ho1 & Hm1).
    destruct (IH _ _ _ _ Ho1 E) as (Ho2 & Hm2). auto.
Qed.

Variable log2_is_integer : Z -> bool.

(** Every name a constructed decoder calls in [forward] is registered,
    and every head lists three names per dense layer and the final
    projection. *)
Lemma init_names tg self :
  Standard_Decoder_init log2_is_integer tg = Ret self ->
  registered_in (attrs self) "gaussian_noise" /\
  registered_in (attrs self) "dropout" /\
  registered_in (attrs self) "flatten" /\
  Forall (registered_in (attrs self)) (conv_order self) /\
  Forall (head_ok (Z.to_nat (num_dense tg)) (attrs self)) (fc_orders self).
Proof.
  unfold Standard_Decoder_init. intros E.
  inv_bind E as timesteps Ht. inv_bind E as u1 Hu1. inv_bind E as u2 Hu2.
  inv_bind E as input_channels Hic.
  pose proof (fold_left_invariant (fun st => trunk_ok (fst st)) (add_conv_pair tg)
                (seq 0 (Z.to_nat (num_convs_tsr tg))) (add_conv_pair_ok tg)
                ({| b_attrs := setattr (setattr (setattr [] "gaussian_noise" GaussianNoise)
                                           "dropout" (Dropout 0)) "sim" CosineSimilarity;
                    b_conv_order := [] |}, input_channels)) as Hconv.
  destruct (fold_left (add_conv_pair tg) (seq 0 (Z.to_nat (num_convs_tsr tg))) _) as [b c].
  cbn [fst] in Hconv.
  destruct Hconv as (Hg & Hd & Hc).
  { unfold trunk_ok. cbn [b_attrs b_conv_order]. repeat split; try reg_solve. constructor. }
  inv_bind E as H HH.
  match type of E with
  | context [add_after_tsr ?f tg ?b0 ?c0 H 0] =>
      pose proof (add_after_tsr_ok tg f b0 c0 H 0) as Hafter;
      destruct (add_after_tsr f tg b0 c0 H 0) as [b' H']
  end.
  cbn [fst] in Hafter. destruct Hafter as (Hg' & Hd' & Hc').
  { unfold trunk_ok. cbn [b_attrs b_conv_order]. split; [reg_solve|]. split; [reg_solve|].
    apply Forall_app. split.
    - apply Forall_registered_mono. exact Hc.
    - repeat constructor. apply registered_setattr_same. }
  inv_bind E as [a orders] Hheads. inversion E; subst; clear E.
  cbn [attrs conv_order fc_orders].
  destruct (add_heads_ok _ _ _ _ _ _ _ (Forall_nil _) Hheads) as (Ho & Hm).
  split; [apply Hm; reg_solve|]. split; [apply Hm; reg_solve|].
  split; [apply Hm; reg_solve|]. split; [|exact Ho].
  eapply Forall_impl; [|exact Hc']. intros m Hr. apply Hm. reg_solve.
Qed.

End ConstructionNames.

Section SimilarityTheorem.

Import Networks.
Import Stdlib.Reals.Reals Stdlib.micromega.Lra.
Local Open Scope R_scope.

Variable tensor : Type.
Variable apply_layer : layer -> tensor -> tensor.
Variables permute_input squeeze1 : tensor -> tensor.
Variable features : tensor -> list (list R).

Local Abbreviation similarity := (Networks.similarity tensor features).
Local Abbreviation sum_over_pairs := (Networks.sum_over_pairs tensor features).
Local Abbreviation pre_final_features := (Networks.pre_final_features tensor apply_layer).
Local Abbreviation run_fc_orders := (Networks.run_fc_orders tensor apply_layer squeeze1).
Local Abbreviation forward :=
  (Networks.forward tensor apply_layer permute_input squeeze1 features).

(** A head that is its final layer alone leaves [ffc] unassigned: the
    first such head stops [forward]. *)
Lemma run_fc_orders_single_step self flat_x o orders outs ffcs r :
  length o = 1%nat -> run_fc_orders self (o :: orders) flat_x None outs ffcs <> Ret r.
Proof.
  intros Hlen. destruct o as [|first [|? ?]]; try discriminate.
  cbn [Networks.run_fc_orders nth_error of_option bind tl].
  destruct (Networks.call tensor apply_layer self first flat_x); cbn; discriminate.
Qed.

(** What [forward] returns for a constructed decoder when the similarity
    is requested. *)
Lemma forward_similarity_constructed log2_is_integer tg self x outs r :
  Standard_Decoder_init log2_is_integer tg = Ret self ->
  forward self x true = Ret (outs, r) ->
  exists flat_x ffcs,
    Forall2 (fun o f => pre_final_features self o flat_x = Ret f) (fc_orders self) ffcs /\
    r = Some (sum_over_pairs ffcs).
Proof.
  intros Hinit H.
  destruct (init_names log2_is_integer tg self Hinit) as (_ & _ & _ & _ & Ho).
  assert (Hlen : Forall (fun o => (2 <= length o)%nat) (fc_orders self)).
  { destruct (Z.to_nat (num_dense tg)) as [|n] eqn:En.
    - destruct (fc_orders self) as [|o orders] eqn:Eo; [constructor|]. exfalso.
      inversion Ho as [|? ? [Hl _] _]; subst. simpl in Hl.
      unfold Networks.forward in H.
      inv_bind H as x1 Hx1. inv_bind H as x2 Hx2. inv_bind H as flat_x Hflat.
      inv_bind H as [outs0 ffcs] Hheads. rewrite Eo in Hheads.
      now apply run_fc_orders_single_step in Hheads.
    - eapply Forall_impl; [|exact Ho]. intros o [Hl _]. lia. }
  destruct (forward_similarity tensor apply_layer permute_input squeeze1 features
              self x outs r Hlen H) as (flat_x & ffcs & Hf & ->).
  exists flat_x, ffcs. split; auto. now rewrite similarity_sum_over_pairs.
Qed.

Lemma forward_returns_constructed log2_is_integer tg self x return_co_sim :
  Standard_Decoder_init log2_is_integer tg = Ret self ->
  (1 <= num_dense tg)%Z ->
  returns (forward self x return_co_sim).
Proof.
  intros Hinit Hnd.
  destruct (init_names log2_is_integer tg self Hinit) as (Hg & Hd & Hf & Hc & Ho).
  apply forward_returns; auto.
  eapply Forall_impl; [|exact Ho]. intros o [Hl Hr]. split; auto. lia.
Qed.


End SimilarityTheorem.

Section TimestepCheck.

Import Networks.

Variable log2_is_integer : Z -> bool.

Lemma add_heads_raises tg H heads : forall st e,
  add_heads tg H st heads = Raise e -> e = IndexError.
Proof.
  induction heads as [|[key shape] heads IH]; simpl; intros [a orders] e E; [discriminate|].
  destruct (add_head tg H (a, orders) (key, shape)) as [st1 | e1 |] eqn:E1; simpl in E.
  - eauto.
  - inversion E; subst e1. unfold add_head in E1.
    destruct (fold_left (add_dense tg key) (seq 0 (Z.to_nat (num_dense tg))) (a, [], (256 * H)%Z))
      as [[a' o] c].
    unfold Numpy.item in E1.
    destruct (Numpy.normalize_index (length shape) 1) as [k|]; cbn in E1; [|congruence].
    destruct (nth_error shape k); cbn in E1; congruence.
  - discriminate.
Qed.

Lemma item_raises {A} (a : list A) (i : Z) (e : pyerr) :
  Numpy.item a i = Raise e -> e = IndexError.
Proof.
  unfold Numpy.item. destruct (Numpy.normalize_index (length a) i) as [k|]; [|congruence].
  destruct (nth_error a k); cbn; congruence.
Qed.

(** X15.  The power-of-two check of the constructor: with a positive window
    length, the constructor ends in [exit(0)] exactly when
    [math.log(n, 2).is_integer()] is false, and it does so before it
    creates a layer. *)
Theorem timestep_check_decides_exit tg n :
  Numpy.item (input_shape tg) 1 = Ret n -> (0 < n)%Z ->
  (log2_is_integer n = false ->
   Standard_Decoder_init log2_is_integer tg = Raise SystemExit) /\
  (log2_is_integer n = true ->
   Standard_Decoder_init log2_is_integer tg <> Raise SystemExit).
Proof.
  intros Hn Hpos. unfold Standard_Decoder_init. rewrite Hn. cbn [bind].
  destruct (Z.leb_spec n 0) as [|_]; [lia|]. cbn [bind].
  split; intros Hlog; rewrite Hlog; cbn [negb bind]; [reflexivity|].
  intros E.
  destruct (Numpy.item (input_shape tg) 3) as [ic | e |] eqn:Hic; cbn [bind] in E;
    [| apply item_raises in Hic; congruence | discriminate].
  destruct (fold_left (add_conv_pair tg) (seq 0 (Z.to_nat (num_convs_tsr tg))) _) as [b c].
  destruct (Numpy.item (input_shape tg) 0) as [H | e |] eqn:HH; cbn [bind] in E;
    [| apply item_raises in HH; congruence | discriminate].
  match type of E with
  | context [add_after_tsr ?f tg ?b0 ?c0 H 0] =>
      destruct (add_after_tsr f tg b0 c0 H 0) as [b' H']
  end.
  match type of E with
  | context [add_heads tg ?h ?st ?hs] =>
      destruct (add_heads tg h st hs) as [[a orders] | e |] eqn:Hh; cbn [bind] in E;
        [discriminate | apply add_heads_raises in Hh; congruence | discriminate]
  end.
Qed.

End TimestepCheck.

Section InitialisationTheorem.

Import Networks.

(** C8, as amended.  [initialise_layer], applied to a layer, draws the
    weight with Kaiming-normal initialisation when the layer has a weight
    and zeroes the bias when it has a bias, and leaves a layer with
    neither as it is.  Construction applies it to no layer: every weight
    and bias of every layer a constructed decoder holds is as the layer's
    own torch constructor left it. *)
Theorem initialise_layer_is_not_applied_by_construction :
  (forall l w, weight_of l = Some w -> weight_of (initialise_layer l) = Some KaimingNormal) /\
  (forall l b, bias_of l = Some b -> bias_of (initialise_layer l) = Some Zeros) /\
  (forall l, weight_of l = None -> bias_of l = None -> initialise_layer l = l) /\
  (forall log2_is_integer tg self name l,
     Standard_Decoder_init log2_is_integer tg = Ret self ->
     lookup (attrs self) name = Some l ->
     Forall (eq TorchDefault) (parameters l)).
Proof.
  split; [|split; [|split]].
  - intros l w H. destruct l; simpl in *; try discriminate; reflexivity.
  - intros l b H. destruct l; simpl in *; try discriminate; reflexivity.
  - intros l Hw Hb. destruct l; simpl in *; try discriminate; reflexivity.
  - intros log2 tg self name l Hinit Hl.
    apply init_fresh in Hinit. apply lookup_In in Hl.
    unfold fresh_attrs in Hinit. rewrite Forall_forall in Hinit.
    exact (Hinit (name, l) Hl).
Qed.

End InitialisationTheorem.

(** ** Examples on the small decoder *)

Section DecoderWitnesses.

Import Networks DecoderExamples.
Local Open Scope string_scope.
Local Open Scope list_scope.

Example decoder_constructed : Standard_Decoder_init log2_table config = Ret decoder.
Proof. vm_compute. reflexivity. Qed.

Example forward_two_rows :
  forward batch pass_on same same same decoder two_rows true
  = Ret ([two_rows; two_rows], Some (similarity batch same [two_rows; two_rows])).
Proof. reflexivity. Qed.


(** C8 fails as stated: the first dense layer of the position head of a
    constructed decoder has a weight and a bias, and neither has been
    through [kaiming_normal_] or [zeros_]. *)
Lemma constructed_layer_keeps_torch_default :
  exists self l,
    Standard_Decoder_init log2_table config = Ret self /\
    lookup (attrs self) "target_position_fc_0" = Some l /\
    weight_of l = Some TorchDefault /\ bias_of l = Some TorchDefault /\
    weight_of l <> Some KaimingNormal /\ bias_of l <> Some Zeros.
Proof.
  exists decoder, (Linear 512 1024 TorchDefault TorchDefault).
  repeat split; try reflexivity; discriminate.
Qed.

Lemma initialise_layer_witness :
  weight_of (initialise_layer (Linear 512 1024 TorchDefault TorchDefault)) = Some KaimingNormal /\
  bias_of (initialise_layer (Linear 512 1024 TorchDefault TorchDefault)) = Some Zeros /\
  initialise_layer (Activation "ELU") = Activation "ELU" /\
  Forall (eq TorchDefault) (parameters (Linear 512 1024 TorchDefault TorchDefault)).
Proof.
  destruct initialise_layer_is_not_applied_by_construction as (Hw & Hb & Hn & Hc).
  split; [|split; [|split]].
  - apply (Hw _ TorchDefault). reflexivity.
  - apply (Hb _ TorchDefault). reflexivity.
  - apply Hn; reflexivity.
  - apply (Hc log2_table config decoder "target_position_fc_0"); reflexivity.
Defined.

Lemma timestep_check_witness :
  (log2_table 64 = false -> Standard_Decoder_init log2_table config = Raise SystemExit) /\
  (log2_table 64 = true -> Standard_Decoder_init log2_table config <> Raise SystemExit).
Proof.
  apply (timestep_check_decides_exit log2_table config 64).
  - reflexivity.
  - lia.
Defined.

End DecoderWitnesses.

(** * Further properties of the dataset *)

(** ** Comparisons of binary64 numbers *)

Section CompareFacts.

Local Open Scope float_scope.

Lemma SFcompare_antisym x y :
  SFcompare x y = option_map CompOpp (SFcompare y x).
Proof.
  destruct x as [sx| sx | | sx mx ex], y as [sy | sy | | sy my ey]; cbn;
    try reflexivity; try (destruct sx; reflexivity); try (destruct sy; reflexivity);
    try (destruct sx, sy; reflexivity).
  destruct sx, sy; try reflexivity; rewrite (Z.compare_antisym ex ey);
    destruct (ex ?= ey)%Z; cbn; try reflexivity;
    rewrite (Pos.compare_cont_antisym my mx Eq); cbn;
    destruct (Pos.compare_cont Eq my mx); reflexivity.
Qed.

Lemma SFcompare_refl x : x <> S754_nan -> SFcompare x x = Some Eq.
Proof.
  destruct x as [s | s | | s m e]; cbn; intros H; try congruence.
  - destruct s; reflexivity.
  - rewrite Z.compare_refl, Pos.compare_cont_refl. destruct s; reflexivity.
Qed.

Lemma is_nan_false_SF x : is_nan x = false -> Prim2SF x <> S754_nan.
Proof.
  unfold is_nan. rewrite eqb_spec. intros H E. rewrite E in H. discriminate.
Qed.

Lemma is_nan_true_SF x : is_nan x = true -> Prim2SF x = S754_nan.
Proof.
  unfold is_nan. rewrite eqb_spec. unfold SFeqb. intros H.
  destruct (Prim2SF x) as [s | s | | s m e] eqn:E; auto;
    rewrite SFcompare_refl in H by discriminate; discriminate.
Qed.

Lemma SFcompare_defined x y :
  x <> S754_nan -> y <> S754_nan -> exists c, SFcompare x y = Some c.
Proof. destruct x, y; cbn; intros; try congruence; eauto. Qed.

(** Among numbers, [a < b] is the negation of [b <= a]. *)
Lemma ltb_negb_leb a b :
  is_nan a = false -> is_nan b = false -> (a <? b) = negb (b <=? a).
Proof.
  intros Ha Hb. rewrite ltb_spec, leb_spec. unfold SFltb, SFleb.
  rewrite (SFcompare_antisym (Prim2SF b) (Prim2SF a)).
  destruct (SFcompare_defined (Prim2SF a) (Prim2SF b)) as (r & ->);
    auto using is_nan_false_SF.
  destruct r; reflexivity.
Qed.

(** Every comparison with a NaN is false. *)
Lemma compare_nan a b :
  is_nan a = true \/ is_nan b = true -> (a <? b) = false /\ (a <=? b) = false.
Proof.
  intros H. rewrite ltb_spec, leb_spec. unfold SFltb, SFleb.
  destruct H as [H | H]; apply is_nan_true_SF in H; rewrite H.
  - split; reflexivity.
  - destruct (Prim2SF a); split; reflexivity.
Qed.

End CompareFacts.

Section ViewFacts.

Import Numpy WaveletData DatasetViews.
Local Open Scope string_scope.
Local Open Scope list_scope.

Variable atan2 : float -> float -> float.

(** *** The region filters of the two views *)

(** X4.  The keyword [create_train_and_test_datasets] gives the testing
    view filters on the same number as the keyword of the training view,
    with the opposite test: on an output sample where that number is not
    NaN the testing filter accepts exactly when the training filter
    rejects.  Where the number is NaN both filters reject. *)
Theorem opposite_filters_are_complementary out kw kw' b :
  opposite_half kw = Ret kw' ->
  _accept_output out (Some kw) = Ret b ->
  exists q,
    filter_quantity kw out = Ret q /\
    (is_nan q = false -> _accept_output out (Some kw') = Ret (negb b)) /\
    (is_nan q = true -> b = false /\ _accept_output out (Some kw') = Ret false).
Proof.
  unfold opposite_half. intros Hop Hacc.
  destruct (String.eqb_spec kw "top") as [-> | _].
  { inversion Hop; subst kw'. cbn in Hacc |- *.
    inv_bind Hacc as y Hy. inversion Hacc; subst b. exists y. rewrite Hy. cbn.
    split; [reflexivity|]. split; intros Hq.
    - now rewrite (ltb_negb_leb 0.1 y eq_refl Hq), negb_involutive.
    - destruct (compare_nan 0.1 y (or_intror Hq)) as [-> _].
      destruct (compare_nan y 0.1 (or_introl Hq)) as [_ ->]. auto. }
  destruct (String.eqb_spec kw "bottom") as [-> | _].
  { inversion Hop; subst kw'. cbn in Hacc |- *.
    inv_bind Hacc as y Hy. inversion Hacc; subst b. exists y. rewrite Hy. cbn.
    split; [reflexivity|]. split; intros Hq.
    - now rewrite (ltb_negb_leb 0.1 y eq_refl Hq).
    - destruct (compare_nan 0.1 y (or_intror Hq)) as [-> _].
      destruct (compare_nan y 0.1 (or_introl Hq)) as [_ ->]. auto. }
  destruct (String.eqb_spec kw "inside") as [-> | _].
  { inversion Hop; subst kw'. cbn in Hacc |- *.
    inv_bind Hacc as d Hd. inversion Hacc; subst b. exists d. rewrite Hd. cbn.
    split; [reflexivity|]. split; intros Hq.
    - now rewrite (ltb_negb_leb d 0.15 Hq eq_refl), negb_involutive.
    - destruct (compare_nan d 0.15 (or_introl Hq)) as [-> _].
      destruct (compare_nan 0.15 d (or_intror Hq)) as [_ ->]. auto. }
  destruct (String.eqb_spec kw "outside") as [-> | _].
  { inversion Hop; subst kw'. cbn in Hacc |- *.
    inv_bind Hacc as d Hd. inversion Hacc; subst b. exists d. rewrite Hd. cbn.
    split; [reflexivity|]. split; intros Hq.
    - now rewrite (ltb_negb_leb d 0.15 Hq eq_refl).
    - destruct (compare_nan d 0.15 (or_introl Hq)) as [-> _].
      destruct (compare_nan 0.15 d (or_intror Hq)) as [_ ->]. auto. }
  destruct (String.eqb_spec kw "left") as [-> | _].
  { inversion Hop; subst kw'. cbn in Hacc |- *.
    inv_bind Hacc as x Hx. inversion Hacc; subst b. exists x. rewrite Hx. cbn.
    split; [reflexivity|]. split; intros Hq.
    - now rewrite (ltb_negb_leb x 400 Hq eq_refl), negb_involutive.
    - destruct (compare_nan x 400 (or_introl Hq)) as [-> _].
      destruct (compare_nan 400 x (or_intror Hq)) as [_ ->]. auto. }
  destruct (String.eqb_spec kw "right") as [-> | _]; [|discriminate].
  inversion Hop; subst kw'. cbn in Hacc |- *.
  inv_bind Hacc as x Hx. inversion Hacc; subst b. exists x. rewrite Hx. cbn.
  split; [reflexivity|]. split; intros Hq.
  - now rewrite (ltb_negb_leb x 400 Hq eq_refl).
  - destruct (compare_nan x 400 (or_introl Hq)) as [-> _].
    destruct (compare_nan 400 x (or_intror Hq)) as [_ ->]. auto.
Qed.

(** *** What construction leaves behind *)

Lemma resolve_window_first_index self og g idx cut past g' :
  resolve_window self og g = Ret (idx, cut, past, g') -> In idx (cv_indices self).
Proof.
  unfold resolve_window. intros H.
  inv_bind H as [i g1] Hi.
  assert (Hin : In i (cv_indices self)).
  { destruct (shuffle (opts self)).
    - eapply choice_In; eauto.
    - inv_bind Hi as i' Hi'. inversion Hi; subst. eapply item_In; eauto. }
  destruct (random_batches (opts self)).
  - inv_bind H as [start g2] Hst. now inversion H; subst.
  - now inversion H; subst.
Qed.

Lemma init_inv fuel o h training half g self g' :
  WaveletDataset_init atan2 fuel o h training half g = Ret (self, g') ->
  exists w outs mean std idx,
    inputs_wavelets h = Some w /\
    mapM (fun key => of_option KeyError (outputs_of h key)) (loss_functions o) = Ret outs /\
    In idx (if training then training_indices o else testing_indices o) /\
    self = set_input_shape (set_prev_ind (unsampled o w half outs training mean std) idx)
             (window_shape w (Z.to_nat (model_timesteps o))).
Proof.
  unfold WaveletDataset_init. intros H.
  inv_bind H as w Hw. inv_bind H as u Hu. inv_bind H as outs Houts.
  unfold prepare_data_generator in H.
  inv_bind H as mean Hm. inv_bind H as std Hs.
  inv_bind H as [[[inp lab] self0] g0] Hg. inversion H; subst; clear H.
  apply getitem_returns_inv in Hg as (g1 & idx & cut & past & Hr & _ & _ & _ & ->).
  apply resolve_window_first_index in Hr. cbn [cv_indices unsampled] in Hr.
  destruct (inputs_wavelets h) as [w'|]; simpl in Hw; [|discriminate].
  assert (w' = w) by congruence. subst w'.
  exists w, outs, mean, std, idx. auto.
Qed.

(** X5.  The two views [create_train_and_test_datasets] returns.  The training
    view indexes the training indices and filters on the keyword given;
    the testing view indexes the testing indices and filters on the
    opposite keyword (on none when none was given).  Both cut windows of
    [model_timesteps] steps from the same channels, one per target name,
    and [__len__] counts the indices of the view.  Each view has drawn one
    sample at one of its indices while it was built, so neither index set
    is empty. *)
Theorem views_index_their_own_split fuel o h half g tr te g' :
  create_train_and_test_datasets atan2 fuel o h half g = Ret (tr, te, g') ->
  (cv_indices tr = training_indices o /\ cv_indices te = testing_indices o) /\
  (WaveletDataset_len tr = length (training_indices o) /\
   WaveletDataset_len te = length (testing_indices o)) /\
  (train_half tr = half /\
   match half with
   | None => train_half te = None
   | Some kw => exists kw', opposite_half kw = Ret kw' /\ train_half te = Some kw'
   end) /\
  (sample_size tr = model_timesteps o /\ sample_size te = model_timesteps o) /\
  (outputs te = outputs tr /\ length (outputs tr) = length (loss_functions o)) /\
  (exists i, prev_ind tr = Some i /\ In i (training_indices o)) /\
  (exists j, prev_ind te = Some j /\ In j (testing_indices o)) /\
  training_indices o <> [] /\ testing_indices o <> [].
Proof.
  unfold create_train_and_test_datasets. intros H.
  inv_bind H as [tr0 g0] Htr. inv_bind H as half' Hh.
  inv_bind H as [te0 g1] Hte. inversion H; subst; clear H.
  apply init_inv in Htr as (w & outs & mean & std & i & Hw & Houts & Hi & ->).
  apply init_inv in Hte as (w' & outs' & mean' & std' & j & Hw' & Houts' & Hj & ->).
  assert (Eo : outs' = outs) by congruence. subst outs'.
  cbn [cv_indices train_half sample_size outputs prev_ind set_input_shape set_prev_ind
       unsampled WaveletDataset_len].
  split; [auto|]. split; [auto|]. split.
  { split; [reflexivity|]. destruct half as [kw|].
    - inv_bind Hh as n Hn. inversion Hh; subst. eauto.
    - now inversion Hh. }
  split; [auto|]. split.
  { split; [reflexivity|]. exact (mapM_length _ _ _ Houts). }
  split; [eauto|]. split; [eauto|].
  split; intros E; rewrite E in *; contradiction.
Qed.

(** *** A rejected index without shuffling *)

(** X6.  Without [shuffle] and [random_batches] the lookup of an index always
    resolves the same window.  When the region filter rejects the sample
    of that window, [__getitem__] calls itself with the same index, and
    again: the call returns nothing and raises nothing, however deep the
    recursion may go. *)
Theorem rejected_index_is_retried_forever self og idx out :
  shuffle (opts self) = false ->
  random_batches (opts self) = false ->
  item (cv_indices self) og = Ret idx ->
  get_output_sample atan2 self (arange idx (idx + sample_size self))
    (arange (idx - 1) (idx + sample_size self - 1)) = Ret out ->
  _accept_output out (train_half self) = Ret false ->
  forall fuel g, getitem atan2 fuel self og g = Diverge.
Proof.
  intros Hs Hr Hi Ho Ha fuel. induction fuel as [|fuel IH]; intros g; [reflexivity|].
  cbn [getitem]. unfold resolve_window. rewrite Hs, Hi. cbn [bind]. rewrite Hr.
  cbn [bind]. rewrite Ho. cbn [bind]. rewrite Ha. cbn [bind negb]. apply IH.
Qed.

(** *** The index asked for *)

Lemma item_out_of_range {A} (a : list A) (i : Z) :
  (i < - Z.of_nat (length a) \/ Z.of_nat (length a) <= i)%Z -> item a i = Raise IndexError.
Proof.
  intros H. unfold item, normalize_index.
  destruct (Z.leb_spec 0 i), (Z.ltb_spec i (Z.of_nat (length a))); cbn [andb]; try lia;
    destruct (Z.leb_spec (- Z.of_nat (length a)) i), (Z.ltb_spec i 0); cbn [andb];
    try lia; reflexivity.
Qed.

Lemma item_wraps {A} (a : list A) (i : Z) :
  (- Z.of_nat (length a) <= i < 0)%Z -> item a i = item a (i + Z.of_nat (length a)).
Proof.
  intros H. unfold item, normalize_index.
  destruct (Z.leb_spec 0 i), (Z.ltb_spec i (Z.of_nat (length a))); cbn [andb]; try lia.
  destruct (Z.leb_spec (- Z.of_nat (length a)) i), (Z.ltb_spec i 0); cbn [andb]; try lia.
  destruct (Z.leb_spec 0 (i + Z.of_nat (length a))),
    (Z.ltb_spec (i + Z.of_nat (length a)) (Z.of_nat (length a))); cbn [andb]; try lia.
  reflexivity.
Qed.

Lemma getitem_same_lookup self og og' :
  (forall g, resolve_window self og g = resolve_window self og' g) ->
  forall fuel g, getitem atan2 fuel self og g = getitem atan2 fuel self og' g.
Proof.
  intros Hr fuel. induction fuel as [|fuel IH]; intros g; [reflexivity|].
  cbn [getitem]. rewrite Hr.
  destruct (resolve_window self og' g) as [[[[idx cut] past] g1] | e |]; cbn [bind]; auto.
  destruct (get_output_sample atan2 self cut past) as [out | e |]; cbn [bind]; auto.
  destruct (_accept_output out (train_half self)) as [ok | e |]; cbn [bind]; auto.
  destruct ok; cbn [negb]; auto.
Qed.

(** X7.  How [__getitem__] reads its index.  Without [shuffle] the index is
    looked up in the view's indices as numpy does: an index outside
    [[-len, len)] raises [IndexError], which is what ends a [for] loop
    over the view, and a negative index inside counts from the end.  With
    [shuffle] the index is not read at all, so no index is out of range,
    and a view without indices raises [ValueError]. *)
Theorem getitem_reads_its_index self :
  (shuffle (opts self) = false ->
   forall og,
     ((og < - Z.of_nat (WaveletDataset_len self) \/ Z.of_nat (WaveletDataset_len self) <= og)%Z ->
      forall fuel g, getitem atan2 (S fuel) self og g = Raise IndexError) /\
     ((- Z.of_nat (WaveletDataset_len self) <= og < 0)%Z ->
      forall fuel g, getitem atan2 fuel self og g
                     = getitem atan2 fuel self (og + Z.of_nat (WaveletDataset_len self)) g)) /\
  (shuffle (opts self) = true ->
   (forall og og' fuel g, getitem atan2 fuel self og g = getitem atan2 fuel self og' g) /\
   (cv_indices self = [] ->
    forall og fuel g, getitem atan2 (S fuel) self og g = Raise ValueError)).
Proof.
  unfold WaveletDataset_len. split; intros Hs.
  - intros og. split; intros Hog.
    + intros fuel g. cbn [getitem]. unfold resolve_window.
      rewrite Hs, (item_out_of_range _ _ Hog). reflexivity.
    + apply getitem_same_lookup. intros g. unfold resolve_window.
      now rewrite Hs, (item_wraps _ _ Hog).
  - split.
    + intros og og'. apply getitem_same_lookup. intros g. unfold resolve_window.
      now rewrite Hs.
    + intros He og fuel g. cbn [getitem]. unfold resolve_window. rewrite Hs, He. reflexivity.
Qed.

(** *** The input window *)

Lemma item_returns_range {A} (a : list A) (i : Z) :
  returns (item a i) -> (- Z.of_nat (length a) <= i < Z.of_nat (length a))%Z.
Proof.
  intros (x & H).
  destruct (Z.lt_ge_cases i (- Z.of_nat (length a))) as [Hlo | Hlo].
  { rewrite item_out_of_range in H by lia. discriminate. }
  destruct (Z.lt_ge_cases i (Z.of_nat (length a))) as [Hhi | Hhi]; [lia|].
  rewrite item_out_of_range in H by lia. discriminate.
Qed.

Lemma take_returns_iff {A} (a : list A) (idx : list Z) :
  returns (take a idx) <->
  Forall (fun i => (- Z.of_nat (length a) <= i < Z.of_nat (length a))%Z) idx.
Proof.
  unfold take. split.
  - intros (l & H). revert l H. induction idx as [|i idx IH]; intros l H; constructor.
    + cbn [mapM] in H. inv_bind H as x Hx. apply item_returns_range. now exists x.
    + cbn [mapM] in H. inv_bind H as x Hx. inv_bind H as xs Hxs. eauto.
  - intros H. apply mapM_returns. intros i Hi. apply item_returns.
    rewrite Forall_forall in H. auto.
Qed.

(** X9.  The window [get_input_sample] returns for the indices [cut_range] has
    the axes channel, time, frequency and one axis of length one: entry
    [c, t, f, 0] is the wavelet value of row [cut_range[t]] at frequency
    [f] and channel [c], less [est_mean[f, c]], over [est_std[f, c]].  The
    call returns exactly when every index lies in [[-T, T)] for the [T]
    rows of the recording: an index past the end raises, a negative one
    reads from the end. *)
Theorem input_window_layout self cut :
  (returns (get_input_sample self cut) <->
   Forall (fun i => (- Z.of_nat (length (rows (wavelets self))) <= i
                     < Z.of_nat (length (rows (wavelets self))))%Z) cut) /\
  (forall inp, get_input_sample self cut = Ret inp ->
     length inp = n_chan (wavelets self) /\
     forall c, c < n_chan (wavelets self) ->
       length (nth c inp []) = length cut /\
       forall t i, nth_error cut t = Some i ->
         exists slice,
           item (rows (wavelets self)) i = Ret slice /\
           nth t (nth c inp []) []
           = tabulate (n_freq (wavelets self)) (fun f =>
               [ ((at2 slice f c - at2 (est_mean self) f c) / at2 (est_std self) f c)%float ])).
Proof.
  split.
  - rewrite <- take_returns_iff. unfold get_input_sample. split.
    + intros (inp & H). inv_bind H as sel Hsel. now exists sel.
    + intros (sel & ->). cbn [bind]. now eexists.
  - intros inp H. split; [exact (proj1 (get_input_sample_shape self cut inp H))|].
    intros c Hc. split; [exact (proj2 (get_input_sample_shape self cut inp H) c Hc)|].
    intros t i Ht. unfold get_input_sample in H. inv_bind H as sel Hsel.
    inversion H; subst inp; clear H.
    destruct (mapM_nth _ _ _ Hsel t i Ht) as (slice & Hslice & Hitem).
    exists slice. split; [exact Hitem|].
    rewrite tabulate_nth by assumption.
    now rewrite (nth_map_nth_error _ _ _ _ _ Hslice).
Qed.

(** *** What a call changes *)

(** X8.  A call of [__getitem__] that returns has changed one attribute of the
    view, [prev_ind], which now holds the index its first lookup resolved
    among the view's indices.  The options, the recording, the channels,
    the index set and the two statistics are as they were. *)
Theorem getitem_only_sets_prev_ind fuel self og g inp labels self' g' :
  getitem atan2 fuel self og g = Ret (inp, labels, self', g') ->
  (exists idx, prev_ind self' = Some idx /\ In idx (cv_indices self)) /\
  opts self' = opts self /\ wavelets self' = wavelets self /\
  outputs self' = outputs self /\ train_half self' = train_half self /\
  sample_size self' = sample_size self /\ cv_indices self' = cv_indices self /\
  est_mean self' = est_mean self /\ est_std self' = est_std self /\
  input_shape self' = input_shape self.
Proof.
  intros H.
  apply getitem_returns_inv in H as (g0 & idx & cut & past & Hr & _ & _ & _ & ->).
  apply resolve_window_first_index in Hr.
  split; [exists idx; split; [reflexivity | exact Hr]|].
  repeat split.
Qed.

(** *** The position label *)

(** X1.  A sample [__getitem__] returns holds one label per channel, and the
    label of the target [position] is the position channel's row at the
    last index of the very window the input sample is cut from. *)
Theorem position_label_is_last_row_of_window
    fuel self og g inp labels self' g' k p :
  sample_size self = model_timesteps (opts self) ->
  NoDup (loss_functions (opts self)) ->
  nth_error (loss_functions (opts self)) k = Some "position" ->
  nth_error (outputs self) k = Some p ->
  getitem atan2 fuel self og g = Ret (inp, labels, self', g') ->
  length labels = length (outputs self) /\
  exists idx row,
    In idx (cv_indices self) /\
    get_input_sample self (arange idx (idx + sample_size self)) = Ret inp /\
    item p (idx + sample_size self - 1) = Ret row /\
    nth_error labels k = Some (Vec row).
Proof.
  intros Hss Hnd Hk Hp H.
  apply getitem_inv in H as (idx & Hin & Hout & _ & Hinp); auto.
  split.
  - unfold get_output_sample in Hout.
    apply output_loop_app in Hout as (labs & -> & Hlen). exact Hlen.
  - destruct (get_output_sample_after_position _ _ _ _ _ _ _ _ _ Hnd Hk Hp Hout)
      as (cm & pm & Hcm & _ & Hlab & _).
    exists idx, cm. auto.
Qed.

(** *** Target names *)

Lemma derive_label_known cut prev var out env r :
  derive_label atan2 cut prev var out env = Ret r ->
  In var ["position"; "head_direction"; "direction"; "speed"].
Proof.
  unfold derive_label. intros H.
  inv_bind H as cd Hcd. inv_bind H as pcd Hpcd.
  destruct (String.eqb_spec var "position") as [-> | _]; [cbn; auto|].
  destruct (String.eqb_spec var "head_direction") as [-> | _]; [cbn; auto|].
  destruct (String.eqb_spec var "direction") as [-> | _]; [cbn; auto|].
  destruct (String.eqb_spec var "speed") as [-> | _]; [cbn; auto 6 | discriminate].
Qed.

Lemma output_loop_known keys cut prev outs : forall i env acc labels,
  output_loop atan2 keys cut prev i outs env acc = Ret labels ->
  forall j, i <= j < i + length outs ->
  exists var, nth_error keys j = Some var /\
              In var ["position"; "head_direction"; "direction"; "speed"].
Proof.
  induction outs as [|out outs IH]; cbn [output_loop length]; intros i env acc labels H j Hj.
  - lia.
  - inv_bind H as var Hvar. inv_bind H as [env' lab] Hd.
    destruct (Nat.eq_dec j i) as [-> | Hne].
    + exists var. split; [|eapply derive_label_known; eauto].
      destruct (nth_error keys i); cbn in Hvar; congruence.
    + eapply IH; [exact H | lia].
Qed.

(** X3.  A target name other than position, head_direction, direction and
    speed cannot be used: with such a name among the targets that have a
    channel, [get_output_sample] returns for no window, so [__getitem__]
    returns no sample and no view is created.  When the name comes first
    and its channel holds the two windows, the call ends in the [exit(0)]
    of the last branch. *)
Theorem unknown_target_name_is_fatal self j var :
  nth_error (loss_functions (opts self)) j = Some var ->
  ~ In var ["position"; "head_direction"; "direction"; "speed"] ->
  j < length (outputs self) ->
  (forall cut prev, ~ returns (get_output_sample atan2 self cut prev)) /\
  (forall fuel og g, ~ returns (getitem atan2 fuel self og g)) /\
  (j = 0 ->
   forall cut prev out,
     nth_error (outputs self) 0 = Some out ->
     returns (take out cut) -> returns (take out prev) ->
     get_output_sample atan2 self cut prev = Raise SystemExit).
Proof.
  intros Hj Hvar Hlen.
  assert (Hno : forall cut prev, ~ returns (get_output_sample atan2 self cut prev)).
  { intros cut prev (labels & H). unfold get_output_sample in H.
    destruct (output_loop_known _ _ _ _ _ _ _ _ H j ltac:(lia)) as (v & Hv & Hin).
    congruence. }
  split; [exact Hno|]. split.
  - intros fuel og g ([[[inp labels] self'] g'] & H).
    apply getitem_returns_inv in H as (g0 & idx & cut & past & _ & Ho & _).
    apply (Hno cut past). now exists labels.
  - intros -> cut prev out Hout (cd & Hcd) (pcd & Hpcd).
    unfold get_output_sample.
    destruct (outputs self) as [|out' outs]; [discriminate|].
    cbn in Hout. inversion Hout; subst out'.
    cbn [output_loop]. rewrite Hj. cbn [of_option bind].
    unfold derive_label. rewrite Hcd, Hpcd. cbn [bind].
    destruct (String.eqb_spec var "position") as [-> | _]; [cbn in Hvar; tauto|].
    destruct (String.eqb_spec var "head_direction") as [-> | _]; [cbn in Hvar; tauto|].
    destruct (String.eqb_spec var "direction") as [-> | _]; [cbn in Hvar; tauto|].
    destruct (String.eqb_spec var "speed") as [-> | _]; [cbn in Hvar; tauto|].
    reflexivity.
Qed.

End ViewFacts.

(** ** WaveletDatasetFrey *)

Section FreyFacts.

Import Numpy WaveletData.
Local Open Scope list_scope.

Lemma mapM_Forall2 {A B} (f : A -> result B) (l : list A) : forall bs,
  mapM f l = Ret bs -> Forall2 (fun a b => f a = Ret b) l bs.
Proof.
  induction l as [|a l IH]; cbn [mapM]; intros bs H.
  - inversion H. constructor.
  - inv_bind H as b Hb. inv_bind H as bs' Hbs. inversion H; subst. constructor; auto.
Qed.

(** [np.arange(0, n + 1, a)[1::] - 1] for a positive [a]: the indices
    [a - 1], [2a - 1], ... below [n]. *)
Lemma every_ath_index (n : nat) (a : Z) :
  (0 < a)%Z ->
  map (fun i => (i - 1)%Z) (tl (Frey.arange_step 0 (Z.of_nat n + 1) a))
  = map (fun j => (Z.of_nat ((j + 1) * Z.to_nat a - 1))) (seq 0 (n / Z.to_nat a)).
Proof.
  intros Ha. unfold Frey.arange_step.
  destruct (Z.ltb_spec 0 a) as [_|]; [|lia].
  replace (Z.to_nat ((Z.of_nat n + 1 - 0 + a - 1) / a)) with (S (n / Z.to_nat a)).
  2: { replace (Z.of_nat n + 1 - 0 + a - 1)%Z with (Z.of_nat n + 1 * a)%Z by lia.
       rewrite Z.div_add by lia.
       rewrite Z2Nat.inj_add by (try apply Z.div_pos; lia).
       rewrite Z2Nat.inj_div by lia. rewrite Nat2Z.id.
       change (Z.to_nat 1) with 1. lia. }
  cbn [seq map tl]. rewrite <- seq_shift, !map_map.
  apply map_ext. intros j. nia.
Qed.

Lemma no_index_for_negative_step (n : nat) (a : Z) :
  (a < 0)%Z -> tl (Frey.arange_step 0 (Z.of_nat n + 1) a) = [].
Proof.
  intros Ha. unfold Frey.arange_step.
  destruct (Z.ltb_spec 0 a) as [|_]; [lia|].
  replace (Z.to_nat ((0 - (Z.of_nat n + 1) - a - 1) / - a)) with 0; [reflexivity|].
  assert ((0 - (Z.of_nat n + 1) - a - 1) / - a <= 0)%Z; [|lia].
  assert ((0 - (Z.of_nat n + 1) - a - 1) / - a < 1)%Z; [|lia].
  apply Z.div_lt_upper_bound; lia.
Qed.

(** The rows [cd[np.arange(0, n + 1, a)[1::] - 1]] of a window [cd] of
    [n] rows. *)
Lemma averaged_rows {A} (a : Z) (cd lab : list A) :
  take cd (map (fun i => (i - 1)%Z)
             (tl (Frey.arange_step 0 (Z.of_nat (length cd) + 1) a))) = Ret lab ->
  ((a < 0)%Z -> lab = []) /\
  ((0 < a)%Z ->
   length lab = length cd / Z.to_nat a /\
   (forall j, j < length cd / Z.to_nat a ->
      nth_error lab j = nth_error cd ((j + 1) * Z.to_nat a - 1) /\
      (j + 1) * Z.to_nat a <= length cd)).
Proof.
  intros H. split.
  - intros Ha. rewrite no_index_for_negative_step in H by assumption.
    cbn in H. now inversion H.
  - intros Ha. rewrite every_ath_index in H by assumption.
    set (k := Z.to_nat a) in *. set (n := length cd) in *.
    assert (Hk : 0 < k) by (unfold k; lia).
    pose proof (Nat.div_mod_eq n k) as Hdm.
    pose proof (Nat.mod_upper_bound n k ltac:(lia)) as Hmod.
    assert (Hidx : forall j, j < n / k -> (j + 1) * k <= n) by (intros j Hj; nia).
    split.
    + apply mapM_length in H. now rewrite length_map, length_seq in H.
    + intros j Hj. split; [|auto].
      assert (Hn : nth_error (map (fun j => Z.of_nat ((j + 1) * k - 1)) (seq 0 (n / k))) j
                   = Some (Z.of_nat ((j + 1) * k - 1))).
      { rewrite nth_error_map, nth_error_seq.
        destruct (Nat.ltb_spec j (n / k)); [reflexivity | lia]. }
      destruct (mapM_nth _ _ _ H _ _ Hn) as (row & Hrow & Hitem).
      rewrite Hrow. rewrite item_in_range in Hitem.
      2: { specialize (Hidx j Hj). fold n. lia. }
      rewrite Nat2Z.id in Hitem.
      destruct (nth_error cd ((j + 1) * k - 1)); cbn in Hitem; congruence.
Qed.

(** X10.  The rows [WaveletDatasetFrey.get_output_sample] keeps of each channel's
    window [cd], by the option [average_output].  Unset or 0: the whole
    window.  A positive [a]: the [n // a] rows [cd[a - 1]], [cd[2a - 1]],
    ... of the [n] rows of the window, so the last row of the window is
    kept when [a] divides [n] and dropped when it does not.  A negative
    value: no row at all. *)
Theorem average_output_keeps_every_ath_row self cut labels :
  Frey.get_output_sample self cut = Ret labels ->
  Forall2 (fun out lab =>
      exists cd,
        take out cut = Ret cd /\
        (Frey.average_output self = 0%Z -> lab = cd) /\
        ((Frey.average_output self < 0)%Z -> lab = []) /\
        ((0 < Frey.average_output self)%Z ->
         let a := Z.to_nat (Frey.average_output self) in
         let n := length cut in
         length lab = n / a /\
         (forall j, j < n / a -> nth_error lab j = nth_error cd ((j + 1) * a - 1)) /\
         (n mod a = 0 -> 0 < n -> nth_error lab (n / a - 1) = nth_error cd (n - 1)) /\
         (n mod a <> 0 -> forall j, j < n / a -> (j + 1) * a - 1 < n - 1)))
    (outputs (Frey.base self)) labels.
Proof.
  unfold Frey.get_output_sample. intros H. apply mapM_Forall2 in H.
  eapply Forall2_impl; [|exact H]. clear H. intros out lab H. cbn beta in H.
  inv_bind H as cd Hcd. exists cd. split; [exact Hcd|].
  pose proof (mapM_length _ _ _ Hcd) as Hlen.
  destruct (Z.eqb_spec (Frey.average_output self) 0) as [E | E].
  { inversion H; subst. repeat split; auto; lia. }
  apply averaged_rows in H as (Hneg & Hpos).
  split; [contradiction|]. split; [exact Hneg|].
  intros Ha. cbv zeta. rewrite <- Hlen.
  set (a := Z.to_nat (Frey.average_output self)) in *. set (n := length cd) in *.
  destruct (Hpos Ha) as (Hl & Hrows).
  assert (Han : 0 < a) by (unfold a; lia).
  pose proof (Nat.div_mod_eq n a) as Hdm.
  pose proof (Nat.mod_upper_bound n a ltac:(lia)) as Hmod.
  split; [exact Hl|]. split; [|split].
  - intros j Hj. exact (proj1 (Hrows j Hj)).
  - intros Hm Hn. assert (Hq : 0 < n / a) by nia.
    rewrite (proj1 (Hrows (n / a - 1) ltac:(lia))). f_equal. nia.
  - intros Hm j Hj. nia.
Qed.

(** X11.  [WaveletDatasetFrey.__getitem__] cuts the input window and the labels
    at the same indices, a window that starts at one of the view's
    indices, and applies no region filter.  With [average_output] unset
    the labels of a channel are its rows over that window; with a positive
    [a] they are the channel's rows at [start + a - 1],
    [start + 2a - 1], ..., one for each full group of [a] steps. *)
Theorem frey_labels_follow_the_input_window self og g inp labels g' :
  sample_size (Frey.base self) = model_timesteps (opts (Frey.base self)) ->
  Frey.getitem self og g = Ret (inp, labels, g') ->
  exists start,
    In start (cv_indices (Frey.base self)) /\
    get_input_sample (Frey.base self)
      (arange start (start + sample_size (Frey.base self))) = Ret inp /\
    Forall2 (fun out lab =>
        (Frey.average_output self = 0%Z ->
         take out (arange start (start + sample_size (Frey.base self))) = Ret lab) /\
        ((0 < Frey.average_output self)%Z ->
         let a := Z.to_nat (Frey.average_output self) in
         length lab = Z.to_nat (sample_size (Frey.base self)) / a /\
         forall j, j < length lab ->
           exists row, nth_error lab j = Some row /\
                       item out (start + Z.of_nat ((j + 1) * a - 1)) = Ret row))
      (outputs (Frey.base self)) labels.
Proof.
  intros Hss H. unfold Frey.getitem in H.
  inv_bind H as [i g1] Hi.
  assert (Hin : In i (cv_indices (Frey.base self))).
  { destruct (shuffle (opts (Frey.base self))).
    - eapply choice_In; eauto.
    - inv_bind Hi as i' Hi'. inversion Hi; subst. eapply item_In; eauto. }
  inv_bind H as [cut g2] Hcut.
  assert (Hstart : exists start, In start (cv_indices (Frey.base self)) /\
            cut = arange start (start + sample_size (Frey.base self))).
  { destruct (random_batches (opts (Frey.base self))).
    - inv_bind Hcut as [s g3] Hs. inversion Hcut; subst. exists s. split.
      + eapply choice_In; eauto.
      + now rewrite Hss.
    - inversion Hcut; subst. eauto. }
  destruct Hstart as (start & Hst & ->).
  inv_bind H as inp0 Hinp. inv_bind H as out0 Hout. inversion H; subst; clear H.
  exists start. split; [exact Hst|]. split; [exact Hinp|].
  unfold Frey.get_output_sample in Hout. apply mapM_Forall2 in Hout.
  eapply Forall2_impl; [|exact Hout]. clear Hout. intros out lab H. cbn beta in H.
  inv_bind H as cd Hcd.
  pose proof (mapM_length _ _ _ Hcd) as Hlen. rewrite arange_length in Hlen.
  destruct (Z.eqb_spec (Frey.average_output self) 0) as [E | E].
  { inversion H; subst. split; [auto | lia]. }
  split; [contradiction|]. intros Ha. cbv zeta.
  apply averaged_rows in H as (_ & Hpos). destruct (Hpos Ha) as (Hl & Hrows).
  replace (Z.to_nat (start + sample_size (Frey.base self) - start))
    with (Z.to_nat (sample_size (Frey.base self))) in Hlen by lia.
  rewrite Hlen in Hl, Hrows.
  split; [exact Hl|]. intros j Hj. rewrite Hl in Hj.
  destruct (Hrows j Hj) as (Hrow & Hle). rewrite Hrow.
  assert (Hidx : nth_error (arange start (start + sample_size (Frey.base self)))
                   ((j + 1) * Z.to_nat (Frey.average_output self) - 1)
                 = Some (start + Z.of_nat ((j + 1) * Z.to_nat (Frey.average_output self) - 1))%Z).
  { apply arange_nth. lia. }
  destruct (mapM_nth _ _ _ Hcd _ _ Hidx) as (row & Hr & Hitem).
  exists row. split; assumption.
Qed.

End FreyFacts.

(** ** The split of the indices *)

Section SplitFacts.

Import Numpy WaveletData Scripts.
Local Open Scope list_scope.

Variable atan2 : float -> float -> float.

Lemma list_sum_cons (n : nat) (l : list nat) : list_sum (n :: l) = n + list_sum l.
Proof. reflexivity. Qed.

Lemma cut_sections_app {A} (sizes1 sizes2 : list nat) : forall ary : list A,
  cut_sections ary (sizes1 ++ sizes2)
  = cut_sections ary sizes1 ++ cut_sections (skipn (list_sum sizes1) ary) sizes2.
Proof.
  induction sizes1 as [|n sizes1 IH]; intros ary.
  - reflexivity.
  - rewrite list_sum_cons. cbn [cut_sections app]. rewrite IH.
    now rewrite skipn_skipn, Nat.add_comm.
Qed.

Lemma firstn_plus {A} (n m : nat) : forall l : list A,
  firstn (n + m) l = firstn n l ++ firstn m (skipn n l).
Proof.
  induction n as [|n IH]; intros [|x l]; cbn [Nat.add firstn skipn app];
    rewrite ?firstn_nil; try reflexivity.
  now rewrite IH.
Qed.

Lemma concat_cut_sections {A} (sizes : list nat) : forall ary : list A,
  concat (cut_sections ary sizes) = firstn (list_sum sizes) ary.
Proof.
  induction sizes as [|n sizes IH]; intros ary.
  - reflexivity.
  - rewrite list_sum_cons. cbn [cut_sections concat]. now rewrite IH, firstn_plus.
Qed.

Lemma length_cut_sections {A} (sizes : list nat) : forall ary : list A,
  length (cut_sections ary sizes) = length sizes.
Proof. induction sizes as [|n sizes IH]; intros ary; cbn; auto. Qed.

Lemma list_sum_repeat (x n : nat) : list_sum (repeat x n) = n * x.
Proof.
  induction n as [|n IH]; [reflexivity|].
  cbn [repeat]. rewrite list_sum_cons, IH. lia.
Qed.

Lemma last_item_app_one {A} (l : list A) (x : A) : last_item (l ++ [x]) = Ret x.
Proof.
  assert (Hlen : length (l ++ [x]) = S (length l)) by (rewrite length_app; cbn [length]; lia).
  unfold last_item. rewrite item_wraps by lia.
  rewrite item_in_range by lia.
  replace (Z.to_nat (-1 + Z.of_nat (length (l ++ [x])))) with (length l) by lia.
  rewrite nth_error_app2 by lia. now rewrite Nat.sub_diag.
Qed.

(** [np.array_split] with a positive number of sections: the sections
    before the last, and the last one, which has the smaller size. *)
Lemma array_split_last {A} (ary : list A) (sections : Z) :
  (0 < sections)%Z ->
  exists init,
    array_split ary sections
    = Ret (init ++ [skipn (length ary - length ary / Z.to_nat sections) ary]) /\
    concat init = firstn (length ary - length ary / Z.to_nat sections) ary /\
    length init = Z.to_nat sections - 1.
Proof.
  intros Hs. unfold array_split.
  destruct (Z.leb_spec sections 0) as [|_]; [lia|].
  set (n := Z.to_nat sections). set (each := length ary / n).
  set (extras := length ary mod n).
  assert (Hn : 0 < n) by (unfold n; lia).
  pose proof (Nat.div_mod_eq (length ary) n) as Hdm. fold each extras in Hdm.
  pose proof (Nat.mod_upper_bound (length ary) n ltac:(lia)) as Hmod. fold extras in Hmod.
  replace (repeat each (n - extras)) with (repeat each (n - extras - 1) ++ [each]).
  2: { replace (n - extras) with (n - extras - 1 + 1) at 2 by lia.
       now rewrite repeat_app. }
  rewrite app_assoc, cut_sections_app.
  set (sizes := repeat (S each) extras ++ repeat each (n - extras - 1)).
  assert (Hsum : list_sum sizes = length ary - each).
  { unfold sizes. rewrite list_sum_app, !list_sum_repeat. nia. }
  exists (cut_sections ary sizes). split; [|split].
  - rewrite Hsum. cbn [cut_sections]. do 3 f_equal.
    apply firstn_all2. rewrite length_skipn. nia.
  - now rewrite concat_cut_sections, Hsum.
  - rewrite length_cut_sections. unfold sizes.
    rewrite length_app, !repeat_length. lia.
Qed.

Lemma In_arange lo hi i : In i (arange lo hi) -> (lo <= i < hi)%Z.
Proof.
  unfold arange. rewrite in_map_iff. intros (k & <- & Hk).
  apply in_seq in Hk. lia.
Qed.

Lemma split_indices_raises (n_rows model_timesteps num_cvs : Z) :
  (num_cvs <= 0)%Z -> split_indices n_rows model_timesteps num_cvs = Raise ValueError.
Proof.
  intros Hn. unfold split_indices, array_split.
  destruct (Z.leb_spec num_cvs 0); [reflexivity | lia].
Qed.

Lemma split_indices_blocks (n_rows model_timesteps num_cvs : Z) :
  (0 < num_cvs)%Z ->
  let k := Z.to_nat (n_rows - model_timesteps)
           - Z.to_nat (n_rows - model_timesteps) / Z.to_nat num_cvs in
  split_indices n_rows model_timesteps num_cvs
  = Ret (firstn k (arange 0 (n_rows - model_timesteps)),
         skipn k (arange 0 (n_rows - model_timesteps))).
Proof.
  intros Hn k. unfold split_indices.
  destruct (array_split_last (arange 0 (n_rows - model_timesteps)) num_cvs Hn)
    as (init & -> & Hc & Hl).
  cbn [bind]. rewrite removelast_last, last_item_app_one. cbn [bind].
  rewrite arange_length, Z.sub_0_r in *. fold k in Hc |- *. now rewrite Hc.
Qed.

Lemma split_indices_inv (n_rows model_timesteps num_cvs : Z) tr te :
  split_indices n_rows model_timesteps num_cvs = Ret (tr, te) ->
  (0 < num_cvs)%Z /\
  tr ++ te = arange 0 (n_rows - model_timesteps) /\
  length te = Z.to_nat (n_rows - model_timesteps) / Z.to_nat num_cvs.
Proof.
  intros H.
  destruct (Z.le_gt_cases num_cvs 0) as [Hn | Hn].
  { rewrite split_indices_raises in H by assumption. discriminate. }
  rewrite split_indices_blocks in H by lia. inversion H; subst; clear H.
  split; [lia|]. split; [apply firstn_skipn|].
  rewrite length_skipn, arange_length, Z.sub_0_r.
  assert (Z.to_nat (n_rows - model_timesteps) / Z.to_nat num_cvs
          <= Z.to_nat (n_rows - model_timesteps)); [|lia].
  apply Nat.Div0.div_le_upper_bound. nia.
Qed.

(** X12.  The split both scripts make before they create the datasets.  The
    candidate window starts are [0 .. T - model_timesteps - 1] for the [T]
    rows of the recording; [np.array_split] cuts them into [num_cvs]
    contiguous blocks, the training indices are all blocks but the last
    and the test indices the last block.  So training and test indices
    together are the candidates, each once and in order, every training
    index lies before every test index, and the test block holds
    [(T - model_timesteps) // num_cvs] of them.  A [num_cvs] of 0 or less
    is a [ValueError]. *)
Theorem split_is_a_contiguous_partition (n_rows model_timesteps num_cvs : Z) :
  ((num_cvs <= 0)%Z -> split_indices n_rows model_timesteps num_cvs = Raise ValueError) /\
  ((0 < num_cvs)%Z ->
   exists tr te,
     split_indices n_rows model_timesteps num_cvs = Ret (tr, te) /\
     tr ++ te = arange 0 (n_rows - model_timesteps) /\
     NoDup (tr ++ te) /\
     (forall i j, In i tr -> In j te -> (i < j)%Z) /\
     length te = Z.to_nat (n_rows - model_timesteps) / Z.to_nat num_cvs).
Proof.
  split; intros Hn; [now apply split_indices_raises|].
  pose proof (split_indices_blocks n_rows model_timesteps num_cvs Hn) as E.
  cbv zeta in E.
  set (k := Z.to_nat (n_rows - model_timesteps)
            - Z.to_nat (n_rows - model_timesteps) / Z.to_nat num_cvs) in *.
  exists (firstn k (arange 0 (n_rows - model_timesteps))),
    (skipn k (arange 0 (n_rows - model_timesteps))).
  destruct (split_indices_inv _ _ _ _ _ E) as (_ & Happ & Hlen).
  split; [exact E|]. split; [exact Happ|]. split; [|split; [|exact Hlen]].
  - rewrite Happ. unfold arange.
    apply Finite.Injective_map_NoDup; [|apply seq_NoDup].
    intros a b. lia.
  - intros i j Hi Hj.
    apply In_nth_error in Hi as (a & Ha). apply In_nth_error in Hj as (b & Hb).
    assert (Ha' : a < k).
    { assert (Hlt : a < length (firstn k (arange 0 (n_rows - model_timesteps))))
        by (apply nth_error_Some; congruence).
      rewrite length_firstn in Hlt. lia. }
    rewrite nth_error_firstn in Ha.
    destruct (Nat.ltb_spec a k); [|lia].
    rewrite nth_error_skipn in Hb.
    assert (Hb' : k + b < Z.to_nat (n_rows - model_timesteps - 0)).
    { rewrite <- arange_length. apply nth_error_Some. congruence. }
    rewrite arange_nth in Ha, Hb by lia.
    inversion Ha; inversion Hb; subst. lia.
Qed.

(** X13.  Every index of the split starts a window of [model_timesteps] rows
    that lies inside the recording: [get_input_sample] returns for it.
    The last window of the recording, the one that starts at
    [T - model_timesteps], is not among them. *)
Theorem split_windows_lie_inside_the_recording
    (n_rows model_timesteps num_cvs : Z) tr te self i :
  split_indices n_rows model_timesteps num_cvs = Ret (tr, te) ->
  Z.of_nat (length (rows (wavelets self))) = n_rows ->
  In i (tr ++ te) ->
  (0 <= i /\ i + model_timesteps < n_rows)%Z /\
  returns (get_input_sample self (arange i (i + model_timesteps))).
Proof.
  intros Hsplit HT Hi.
  apply split_indices_inv in Hsplit as (_ & Happ & _).
  rewrite Happ in Hi. apply In_arange in Hi.
  split; [lia|].
  assert (Hsel : returns (take (rows (wavelets self)) (arange i (i + model_timesteps)))).
  { apply take_returns_iff, Forall_forall. intros j Hj. apply In_arange in Hj. lia. }
  destruct Hsel as (sel & Hsel). unfold get_input_sample. rewrite Hsel.
  cbn [bind]. now eexists.
Qed.

(** X14.  With more blocks than candidate window starts the test block is
    empty, and no dataset can be created over it: a view draws a sample at
    one of its indices while it is built. *)
Theorem more_blocks_than_indices_leave_no_test_index
    (n_rows model_timesteps num_cvs : Z) tr te :
  split_indices n_rows model_timesteps num_cvs = Ret (tr, te) ->
  (n_rows - model_timesteps < num_cvs)%Z ->
  te = [] /\
  forall fuel o h half g,
    testing_indices o = te ->
    ~ returns (create_train_and_test_datasets atan2 fuel o h half g).
Proof.
  intros Hsplit Hlt.
  apply split_indices_inv in Hsplit as (Hn & _ & Hlen).
  assert (Hte : te = []).
  { apply length_zero_iff_nil. rewrite Hlen. apply Nat.div_small. lia. }
  split; [exact Hte|].
  intros fuel o h half g Ho ([[trv tev] g'] & H).
  unfold create_train_and_test_datasets in H.
  inv_bind H as [tr0 g0] Htr. inv_bind H as half' Hh.
  inv_bind H as [te0 g1] Hte0.
  apply init_inv in Hte0 as (w & outs & mean & std & j & _ & _ & Hj & _).
  rewrite Ho, Hte in Hj. contradiction.
Qed.

End SplitFacts.

(** * The wrapper modules of the decoder *)

Section LayerFacts.

Import Layers.
Local Open Scope list_scope.

Variable A : Type.

Local Abbreviation tensor := (Layers.tensor A).
Local Abbreviation TimeDistributed_forward := (Layers.TimeDistributed_forward A).
Local Abbreviation TimeDistributedFlatten_forward := (Layers.TimeDistributedFlatten_forward A).
Local Abbreviation sequence := (Layers.sequence A).
Local Abbreviation keeps_batch := (Layers.keeps_batch A).
Local Abbreviation reshape := (Layers.reshape A).

Lemma numel_merge (s0 s1 : nat) (rest : list nat) :
  numel (s0 * s1 :: rest) = numel (s0 :: s1 :: rest).
Proof. cbn [numel fold_right]. now rewrite Nat.mul_assoc. Qed.

Lemma reshape_merge (x : tensor) (s0 s1 : nat) (rest : list nat) :
  shape x = s0 :: s1 :: rest ->
  reshape x (s0 * s1 :: rest) = Some {| shape := s0 * s1 :: rest; data := data x |}.
Proof.
  intros Hs. unfold Layers.reshape. now rewrite Hs, numel_merge, Nat.eqb_refl.
Qed.

Lemma reshape_split (y : tensor) (s0 s1 : nat) (rest : list nat) :
  shape y = s0 * s1 :: rest ->
  reshape y (s0 :: s1 :: rest) = Some {| shape := s0 :: s1 :: rest; data := data y |}.
Proof.
  intros Hs. unfold Layers.reshape. now rewrite Hs, numel_merge, Nat.eqb_refl.
Qed.

(** What [TimeDistributed.forward] computes on five dimensions. *)
Lemma TimeDistributed_on_5d m (x : tensor) s0 s1 s2 s3 s4 :
  shape x = [s0; s1; s2; s3; s4] ->
  TimeDistributed_forward m x
  = match m {| shape := [s0 * s1; s2; s3; s4]; data := data x |} with
    | Some y =>
        match shape y with
        | _ :: c :: h :: w :: _ => reshape y [s0; s1; c; h; w]
        | _ => None
        end
    | None => None
    end.
Proof.
  intros Hs. unfold Layers.TimeDistributed_forward, dim. rewrite Hs.
  cbn [length Nat.leb nth_error and_then].
  rewrite (reshape_merge x s0 s1 [s2; s3; s4] Hs). cbn [and_then].
  destruct (m _) as [y|]; cbn [and_then]; [|reflexivity].
  destruct (shape y) as [|n [|c [|h [|w rest]]]]; reflexivity.
Qed.

(** X21.  [TimeDistributed] merges the first two axes of a five-dimensional
    tensor for the wrapped module and splits them again afterwards, and
    the split undoes the merge: wrapping two modules one after the other
    is wrapping their sequence, and wrapping the identity is the
    identity.  An input of three or four dimensions is an error, whatever
    the module. *)
Theorem TimeDistributed_restores_the_merged_axes (x : tensor) :
  (length (shape x) = 5 ->
   (forall m1 m2, keeps_batch m1 ->
      sequence (TimeDistributed_forward m1) (TimeDistributed_forward m2) x
      = TimeDistributed_forward (sequence m1 m2) x) /\
   TimeDistributed_forward Some x = Some x) /\
  (length (shape x) = 3 \/ length (shape x) = 4 ->
   forall m, TimeDistributed_forward m x = None).
Proof.
  split.
  - intros H5. destruct x as [s d]. cbn [shape] in H5.
    destruct s as [|s0 [|s1 [|s2 [|s3 [|s4 [|? ?]]]]]]; try discriminate. clear H5.
    split.
    + intros m1 m2 Hk. unfold Layers.sequence at 1.
      rewrite (TimeDistributed_on_5d m1 {| shape := [s0; s1; s2; s3; s4]; data := d |}
                 s0 s1 s2 s3 s4 eq_refl).
      rewrite (TimeDistributed_on_5d (Layers.sequence A m1 m2)
                 {| shape := [s0; s1; s2; s3; s4]; data := d |} s0 s1 s2 s3 s4 eq_refl).
      cbn [data]. unfold Layers.sequence.
      destruct (m1 {| shape := [s0 * s1; s2; s3; s4]; data := d |}) as [y|] eqn:E1;
        cbn [and_then]; [|reflexivity].
      destruct (Hk _ _ E1) as (c & h & w & Hy). cbn [shape hd] in Hy.
      rewrite Hy, (reshape_split y s0 s1 [c; h; w] Hy). cbn [and_then].
      rewrite (TimeDistributed_on_5d m2 {| shape := [s0; s1; c; h; w]; data := data y |}
                 s0 s1 c h w eq_refl).
      cbn [data]. destruct y as [sy dy]. cbn [shape data] in *. now rewrite Hy.
    + rewrite (TimeDistributed_on_5d Some {| shape := [s0; s1; s2; s3; s4]; data := d |}
                 s0 s1 s2 s3 s4 eq_refl).
      cbn [shape data].
      exact (reshape_split {| shape := [s0 * s1; s2; s3; s4]; data := d |}
               s0 s1 [s2; s3; s4] eq_refl).
  - intros H34 m. unfold Layers.TimeDistributed_forward, dim.
    destruct (shape x) as [|s0 [|s1 [|s2 [|s3 [|s4 ?]]]]]; cbn [length] in H34;
      try (destruct H34; discriminate); reflexivity.
Qed.

(** X22.  [TimeDistributedFlatten] is one reshape: on five dimensions
    [(s0, s1, s2, s3, s4)] it returns the same entries in the same order
    with the sizes [(s0, s1, s2 * s3 * s4)], and it always succeeds there;
    with fewer than five dimensions it is an error. *)
Theorem TimeDistributedFlatten_is_one_reshape (x : tensor) :
  (forall s0 s1 s2 s3 s4, shape x = [s0; s1; s2; s3; s4] ->
     TimeDistributedFlatten_forward x
     = Some {| shape := [s0; s1; s2 * s3 * s4]; data := data x |} /\
     TimeDistributedFlatten_forward x = reshape x [s0; s1; s2 * s3 * s4]) /\
  (length (shape x) < 5 -> TimeDistributedFlatten_forward x = None).
Proof.
  split.
  - intros s0 s1 s2 s3 s4 Hs.
    assert (E : TimeDistributedFlatten_forward x
                = Some {| shape := [s0; s1; s2 * s3 * s4]; data := data x |}).
    { unfold Layers.TimeDistributedFlatten_forward, dim. rewrite Hs.
      cbn [nth_error and_then].
      rewrite (reshape_merge x s0 s1 [s2; s3; s4] Hs).
      cbn [and_then flatten_1_3 shape data nth_error].
      exact (reshape_split {| shape := [s0 * s1; s2 * s3 * s4]; data := data x |}
               s0 s1 [s2 * s3 * s4] eq_refl). }
    split; [exact E|]. rewrite E. unfold Layers.reshape. rewrite Hs.
    replace (numel [s0; s1; s2 * s3 * s4] =? numel [s0; s1; s2; s3; s4]) with true;
      [reflexivity|].
    symmetry. apply Nat.eqb_eq. cbn [numel fold_right]. ring.
  - intros Hlt. unfold Layers.TimeDistributedFlatten_forward, dim.
    destruct (shape x) as [|s0 [|s1 [|s2 [|s3 [|s4 ?]]]]]; cbn [length] in Hlt;
      try reflexivity.
    lia.
Qed.

End LayerFacts.

(** * Further properties of the decoder *)

(** ** The order of the calls *)

Section DecoderOrderFacts.

Import Networks DecoderOrder.
Local Open Scope string_scope.
Local Open Scope list_scope.

Local Infix "+++" := String.append (at level 60, right associativity).

Lemma add_conv_pair_order tg b c n :
  b_conv_order (fst (add_conv_pair tg (b, c) n)) = b_conv_order b ++ conv_pair_names n.
Proof. reflexivity. Qed.

Lemma fold_conv_pair_order tg l : forall st,
  b_conv_order (fst (fold_left (add_conv_pair tg) l st))
  = b_conv_order (fst st) ++ flat_map conv_pair_names l.
Proof.
  induction l as [|n l IH]; intros [b c]; cbn [fold_left flat_map fst].
  - now rewrite app_nil_r.
  - rewrite IH, add_conv_pair_order. now rewrite <- app_assoc.
Qed.

Lemma add_after_tsr_order tg fuel : forall b c H k,
  b_conv_order (fst (add_after_tsr fuel tg b c H k))
  = b_conv_order b ++ flat_map after_tsr_names (seq k (halving_rounds fuel H)).
Proof.
  induction fuel as [|fuel IH]; intros b c H k; cbn [add_after_tsr halving_rounds].
  - cbn. now rewrite app_nil_r.
  - destruct (2 <? H)%Z.
    + rewrite IH. cbn [b_conv_order seq flat_map]. now rewrite <- app_assoc.
    + cbn. now rewrite app_nil_r.
Qed.

Lemma round_half_at_least_two H : (2 < H)%Z -> (2 <= round_half H < H)%Z.
Proof.
  intros HH. split; [|apply round_half_bounds; assumption].
  unfold round_half.
  pose proof (Z.div_mod H 2 ltac:(lia)) as Hdm.
  pose proof (Z.mod_pos_bound H 2 ltac:(lia)) as Hm.
  destruct (Z.even H) eqn:EH.
  - apply Z.even_spec in EH as (k & Hk). subst H.
    rewrite Z.mul_comm, Z.div_mul by lia. lia.
  - destruct (Z.even (H / 2)) eqn:Eq; [|lia].
    apply Z.even_spec in Eq as (k & Hk). lia.
Qed.

Lemma add_after_tsr_H tg fuel : forall b c H k,
  Z.to_nat H <= fuel ->
  snd (add_after_tsr fuel tg b c H k) = (if (2 <? H)%Z then 2 else H)%Z.
Proof.
  induction fuel as [|fuel IH]; intros b c H k Hf; cbn [add_after_tsr].
  - destruct (Z.ltb_spec 2 H); [lia | reflexivity].
  - destruct (Z.ltb_spec 2 H) as [HH | HH]; [|reflexivity].
    pose proof (round_half_at_least_two H HH) as Hr.
    rewrite IH by lia.
    destruct (Z.ltb_spec 2 (round_half H)); lia.
Qed.

Lemma add_after_tsr_fuel tg fuel : forall fuel' b c H k,
  Z.to_nat H <= fuel -> Z.to_nat H <= fuel' ->
  add_after_tsr fuel tg b c H k = add_after_tsr fuel' tg b c H k.
Proof.
  induction fuel as [|fuel IH]; intros [|fuel'] b c H k Hf Hf'; cbn [add_after_tsr];
    try reflexivity.
  - destruct (Z.ltb_spec 2 H); [lia | reflexivity].
  - destruct (Z.ltb_spec 2 H); [lia | reflexivity].
  - destruct (Z.ltb_spec 2 H) as [HH | HH]; [|reflexivity].
    pose proof (round_half_at_least_two H HH) as Hr.
    apply IH; lia.
Qed.

(** X16.  The loop [while H > 2: ... H = round(H/2)] of the constructor ends
    for every [H]: it makes the same rounds whatever bound at or above
    [H] limits them.  It makes none when [H] is 2 or less, and whenever
    it makes one it leaves [H] at 2, never at 1.  Each round appends two
    names to [conv_order]. *)
Theorem halving_loop_ends_at_two tg b c H k fuel :
  Z.to_nat H <= fuel ->
  add_after_tsr fuel tg b c H k = add_after_tsr (Z.to_nat H) tg b c H k /\
  snd (add_after_tsr fuel tg b c H k) = (if (2 <? H)%Z then 2 else H)%Z /\
  ((H <= 2)%Z -> add_after_tsr fuel tg b c H k = (b, H)) /\
  length (b_conv_order (fst (add_after_tsr fuel tg b c H k)))
  = length (b_conv_order b) + 2 * halving_rounds fuel H.
Proof.
  intros Hf. split; [apply add_after_tsr_fuel; lia|]. split; [now apply add_after_tsr_H|].
  split.
  - intros HH. destruct fuel as [|fuel]; cbn [add_after_tsr]; [reflexivity|].
    destruct (Z.ltb_spec 2 H); [lia | reflexivity].
  - rewrite add_after_tsr_order, length_app. f_equal.
    generalize (halving_rounds fuel H). intros r. revert k.
    induction r as [|r IH]; intros k; [reflexivity|].
    cbn [seq flat_map]. rewrite length_app, IH. cbn. lia.
Qed.

Lemma fold_dense_order tg key l : forall a o c,
  snd (fst (fold_left (add_dense tg key) l (a, o, c)))
  = o ++ flat_map (fun d =>
                     let name := "target_" +++ key +++ "_fc_" +++ fmt_nat d in
                     [name; name +++ "_activation"; name +++ "_dropout"]) l.
Proof.
  induction l as [|d l IH]; intros a o c; cbn [fold_left flat_map].
  - cbn. now rewrite app_nil_r.
  - unfold add_dense at 2. rewrite IH. now rewrite <- app_assoc.
Qed.

Lemma item_one_length (shape : list Z) (n : Z) : Numpy.item shape 1 = Ret n -> 2 <= length shape.
Proof.
  unfold Numpy.item. destruct (Numpy.normalize_index (length shape) 1) as [k|] eqn:E;
    [|discriminate].
  intros _. unfold Numpy.normalize_index in E.
  destruct (Z.leb_spec 0 1); [|lia]. cbn [andb] in E.
  destruct (Z.ltb_spec 1 (Z.of_nat (length shape))); [lia|].
  destruct (Z.leb_spec (- Z.of_nat (length shape)) 1), (Z.ltb_spec 1 0);
    cbn [andb] in E; try discriminate; lia.
Qed.

Lemma add_head_order tg H a orders key shape a' orders' :
  add_head tg H (a, orders) (key, shape) = Ret (a', orders') ->
  orders' = orders ++ [head_names tg key] /\ 2 <= length shape.
Proof.
  unfold add_head.
  pose proof (fold_dense_order tg key (seq 0 (Z.to_nat (num_dense tg))) a [] (256 * H)%Z) as Ho.
  destruct (fold_left (add_dense tg key) (seq 0 (Z.to_nat (num_dense tg))) (a, [], (256 * H)%Z))
    as [[a1 o1] c1].
  cbn [fst snd app] in Ho. subst o1.
  intros E. inv_bind E as out Hout. inversion E; subst.
  split; [reflexivity|]. eapply item_one_length; eauto.
Qed.

Lemma add_heads_order tg H heads : forall a orders a' orders',
  add_heads tg H (a, orders) heads = Ret (a', orders') ->
  orders' = orders ++ map (fun kv => head_names tg (fst kv)) heads /\
  Forall (fun kv => 2 <= length (snd kv)) heads.
Proof.
  induction heads as [|[key shape] heads IH]; cbn [add_heads map]; intros a orders a' orders' E.
  - inversion E; subst. now rewrite app_nil_r.
  - inv_bind E as [a1 o1] H1.
    apply add_head_order in H1 as (-> & Hs).
    apply IH in E as (-> & Hrest).
    split; [now rewrite <- app_assoc | constructor; auto].
Qed.

Variable log2_is_integer : Z -> bool.

Lemma init_orders tg self :
  Standard_Decoder_init log2_is_integer tg = Ret self ->
  (exists H,
     Numpy.item (input_shape tg) 0 = Ret H /\
     conv_order self
     = flat_map conv_pair_names (seq 0 (Z.to_nat (num_convs_tsr tg)))
       ++ "permute" :: flat_map after_tsr_names (seq 0 (halving_rounds (Z.to_nat H) H))) /\
  fc_orders self
  = map (fun kv => head_names tg (fst kv)) (combine (loss_functions tg) (outputs tg)) /\
  Forall (fun kv => 2 <= length (snd kv)) (combine (loss_functions tg) (outputs tg)).
Proof.
  unfold Standard_Decoder_init. intros E.
  inv_bind E as timesteps Ht. inv_bind E as u1 Hu1. inv_bind E as u2 Hu2.
  inv_bind E as input_channels Hic.
  match type of E with
  | context [fold_left (add_conv_pair tg) ?l ?st] =>
      pose proof (fold_conv_pair_order tg l st) as Hconv;
      destruct (fold_left (add_conv_pair tg) l st) as [b c]
  end.
  cbn [fst b_conv_order app] in Hconv.
  inv_bind E as H HH.
  match type of E with
  | context [add_after_tsr ?f tg ?b0 ?c0 H 0] =>
      pose proof (add_after_tsr_order tg f b0 c0 H 0) as Hafter;
      destruct (add_after_tsr f tg b0 c0 H 0) as [b' H']
  end.
  cbn [fst b_conv_order] in Hafter.
  inv_bind E as [a orders] Hheads. inversion E; subst; clear E.
  cbn [conv_order fc_orders].
  apply add_heads_order in Hheads as (-> & Hshapes). cbn [app].
  split.
  { exists H. split; [exact HH|]. rewrite Hafter, Hconv.
    now rewrite <- app_assoc. }
  split; [reflexivity | exact Hshapes].
Qed.

Lemma init_heads_count tg self :
  Standard_Decoder_init log2_is_integer tg = Ret self ->
  length (fc_orders self) = Nat.min (length (loss_functions tg)) (length (outputs tg)).
Proof.
  intros E. destruct (init_orders tg self E) as (_ & -> & _).
  now rewrite length_map, length_combine.
Qed.

(** X17.  The names a constructed decoder calls, and their order.  [conv_order]
    lists four names for each of the [num_convs_tsr] convolution pairs,
    then [permute], then two names for each round of the halving loop on
    the first entry of the input shape.  [fc_orders] has one entry for
    each pair of [zip(loss_functions.keys(), outputs)], so as many heads
    as the shorter of the two, and the entry of a target lists three names
    for each dense layer and the final projection.  Every output array
    that got a head has two dimensions at least. *)
Theorem decoder_call_order tg self :
  Standard_Decoder_init log2_is_integer tg = Ret self ->
  (exists H,
     Numpy.item (input_shape tg) 0 = Ret H /\
     conv_order self
     = flat_map conv_pair_names (seq 0 (Z.to_nat (num_convs_tsr tg)))
       ++ "permute" :: flat_map after_tsr_names (seq 0 (halving_rounds (Z.to_nat H) H))) /\
  fc_orders self
  = map (fun kv => head_names tg (fst kv)) (combine (loss_functions tg) (outputs tg)) /\
  length (fc_orders self) = Nat.min (length (loss_functions tg)) (length (outputs tg)) /\
  Forall (fun kv => 2 <= length (snd kv)) (combine (loss_functions tg) (outputs tg)) /\
  Forall (fun o => length o = 3 * Z.to_nat (num_dense tg) + 1) (fc_orders self).
Proof.
  intros E. destruct (init_orders tg self E) as (Hc & Hf & Hs).
  split; [exact Hc|]. split; [exact Hf|]. split; [now apply init_heads_count|].
  split; [exact Hs|].
  rewrite Hf. apply Forall_forall. intros o Ho. apply in_map_iff in Ho as (kv & <- & _).
  assert (Hl : forall (g : nat -> list string) l,
            (forall d, length (g d) = 3) -> length (flat_map g l) = 3 * length l).
  { intros g l Hg. induction l as [|d l IH]; cbn [flat_map length]; [reflexivity|].
    rewrite length_app, Hg, IH. lia. }
  unfold head_names. rewrite length_app, Hl, length_seq by reflexivity. reflexivity.
Qed.

(** *** The submodules the constructor names itself *)

Lemma lookup_setattr a n l m :
  lookup (setattr a n l) m = if n =? m then Some l else lookup a m.
Proof.
  induction a as [|[n' l'] a IH]; cbn [setattr lookup]; [reflexivity|].
  destruct (String.eqb_spec n' n) as [-> | Hne]; cbn [lookup].
  - destruct (n =? m); reflexivity.
  - rewrite IH. destruct (String.eqb_spec n' m) as [-> | Hm]; [|reflexivity].
    destruct (String.eqb_spec n m) as [-> | _]; [contradiction | reflexivity].
Qed.

Ltac fixed_cases Hm :=
  cbn in Hm; destruct Hm as [<- | [<- | [<- | [<- | [<- | []]]]]].

Lemma add_conv_pair_keeps tg m st n :
  In m (map fst fixed_submodules) ->
  lookup (b_attrs (fst (add_conv_pair tg st n))) m = lookup (b_attrs (fst st)) m.
Proof.
  intros Hm. destruct st as [b c]. unfold add_conv_pair. cbn [fst b_attrs].
  rewrite !lookup_setattr. fixed_cases Hm; reflexivity.
Qed.

Lemma add_after_tsr_keeps tg m fuel : forall b c H k,
  In m (map fst fixed_submodules) ->
  lookup (b_attrs (fst (add_after_tsr fuel tg b c H k))) m = lookup (b_attrs b) m.
Proof.
  induction fuel as [|fuel IH]; intros b c H k Hm; cbn [add_after_tsr]; [reflexivity|].
  destruct (2 <? H)%Z; [|reflexivity].
  rewrite IH by assumption. cbn [b_attrs]. rewrite !lookup_setattr.
  fixed_cases Hm; reflexivity.
Qed.

Lemma add_dense_keeps tg key m st d :
  In m (map fst fixed_submodules) ->
  lookup (fst (fst (add_dense tg key st d))) m = lookup (fst (fst st)) m.
Proof.
  intros Hm. destruct st as [[a o] c]. unfold add_dense. cbn [fst].
  rewrite !lookup_setattr. fixed_cases Hm; reflexivity.
Qed.

Lemma fold_dense_keeps tg key m l : forall st,
  In m (map fst fixed_submodules) ->
  lookup (fst (fst (fold_left (add_dense tg key) l st))) m = lookup (fst (fst st)) m.
Proof.
  induction l as [|d l IH]; intros st Hm; cbn [fold_left]; [reflexivity|].
  rewrite IH by assumption. now apply add_dense_keeps.
Qed.

Lemma add_head_keeps tg H m st head st' :
  In m (map fst fixed_submodules) -> add_head tg H st head = Ret st' -> lookup (fst st') m = lookup (fst st) m.
Proof.
  intros Hm. destruct st as [a orders], head as [key shape]. unfold add_head.
  pose proof (fold_dense_keeps tg key m (seq 0 (Z.to_nat (num_dense tg)))
                (a, [], (256 * H)%Z) Hm) as Hf.
  destruct (fold_left (add_dense tg key) (seq 0 (Z.to_nat (num_dense tg))) (a, [], (256 * H)%Z))
    as [[a1 o1] c1].
  cbn [fst] in Hf |- *. intros E. inv_bind E as out Hout. inversion E; subst. cbn [fst].
  rewrite lookup_setattr, <- Hf. fixed_cases Hm; reflexivity.
Qed.

Lemma add_heads_keeps tg H m heads : forall st st',
  In m (map fst fixed_submodules) -> add_heads tg H st heads = Ret st' -> lookup (fst st') m = lookup (fst st) m.
Proof.
  induction heads as [|head heads IH]; cbn [add_heads]; intros st st' Hm E.
  - now inversion E.
  - inv_bind E as st1 H1. rewrite (IH _ _ Hm E). eapply add_head_keeps; eauto.
Qed.

Lemma fold_conv_pair_keeps tg m l : forall st,
  In m (map fst fixed_submodules) ->
  lookup (b_attrs (fst (fold_left (add_conv_pair tg) l st))) m = lookup (b_attrs (fst st)) m.
Proof.
  induction l as [|n l IH]; intros st Hm; cbn [fold_left]; [reflexivity|].
  rewrite IH by assumption. now apply add_conv_pair_keeps.
Qed.

Section Calls.

Variable tensor : Type.
Variable apply_layer : layer -> tensor -> tensor.

(** X18.  The submodules the constructor stores under names of its own are
    still there when it returns: no layer of a loop, whatever the target
    names, takes the place of [gaussian_noise], [dropout], [sim],
    [permute] or [flatten].  In particular the dropout [forward] applies
    after every step of the trunk and before every later step of a head is
    [Dropout(p=0.0)], whatever [dropout_ratio] the options give. *)
Theorem constructor_keeps_its_own_submodules tg self :
  Standard_Decoder_init log2_is_integer tg = Ret self ->
  (forall name l, In (name, l) fixed_submodules -> lookup (attrs self) name = Some l) /\
  (forall x, call tensor apply_layer self "dropout" x = Ret (apply_layer (Dropout 0) x)).
Proof.
  intros E.
  assert (Hall : forall name l, In (name, l) fixed_submodules ->
                                lookup (attrs self) name = Some l).
  { unfold Standard_Decoder_init in E.
    inv_bind E as timesteps Ht. inv_bind E as u1 Hu1. inv_bind E as u2 Hu2.
    inv_bind E as input_channels Hic.
    match type of E with
    | context [fold_left (add_conv_pair tg) ?l ?st] =>
        pose proof (fun m => fold_conv_pair_keeps tg m l st) as Hconv;
        destruct (fold_left (add_conv_pair tg) l st) as [b c]
    end.
    cbn [fst b_attrs] in Hconv.
    inv_bind E as H HH.
    match type of E with
    | context [add_after_tsr ?f tg ?b0 ?c0 H 0] =>
        pose proof (fun m => add_after_tsr_keeps tg m f b0 c0 H 0) as Hafter;
        destruct (add_after_tsr f tg b0 c0 H 0) as [b' H']
    end.
    cbn [fst b_attrs] in Hafter.
    inv_bind E as [a orders] Hheads. inversion E; subst; clear E. cbn [attrs].
    pose proof (fun m Hm => add_heads_keeps tg _ m _ _ _ Hm Hheads) as Hh.
    cbn [fst] in Hh.
    intros name l Hin.
    assert (Hm : In name (map fst fixed_submodules))
      by (apply (in_map fst) in Hin; exact Hin).
    rewrite (Hh name Hm), lookup_setattr, (Hafter name Hm), lookup_setattr, (Hconv name Hm).
    cbn in Hin.
    destruct Hin as [Hin | [Hin | [Hin | [Hin | [Hin | []]]]]]; inversion Hin; subst;
      reflexivity. }
  split; [exact Hall|].
  intros x. unfold call, getattr.
  rewrite (Hall "dropout" (Dropout 0)) by (cbn; auto). reflexivity.
Qed.

End Calls.

End DecoderOrderFacts.

(** ** What forward returns *)

Section ForwardShape.

Import Networks.
Import Stdlib.Reals.Reals.
Local Open Scope string_scope.
Local Open Scope list_scope.

Variable tensor : Type.
Variable apply_layer : layer -> tensor -> tensor.
Variables permute_input squeeze1 : tensor -> tensor.
Variable features : tensor -> list (list R).

Local Abbreviation call := (Networks.call tensor apply_layer).
Local Abbreviation run_fc_orders := (Networks.run_fc_orders tensor apply_layer squeeze1).
Local Abbreviation forward :=
  (Networks.forward tensor apply_layer permute_input squeeze1 features).

Lemma run_fc_orders_length self flat_x orders : forall ffc outs ffcs outs' ffcs',
  run_fc_orders self orders flat_x ffc outs ffcs = Ret (outs', ffcs') ->
  length outs' = (length outs + length orders)%nat.
Proof.
  induction orders as [|o orders IH]; intros ffc outs ffcs outs' ffcs' H;
    cbn [Networks.run_fc_orders] in H.
  - inversion H; subst. cbn. lia.
  - inv_bind H as first Hfirst. inv_bind H as x Hx.
    inv_bind H as [x' ffc1] Hsteps. inv_bind H as f Hf.
    apply IH in H. rewrite H, length_app. cbn. lia.
Qed.



End ForwardShape.

(** ** Examples for the further properties *)

Section MoreDatasetWitnesses.

Import Numpy WaveletData DatasetViews DatasetExamples MoreExamples Scripts.
Local Open Scope string_scope.
Local Open Scope list_scope.
Local Open Scope float_scope.

(** At height 0.5 the filter [top] accepts and [bottom] rejects. *)
Lemma opposite_filters_witness :
  exists q,
    filter_quantity "top" [Vec [3; 0.5]] = Ret q /\
    (is_nan q = false -> _accept_output [Vec [3; 0.5]] (Some "bottom") = Ret (negb true)) /\
    (is_nan q = true -> true = false /\ _accept_output [Vec [3; 0.5]] (Some "bottom") = Ret false).
Proof.
  apply (opposite_filters_are_complementary [Vec [3; 0.5]] "top" "bottom" true);
    reflexivity.
Defined.

(** A NaN height is rejected by [top] and by [bottom]. *)
Example nan_is_rejected_by_both :
  _accept_output [Vec [3; nan]] (Some "top") = Ret false /\
  _accept_output [Vec [3; nan]] (Some "bottom") = Ret false.
Proof. split; reflexivity. Qed.

Example create_bottom_and_top :
  create_train_and_test_datasets atan2_axes 1 (options ["position"]) (file step_up)
    (Some "bottom") zeros
  = Ret (bottom_view, top_view, zeros).
Proof. vm_compute. reflexivity. Qed.

Lemma views_witness :
  (cv_indices bottom_view = [1; 2; 3]%Z /\ cv_indices top_view = [4]%Z) /\
  (WaveletDataset_len bottom_view = 3%nat /\ WaveletDataset_len top_view = 1%nat) /\
  (train_half bottom_view = Some "bottom" /\
   exists kw', opposite_half "bottom" = Ret kw' /\ train_half top_view = Some kw') /\
  (sample_size bottom_view = 2%Z /\ sample_size top_view = 2%Z).
Proof.
  destruct (views_index_their_own_split atan2_axes 1 (options ["position"]) (file step_up)
              (Some "bottom") zeros bottom_view top_view zeros)
    as (H1 & H2 & H3 & H4 & _).
  - vm_compute; reflexivity.
  - exact (conj H1 (conj H2 (conj H3 H4))).
Defined.

(** The training view filtered on [top]: the window of its first index
    ends at height 0, and the call for index 0 never ends. *)
Lemma rejected_index_witness :
  getitem atan2_axes 1000 (view (options ["position"]) step_up (Some "top") true) 0 zeros
  = Diverge /\
  _accept_output [Vec [2; 0]] (Some "top") = Ret false.
Proof.
  split; [|reflexivity].
  apply (rejected_index_is_retried_forever atan2_axes
           (view (options ["position"]) step_up (Some "top") true) 0 1 [Vec [2; 0]]);
    reflexivity.
Defined.

Lemma index_bounds_witness :
  getitem atan2_axes 1 (view (options all_targets) walk_x None true) 3 zeros
  = Raise IndexError /\
  getitem atan2_axes 1 (view (options all_targets) walk_x None true) (-2) zeros
  = getitem atan2_axes 1 (view (options all_targets) walk_x None true) (-2 + 3) zeros.
Proof.
  destruct (getitem_reads_its_index atan2_axes (view (options all_targets) walk_x None true))
    as (Hn & _).
  destruct (Hn eq_refl 3%Z) as (Hout & _).
  destruct (Hn eq_refl (-2)%Z) as (_ & Hwrap).
  split.
  - apply Hout. cbn. lia.
  - apply (Hwrap ltac:(cbn; lia) 1%nat zeros).
Defined.

Lemma input_window_witness :
  returns (get_input_sample (view (options all_targets) walk_x None true) [-1; 0]%Z) /\
  ~ returns (get_input_sample (view (options all_targets) walk_x None true) [5; 6]%Z).
Proof.
  destruct (input_window_layout (view (options all_targets) walk_x None true) [-1; 0]%Z)
    as (Hin & _).
  destruct (input_window_layout (view (options all_targets) walk_x None true) [5; 6]%Z)
    as (Hout & _).
  split.
  - apply Hin. repeat constructor; cbn; lia.
  - intros H. apply Hout in H. inversion H as [|? ? _ H6]; subst.
    inversion H6 as [|? ? Hr _]; subst. cbn in Hr. lia.
Defined.

Lemma prev_ind_witness :
  (exists idx,
     prev_ind (set_prev_ind (view (options all_targets) walk_x None true) 2) = Some idx /\
     In idx [1; 2; 3]%Z) /\
  est_mean (set_prev_ind (view (options all_targets) walk_x None true) 2) = [[4; 7]] /\
  est_std (set_prev_ind (view (options all_targets) walk_x None true) 2) = [[2; 0]].
Proof.
  destruct (getitem_only_sets_prev_ind atan2_axes 1
              (view (options all_targets) walk_x None true) 1 zeros
              [[[[0]]; [[2]]]; [[[nan]]; [[nan]]]]
              [Vec [3; 0.5]; Scalar 0; Scalar 1]
              (set_prev_ind (view (options all_targets) walk_x None true) 2) zeros)
    as (H1 & _ & _ & _ & _ & _ & _ & H2 & H3 & _).
  - vm_compute; reflexivity.
  - exact (conj H1 (conj H2 H3)).
Defined.

Lemma position_label_witness :
  length [Vec [3; 0.5]; Scalar 0; Scalar 1] = 3%nat /\
  exists idx row,
    In idx [1; 2; 3]%Z /\
    get_input_sample (view (options all_targets) walk_x None true) (arange idx (idx + 2))
    = Ret [[[[0]]; [[2]]]; [[[nan]]; [[nan]]]] /\
    item walk_x (idx + 2 - 1) = Ret row /\
    nth_error [Vec [3; 0.5]; Scalar 0; Scalar 1] 0 = Some (Vec row).
Proof.
  apply (position_label_is_last_row_of_window atan2_axes 1
           (view (options all_targets) walk_x None true) 1 zeros
           [[[[0]]; [[2]]]; [[[nan]]; [[nan]]]]
           [Vec [3; 0.5]; Scalar 0; Scalar 1]
           (set_prev_ind (view (options all_targets) walk_x None true) 2) zeros
           0 walk_x).
  - reflexivity.
  - exact NoDup_all_targets.
  - reflexivity.
  - reflexivity.
  - vm_compute; reflexivity.
Defined.

(** The target name [velocity] is none of the four. *)
Lemma unknown_target_witness :
  (forall cut prev,
     ~ returns (get_output_sample atan2_axes
                  (view (options ["velocity"; "position"]) walk_x None true) cut prev)) /\
  get_output_sample atan2_axes (view (options ["velocity"; "position"]) walk_x None true)
    (arange 1 3) (arange 0 2) = Raise SystemExit.
Proof.
  destruct (unknown_target_name_is_fatal atan2_axes
              (view (options ["velocity"; "position"]) walk_x None true) 0 "velocity")
    as (H1 & _ & H3).
  - reflexivity.
  - cbn. intros [H | [H | [H | [H | []]]]]; discriminate.
  - cbn; lia.
  - split; [exact H1|].
    apply (H3 eq_refl (arange 1 3) (arange 0 2) scalars); [reflexivity | |];
      eexists; vm_compute; reflexivity.
Defined.

(** *** WaveletDatasetFrey *)

Example every_second_row :
  Frey.get_output_sample every_second (arange 1 5) = Ret [[[2; 0.5]; [4; 0.5]]] /\
  Frey.get_output_sample every_second (arange 1 4) = Ret [[[2; 0.5]]].
Proof. split; vm_compute; reflexivity. Qed.

Lemma average_output_witness :
  Forall2 (fun out lab =>
      exists cd,
        take out (arange 1 4) = Ret cd /\
        (2%Z = 0%Z -> lab = cd) /\
        ((2 < 0)%Z -> lab = []) /\
        ((0 < 2)%Z ->
         let a := Z.to_nat 2 in
         let n := length (arange 1 4) in
         length lab = (n / a)%nat /\
         (forall j, (j < n / a)%nat -> nth_error lab j = nth_error cd ((j + 1) * a - 1)) /\
         (n mod a = 0 -> 0 < n -> nth_error lab (n / a - 1) = nth_error cd (n - 1))%nat /\
         (n mod a <> 0 -> forall j, j < n / a -> (j + 1) * a - 1 < n - 1)%nat))
    [walk_x] [[[2; 0.5]]].
Proof.
  apply (average_output_keeps_every_ath_row every_second (arange 1 4) [[[2; 0.5]]]).
  vm_compute; reflexivity.
Defined.

Lemma frey_getitem_witness :
  exists start,
    In start [1; 2; 3]%Z /\
    get_input_sample (view (options ["position"]) walk_x None true) (arange start (start + 2))
    = Ret [[[[-1]]; [[0]]]; [[[nan]]; [[nan]]]] /\
    Forall2 (fun out lab =>
        (2%Z = 0%Z -> take out (arange start (start + 2)) = Ret lab) /\
        ((0 < 2)%Z ->
         let a := Z.to_nat 2 in
         length lab = (Z.to_nat 2 / a)%nat /\
         forall j, (j < length lab)%nat ->
           exists row, nth_error lab j = Some row /\
                       item out (start + Z.of_nat ((j + 1) * a - 1)) = Ret row))
      [walk_x] [[[2; 0.5]]].
Proof.
  apply (frey_labels_follow_the_input_window every_second 0 zeros
           [[[[-1]]; [[0]]]; [[[nan]]; [[nan]]]] [[[2; 0.5]]] zeros).
  - reflexivity.
  - vm_compute; reflexivity.
Defined.

(** *** The split of the indices *)

Example split_six_rows :
  split_indices 6 2 2 = Ret ([0; 1], [2; 3])%Z /\
  split_indices 6 2 3 = Ret ([0; 1; 2], [3])%Z /\
  split_indices 6 2 5 = Ret ([0; 1; 2; 3], [])%Z /\
  split_indices 6 2 0 = Raise ValueError.
Proof. repeat split; vm_compute; reflexivity. Qed.

Lemma split_witness :
  exists tr te,
    split_indices 6 2 3 = Ret (tr, te) /\
    tr ++ te = arange 0 (6 - 2) /\
    NoDup (tr ++ te) /\
    (forall i j, In i tr -> In j te -> (i < j)%Z) /\
    length te = (Z.to_nat (6 - 2) / Z.to_nat 3)%nat.
Proof.
  apply (proj2 (split_is_a_contiguous_partition 6 2 3)). lia.
Defined.

Lemma split_windows_witness :
  (0 <= 3 /\ 3 + 2 < 6)%Z /\
  returns (get_input_sample (view (options all_targets) walk_x None true) (arange 3 (3 + 2))).
Proof.
  apply (split_windows_lie_inside_the_recording 6 2 3 [0; 1; 2]%Z [3]%Z
           (view (options all_targets) walk_x None true) 3%Z).
  - vm_compute; reflexivity.
  - reflexivity.
  - cbn; auto.
Defined.

Lemma no_test_index_witness :
  @nil Z = [] /\
  forall fuel o h half g,
    testing_indices o = [] ->
    ~ returns (create_train_and_test_datasets atan2_axes fuel o h half g).
Proof.
  apply (more_blocks_than_indices_leave_no_test_index atan2_axes 6 2 5 [0; 1; 2; 3]%Z []).
  - vm_compute; reflexivity.
  - lia.
Defined.

End MoreDatasetWitnesses.

Section MoreDecoderWitnesses.

Import Networks DecoderOrder DecoderExamples MoreExamples Layers.
Local Open Scope string_scope.
Local Open Scope list_scope.

(** *** The wrapper modules *)

Lemma only_four_dims_keeps_batch : keeps_batch nat only_four_dims.
Proof.
  intros x y H. unfold only_four_dims in H.
  destruct (shape x) as [|n [|c [|h [|w [|? ?]]]]] eqn:E; try discriminate.
  inversion H; subst. rewrite E. now exists c, h, w.
Qed.

Lemma TimeDistributed_witness :
  sequence nat (TimeDistributed_forward nat only_four_dims)
    (TimeDistributed_forward nat only_four_dims) five_dims
  = TimeDistributed_forward nat (sequence nat only_four_dims only_four_dims) five_dims /\
  TimeDistributed_forward nat Some five_dims = Some five_dims.
Proof.
  destruct (TimeDistributed_restores_the_merged_axes nat five_dims) as (H5 & _).
  destruct (H5 eq_refl) as (Hseq & Hid).
  split; [|exact Hid].
  apply Hseq. exact only_four_dims_keeps_batch.
Defined.

Lemma TimeDistributedFlatten_witness :
  TimeDistributedFlatten_forward nat five_dims
  = Some {| shape := [1; 2; 1 * 2 * 2]; data := [1; 2; 3; 4; 5; 6; 7; 8] |}.
Proof.
  destruct (TimeDistributedFlatten_is_one_reshape nat five_dims) as (H5 & _).
  exact (proj1 (H5 1 2 1 2 2 eq_refl)).
Defined.

(** *** The decoder *)

(** From 5 the loop goes to 2 in one round ([round(2.5)] is 2), from 7 in
    two ([round(3.5)] is 4). *)
Example halving_examples :
  halving_rounds 5 5 = 1 /\ halving_rounds 7 7 = 2 /\ halving_rounds 2 2 = 0 /\
  round_half 5 = 2%Z /\ round_half 7 = 4%Z /\ round_half 3 = 2%Z.
Proof. repeat split. Qed.

Lemma halving_loop_witness :
  add_after_tsr 9 config {| b_attrs := []; b_conv_order := [] |} 64 5 0
  = add_after_tsr (Z.to_nat 5) config {| b_attrs := []; b_conv_order := [] |} 64 5 0 /\
  snd (add_after_tsr 9 config {| b_attrs := []; b_conv_order := [] |} 64 5 0)
  = (if (2 <? 5)%Z then 2 else 5)%Z.
Proof.
  destruct (halving_loop_ends_at_two config {| b_attrs := []; b_conv_order := [] |} 64 5 0 9)
    as (H1 & H2 & _).
  - cbn; lia.
  - exact (conj H1 H2).
Defined.

Lemma decoder_call_order_witness :
  conv_order decoder
  = ["conv_tsr_0"; "conv_tsr_0_activation"; "conv_fr_0"; "conv_fr_0_activation"; "permute";
     "conv_after_tsr_0"; "conv_after_tsr_0_activation"] /\
  fc_orders decoder
  = [["target_position_fc_0"; "target_position_fc_0_activation";
      "target_position_fc_0_dropout"; "target_position_fc_1"];
     ["target_direction_fc_0"; "target_direction_fc_0_activation";
      "target_direction_fc_0_dropout"; "target_direction_fc_1"]] /\
  length (fc_orders decoder) = 2.
Proof.
  destruct (decoder_call_order log2_table config decoder) as ((H & HH & Hc) & Hf & Hl & _).
  - vm_compute; reflexivity.
  - split; [|split; [exact Hf | exact Hl]].
    cbn in HH. inversion HH; subst H. exact Hc.
Defined.

Lemma own_submodules_witness :
  lookup (attrs decoder) "dropout" = Some (Dropout 0) /\
  lookup (attrs decoder) "flatten" = Some TimeDistributedFlatten /\
  call batch pass_on decoder "dropout" two_rows = Ret (pass_on (Dropout 0) two_rows).
Proof.
  destruct (constructor_keeps_its_own_submodules log2_table batch pass_on config decoder)
    as (Hall & Hcall).
  - vm_compute; reflexivity.
  - split; [|split].
    + apply Hall. cbn; auto.
    + apply Hall. cbn; auto 6.
    + apply Hcall.
Defined.


Example decoder_without_dense_constructed :
  Standard_Decoder_init log2_table config_without_dense = Ret decoder_without_dense /\
  fc_orders decoder_without_dense = [["target_position_fc_0"]; ["target_direction_fc_0"]].
Proof. split; vm_compute; reflexivity. Qed.


End MoreDecoderWitnesses.

(** * Errors at construction, and the loop over a view *)

Section ConstructionErrors.

Import Numpy WaveletData Scripts.
Local Open Scope string_scope.
Local Open Scope list_scope.

Variable atan2 : float -> float -> float.

Lemma mapM_first_error {A B} (f : A -> result B) (e : pyerr) (l : list A) :
  (forall a, In a l -> f a = Raise e \/ returns (f a)) ->
  (exists a, In a l /\ f a = Raise e) ->
  mapM f l = Raise e.
Proof.
  induction l as [|x l IH]; intros Hall (a & Hin & Ha); [contradiction|].
  cbn [mapM]. destruct (Hall x (or_introl eq_refl)) as [-> | (b & Hb)]; [reflexivity|].
  rewrite Hb. cbn [bind]. rewrite IH; [reflexivity | |].
  - intros y Hy. apply Hall. now right.
  - destruct Hin as [-> | Hin]; [congruence | eauto].
Qed.

(** X23.  A file that lacks the wavelet array, or the channel of one of the
    target names, is a [KeyError]: the constructors of both dataset
    classes and [create_train_and_test_datasets] raise it before they
    compute a statistic or draw a sample, whatever the other arguments. *)
Theorem missing_dataset_is_a_KeyError o h :
  inputs_wavelets h = None \/
  (exists key, In key (loss_functions o) /\ outputs_of h key = None) ->
  forall fuel training half g,
    WaveletDataset_init atan2 fuel o h training half g = Raise KeyError /\
    create_train_and_test_datasets atan2 fuel o h half g = Raise KeyError /\
    forall average, Frey.WaveletDatasetFrey_init o h training average g = Raise KeyError.
Proof.
  intros H fuel training half g.
  assert (Hinit : forall training half,
            WaveletDataset_init atan2 fuel o h training half g = Raise KeyError).
  { intros tr hf. unfold WaveletDataset_init.
    destruct (inputs_wavelets h) as [w|] eqn:Ew; [|reflexivity]. cbn [of_option bind].
    destruct H as [H | (key & Hin & Hkey)]; [discriminate|].
    assert (Hu : (match hf with
                  | Some kw => if in_list_eq_False kw ["top"; "bottom"; "inside"; "outside"]
                               then Raise SystemExit else Ret tt
                  | None => Ret tt
                  end) = Ret tt).
    { destruct hf; [rewrite in_list_eq_False_never|]; reflexivity. }
    rewrite Hu. cbn [bind].
    rewrite (mapM_first_error _ KeyError); [reflexivity | |].
    - intros a _. destruct (outputs_of h a); cbn; [right; now eexists | now left].
    - exists key. split; [exact Hin|]. now rewrite Hkey. }
  split; [apply Hinit|]. split.
  - unfold create_train_and_test_datasets. now rewrite Hinit.
  - intros average. unfold Frey.WaveletDatasetFrey_init.
    destruct (inputs_wavelets h) as [w|] eqn:Ew; [|reflexivity]. cbn [of_option bind].
    destruct H as [H | (key & Hin & Hkey)]; [discriminate|].
    rewrite (mapM_first_error _ KeyError); [reflexivity | |].
    + intros a _. destruct (outputs_of h a); cbn; [right; now eexists | now left].
    + exists key. split; [exact Hin|]. now rewrite Hkey.
Qed.

(** X24.  With [num_cvs] at 1 the one block is the test block: the scripts'
    training indices are empty, and no dataset can be created over them,
    since the training view draws a sample at one of its indices while it
    is built. *)
Theorem single_block_leaves_no_training_index (n_rows model_timesteps : Z) :
  split_indices n_rows model_timesteps 1 = Ret ([], arange 0 (n_rows - model_timesteps)) /\
  forall fuel o h half g,
    training_indices o = [] ->
    ~ returns (create_train_and_test_datasets atan2 fuel o h half g).
Proof.
  split.
  - rewrite split_indices_blocks by lia.
    change (Z.to_nat 1) with 1. rewrite Nat.div_1_r, Nat.sub_diag. reflexivity.
  - intros fuel o h half g Ho ([[trv tev] g'] & H).
    unfold create_train_and_test_datasets in H.
    inv_bind H as [tr0 g0] Htr.
    apply (init_inv atan2) in Htr as (w & outs & mean & std & j & _ & _ & Hj & _).
    rewrite Ho in Hj. contradiction.
Qed.

(** *** The loop over a view *)

Lemma getitem_after_prev_ind self p og : forall fuel g,
  getitem atan2 fuel (set_prev_ind self p) og g = getitem atan2 fuel self og g.
Proof.
  induction fuel as [|fuel IH]; intros g; [reflexivity|].
  cbn [getitem].
  change (resolve_window (set_prev_ind self p) og g) with (resolve_window self og g).
  destruct (resolve_window self og g) as [[[[idx cut] past] g1] | e |]; cbn [bind]; auto.
  change (get_output_sample atan2 (set_prev_ind self p) cut past)
    with (get_output_sample atan2 self cut past).
  destruct (get_output_sample atan2 self cut past) as [out | e |]; cbn [bind]; auto.
  change (train_half (set_prev_ind self p)) with (train_half self).
  destruct (_accept_output out (train_half self)) as [ok | e |]; cbn [bind]; auto.
  destruct ok; cbn [negb]; [|apply IH].
  change (get_input_sample (set_prev_ind self p) cut) with (get_input_sample self cut).
  destruct (get_input_sample self cut); reflexivity.
Qed.

Lemma collect_step rounds fuel cur i g dataset :
  collect atan2 (S rounds) fuel cur i g dataset
  = match getitem atan2 fuel cur i g with
    | Ret (d, labels, self', g') =>
        collect atan2 rounds fuel self' (i + 1) g' (dataset ++ [(d, labels)])
    | Raise IndexError => Ret dataset
    | Raise e => Raise e
    | Diverge => Diverge
    end.
Proof. reflexivity. Qed.

Lemma collect_from fuel self g (f : nat -> window * list label) :
  forall m n cur dataset,
    (forall og g, getitem atan2 fuel cur og g = getitem atan2 fuel self og g) ->
    (forall j, j < m ->
       exists self', getitem atan2 fuel self (Z.of_nat (n + j)) g
                     = Ret (fst (f (n + j)), snd (f (n + j)), self', g)) ->
    getitem atan2 fuel self (Z.of_nat (n + m)) g = Raise IndexError ->
    collect atan2 (S m) fuel cur (Z.of_nat n) g dataset
    = Ret (dataset ++ map f (seq n m)).
Proof.
  induction m as [|m IH]; intros n cur dataset Hcur Hret Hend.
  - rewrite collect_step, Hcur. rewrite Nat.add_0_r in Hend. rewrite Hend.
    cbn [seq map]. now rewrite app_nil_r.
  - rewrite collect_step, Hcur.
    destruct (Hret 0 ltac:(lia)) as (self' & H0). rewrite Nat.add_0_r in H0. rewrite H0.
    replace (Z.of_nat n + 1)%Z with (Z.of_nat (S n)) by lia.
    rewrite IH.
    + cbn [seq map]. rewrite <- app_assoc. cbn [app].
      now destruct (f n).
    + apply getitem_returns_inv in H0 as (g0 & idx & cut & past & _ & _ & _ & _ & ->).
      intros og g1. apply getitem_after_prev_ind.
    + intros j Hj. replace (S n + j) with (n + S j) by lia. apply Hret. lia.
    + replace (S n + m) with (n + S m) by lia. exact Hend.
Qed.

(** X25.  The loop [for t in test_dataset] hands to [MattJonesInput] the
    pairs [(d, labels)] of the indices 0, 1, 2, ... in this order and ends,
    without an error, at the first index whose [__getitem__] raises
    [IndexError]: the index past the last, or before it an index whose
    window leaves the arrays.  (The samples are those of calls that leave
    the random generator as it was, as every call does without [shuffle]
    and [random_batches]; [prev_ind], which each call sets, changes none
    of them.) *)
Theorem for_loop_collects_until_IndexError fuel self g
    (f : nat -> window * list label) (k : nat) :
  (forall j, j < k ->
     exists self', getitem atan2 fuel self (Z.of_nat j) g
                   = Ret (fst (f j), snd (f j), self', g)) ->
  getitem atan2 fuel self (Z.of_nat k) g = Raise IndexError ->
  collect atan2 (S k) fuel self 0 g [] = Ret (map f (seq 0 k)).
Proof.
  intros Hret Hend.
  exact (collect_from fuel self g f k 0 self [] (fun _ _ => eq_refl) Hret Hend).
Qed.

(** *** The statistics of a WaveletDatasetFrey *)

(** X26.  A [WaveletDatasetFrey] estimates its statistics as a
    [WaveletDataset] does: [est_mean] is the median of the wavelet array
    over the rows of the training indices and [est_std] the median of the
    absolute deviations from it, also for a testing view, whose own
    indices are the testing indices. *)
Theorem frey_statistics_from_training_indices o h training average g self g' :
  Frey.WaveletDatasetFrey_init o h training average g = Ret (self, g') ->
  exists w sel,
    inputs_wavelets h = Some w /\
    take (rows w) (training_indices o) = Ret sel /\
    wavelets (Frey.base self) = w /\
    statistics_of sel (Frey.base self) /\
    cv_indices (Frey.base self) = (if training then training_indices o else testing_indices o) /\
    sample_size (Frey.base self) = model_timesteps o /\
    Frey.average_output self = average.
Proof.
  unfold Frey.WaveletDatasetFrey_init. intros H.
  inv_bind H as w Hw. inv_bind H as outs Houts.
  unfold Frey.prepare_data_generator in H.
  inv_bind H as mean Hm. inv_bind H as std Hs.
  inv_bind H as [[inp lab] g0] Hg. inversion H; subst; clear H.
  destruct (inputs_wavelets h) as [w'|]; simpl in Hw; [|discriminate].
  assert (w' = w) by congruence. subst w'.
  unfold estimate_mean in Hm. inv_bind Hm as sel Hsel. inversion Hm; subst mean.
  unfold estimate_std in Hs. rewrite Hsel in Hs. cbn [bind] in Hs. inversion Hs; subst std.
  exists w, sel.
  cbn [Frey.base Frey.average_output wavelets cv_indices sample_size set_input_shape unsampled].
  split; [reflexivity|]. split; [exact Hsel|]. split; [reflexivity|].
  split; [|repeat split].
  unfold statistics_of. cbn [est_mean est_std wavelets set_input_shape unsampled].
  intros f c Hf Hc. split.
  - now apply median_axis0_at.
  - rewrite median_axis0_at, abs_deviation_at by assumption.
    f_equal. apply map_ext. intros slice. now rewrite median_axis0_at.
Qed.

End ConstructionErrors.

Section DecoderShapeFacts.

Import Networks DecoderOrder.
Local Open Scope string_scope.
Local Open Scope list_scope.

Variable log2_is_integer : Z -> bool.

(** X27.  What the constructor asks of the input shape.  It reads entry 1
    first: a shape with fewer than two entries is an [IndexError], a
    number of time steps of 0 or less a [ValueError] of [math.log].  Past
    the power-of-two test it reads entries 3 and 0, so a shape with fewer
    than four entries is an [IndexError] then; a constructor that returns
    was given four entries at least. *)
Theorem constructor_checks_the_input_shape tg :
  (length (input_shape tg) < 2 ->
   Standard_Decoder_init log2_is_integer tg = Raise IndexError) /\
  (forall n, Numpy.item (input_shape tg) 1 = Ret n -> (n <= 0)%Z ->
     Standard_Decoder_init log2_is_integer tg = Raise ValueError) /\
  (forall n, Numpy.item (input_shape tg) 1 = Ret n -> (0 < n)%Z ->
     log2_is_integer n = true -> length (input_shape tg) < 4 ->
     Standard_Decoder_init log2_is_integer tg = Raise IndexError) /\
  (returns (Standard_Decoder_init log2_is_integer tg) -> 4 <= length (input_shape tg)).
Proof.
  unfold Standard_Decoder_init. split; [|split; [|split]].
  - intros Hl. rewrite item_out_of_range by lia. reflexivity.
  - intros n Hn Hle. rewrite Hn. cbn [bind].
    destruct (Z.leb_spec n 0); [reflexivity | lia].
  - intros n Hn Hpos Hlog Hl. rewrite Hn. cbn [bind].
    destruct (Z.leb_spec n 0); [lia|]. cbn [bind]. rewrite Hlog. cbn [negb bind].
    rewrite (item_out_of_range (input_shape tg) 3) by lia. reflexivity.
  - intros (self & E).
    inv_bind E as timesteps Ht. inv_bind E as u1 Hu1. inv_bind E as u2 Hu2.
    inv_bind E as input_channels Hic.
    assert (Hr : returns (Numpy.item (input_shape tg) 3)) by (exists input_channels; exact Hic).
    apply item_returns_range in Hr. lia.
Qed.

(** *** The width of the dense layers *)

Lemma setattr_Forall (P : layer -> Prop) a name l :
  Forall (fun nl => P (snd nl)) a -> P l -> Forall (fun nl => P (snd nl)) (setattr a name l).
Proof.
  intros Ha Hl. induction a as [|[n l'] a IH]; cbn [setattr].
  - constructor; [exact Hl | constructor].
  - inversion Ha as [|? ? Hh Ht]; subst.
    destruct (n =? name); constructor; auto.
Qed.

Ltac width_setattr :=
  repeat (apply setattr_Forall; [|exact I]); try assumption.

Lemma add_conv_pair_width tg H st n :
  Forall (fun nl => dense_width_ok tg H (snd nl)) (b_attrs (fst st)) ->
  Forall (fun nl => dense_width_ok tg H (snd nl)) (b_attrs (fst (add_conv_pair tg st n))).
Proof.
  destruct st as [b c]. unfold add_conv_pair. cbn [fst b_attrs]. intros Hb. width_setattr.
Qed.

Lemma add_after_tsr_width tg H fuel : forall b c H0 k,
  Forall (fun nl => dense_width_ok tg H (snd nl)) (b_attrs b) ->
  Forall (fun nl => dense_width_ok tg H (snd nl))
    (b_attrs (fst (add_after_tsr fuel tg b c H0 k))).
Proof.
  induction fuel as [|fuel IH]; intros b c H0 k Hb; cbn [add_after_tsr]; auto.
  destruct (2 <? H0)%Z; auto.
  apply IH. cbn [b_attrs]. width_setattr.
Qed.

Lemma fold_dense_width tg H key l : forall a o c,
  Forall (fun nl => dense_width_ok tg H (snd nl)) a ->
  c = (256 * H)%Z \/ c = num_units_dense tg ->
  let '(a', _, c') := fold_left (add_dense tg key) l (a, o, c) in
  Forall (fun nl => dense_width_ok tg H (snd nl)) a' /\
  (c' = (256 * H)%Z \/ c' = num_units_dense tg).
Proof.
  induction l as [|d l IH]; intros a o c Ha Hc; cbn [fold_left]; [auto|].
  unfold add_dense at 2. apply IH; [|now right].
  apply setattr_Forall; [|exact I]. apply setattr_Forall; [|exact I].
  apply setattr_Forall; [exact Ha | exact Hc].
Qed.

Lemma add_head_width tg H st head st' :
  Forall (fun nl => dense_width_ok tg H (snd nl)) (fst st) ->
  add_head tg H st head = Ret st' ->
  Forall (fun nl => dense_width_ok tg H (snd nl)) (fst st').
Proof.
  destruct st as [a orders], head as [key shape]. unfold add_head. cbn [fst]. intros Ha.
  pose proof (fold_dense_width tg H key (seq 0 (Z.to_nat (num_dense tg))) a [] (256 * H)%Z
                Ha (or_introl eq_refl)) as Hf.
  destruct (fold_left (add_dense tg key) (seq 0 (Z.to_nat (num_dense tg))) (a, [], (256 * H)%Z))
    as [[a1 o1] c1].
  destruct Hf as (Ha1 & Hc1).
  intros E. inv_bind E as out Hout. inversion E; subst. cbn [fst].
  apply setattr_Forall; [exact Ha1 | exact Hc1].
Qed.

Lemma add_heads_width tg H heads : forall st st',
  Forall (fun nl => dense_width_ok tg H (snd nl)) (fst st) ->
  add_heads tg H st heads = Ret st' ->
  Forall (fun nl => dense_width_ok tg H (snd nl)) (fst st').
Proof.
  induction heads as [|head heads IH]; cbn [add_heads]; intros st st' Hst E.
  - now inversion E; subst.
  - inv_bind E as st1 H1. eapply IH; [|exact E]. eapply add_head_width; eauto.
Qed.

(** X28.  The input width of every dense layer of a constructed decoder is
    [256 * H] or [num_units_dense], where [H] comes from the number of
    time steps alone when that is below 64 (1), 64 (2), 512 (3) or 1024
    (5), and is otherwise what the halving loop left of [input_shape[0]]:
    2 when that exceeds 2.  Neither the filter size nor the number of
    frequency bands enters it. *)
Theorem dense_layers_take_256H_features tg self :
  Standard_Decoder_init log2_is_integer tg = Ret self ->
  exists timesteps H0,
    Numpy.item (input_shape tg) 1 = Ret timesteps /\
    Numpy.item (input_shape tg) 0 = Ret H0 /\
    forall name i o w b,
      lookup (attrs self) name = Some (Linear i o w b) ->
      i = (256 * flat_rows timesteps H0)%Z \/ i = num_units_dense tg.
Proof.
  unfold Standard_Decoder_init. intros E.
  inv_bind E as timesteps Ht. inv_bind E as u1 Hu1. inv_bind E as u2 Hu2.
  inv_bind E as input_channels Hic.
  match type of E with
  | context [fold_left (add_conv_pair tg) ?l ?st] =>
      pose proof (fun H =>
                    fold_left_invariant
                      (fun x => Forall (fun nl => dense_width_ok tg H (snd nl))
                                  (b_attrs (fst x)))
                      (add_conv_pair tg) l (fun x n => add_conv_pair_width tg H x n) st)
        as Hconv;
      destruct (fold_left (add_conv_pair tg) l st) as [b c]
  end.
  cbn [fst b_attrs] in Hconv.
  inv_bind E as H0 HH0.
  match type of E with
  | context [add_after_tsr ?f tg ?b0 ?c0 H0 0] =>
      pose proof (fun H => add_after_tsr_width tg H f b0 c0 H0 0) as Hafter;
      pose proof (add_after_tsr_H tg f b0 c0 H0 0 (le_n _)) as HH;
      destruct (add_after_tsr f tg b0 c0 H0 0) as [b' H']
  end.
  cbn [fst snd b_attrs] in Hafter, HH. subst H'.
  inv_bind E as [a orders] Hheads. inversion E; subst; clear E. cbn [attrs].
  exists timesteps, H0. split; [exact Ht|]. split; [exact HH0|].
  apply add_heads_width in Hheads.
  - intros name i o w bs Hl. apply lookup_In in Hl.
    rewrite Forall_forall in Hheads. exact (Hheads (name, Linear i o w bs) Hl).
  - cbn [fst]. apply setattr_Forall; [|exact I]. apply Hafter.
    apply setattr_Forall; [|exact I]. apply Hconv.
    repeat (apply setattr_Forall; [|exact I]). constructor.
Qed.

End DecoderShapeFacts.

(** ** Examples *)

Section LastWitnesses.

Import Numpy WaveletData DatasetViews DatasetExamples MoreExamples Scripts.
Import Networks DecoderExamples.
Local Open Scope string_scope.
Local Open Scope list_scope.
Local Open Scope float_scope.

(** The file of the examples has no channel [velocity]. *)
Lemma missing_dataset_witness :
  WaveletDataset_init atan2_axes 1 (options ["position"; "velocity"]) (file walk_x) true None zeros
  = Raise KeyError /\
  create_train_and_test_datasets atan2_axes 1 (options ["position"; "velocity"]) (file walk_x)
    None zeros = Raise KeyError.
Proof.
  destruct (missing_dataset_is_a_KeyError atan2_axes (options ["position"; "velocity"])
              (file walk_x)) with (fuel := 1%nat) (training := true) (half := @None string)
              (g := zeros) as (H1 & H2 & _).
  - right. exists "velocity". split; [cbn; auto | reflexivity].
  - exact (conj H1 H2).
Defined.

Lemma single_block_witness :
  split_indices 6 2 1 = Ret ([], arange 0 (6 - 2)) /\
  ~ returns (create_train_and_test_datasets atan2_axes 1
               {| WaveletData.loss_functions := ["position"]; model_timesteps := 2;
                  shuffle := false; random_batches := false;
                  training_indices := []; testing_indices := arange 0 4 |}
               (file walk_x) None zeros).
Proof.
  destruct (single_block_leaves_no_training_index atan2_axes 6 2) as (H1 & H2).
  split; [exact H1 | apply H2; reflexivity].
Defined.

(** The loop over the testing view of the walk along +x: one sample. *)
Lemma for_loop_witness :
  collect atan2_axes 2 1 (view (options all_targets) walk_x None false) 0 zeros []
  = Ret (map (fun _ => ([[[[6]]; [[14]]]; [[[nan]]; [[nan]]]],
                        [Vec [5; 0.5]; Scalar 0; Scalar 1])) (seq 0 1)).
Proof.
  apply (for_loop_collects_until_IndexError atan2_axes 1
           (view (options all_targets) walk_x None false) zeros
           (fun _ => ([[[[6]]; [[14]]]; [[[nan]]; [[nan]]]],
                      [Vec [5; 0.5]; Scalar 0; Scalar 1])) 1).
  - intros j Hj. replace j with 0%nat by lia. eexists. vm_compute. reflexivity.
  - vm_compute. reflexivity.
Defined.

Example frey_created :
  exists self,
    Frey.WaveletDatasetFrey_init (options ["position"]) (file walk_x) true 2 zeros
    = Ret (self, zeros) /\
    est_mean (Frey.base self) = [[4; 7]] /\ est_std (Frey.base self) = [[2; 0]].
Proof. eexists. split; [vm_compute; reflexivity | split; reflexivity]. Qed.

Lemma frey_statistics_witness :
  exists w sel,
    inputs_wavelets (file walk_x) = Some w /\
    take (rows w) (training_indices (options ["position"])) = Ret sel /\
    wavelets (view (options ["position"]) walk_x None true) = w /\
    statistics_of sel
      (set_input_shape (view (options ["position"]) walk_x None true) [2; 2; 1; 1]%nat).
Proof.
  destruct (frey_statistics_from_training_indices (options ["position"]) (file walk_x) true 2
              zeros
              {| Frey.base := set_input_shape (view (options ["position"]) walk_x None true)
                                [2; 2; 1; 1]%nat;
                 Frey.average_output := 2 |} zeros)
    as (w & sel & H1 & H2 & H3 & H4 & _).
  - vm_compute; reflexivity.
  - exists w, sel. auto.
Defined.

Lemma input_shape_witness :
  Standard_Decoder_init log2_table
    {| input_shape := [5; 64]%Z; loss_functions := ["position"]; outputs := [[100; 2]%Z];
       num_convs_tsr := 1; filter_size := 64; kernel_size := 3; act_conv := "ELU";
       act_fc := "ELU"; num_dense := 1; num_units_dense := 1024; dropout_ratio := 0 |}
  = Raise IndexError /\
  (returns (Standard_Decoder_init log2_table config) -> (4 <= length (input_shape config))%nat).
Proof.
  split.
  - apply (proj1 (proj2 (proj2 (constructor_checks_the_input_shape log2_table _))) 64%Z);
      first [ reflexivity | lia | cbn; lia ].
  - exact (proj2 (proj2 (proj2 (constructor_checks_the_input_shape log2_table config)))).
Defined.

Lemma dense_width_witness :
  exists timesteps H0,
    Numpy.item (input_shape config) 1 = Ret timesteps /\
    Numpy.item (input_shape config) 0 = Ret H0 /\
    forall name i o w b,
      lookup (attrs decoder) name = Some (Linear i o w b) ->
      i = (256 * DecoderOrder.flat_rows timesteps H0)%Z \/ i = num_units_dense config.
Proof.
  apply (dense_layers_take_256H_features log2_table config decoder).
  vm_compute; reflexivity.
Defined.

Example dense_widths_of_the_small_decoder :
  DecoderOrder.flat_rows 64 5 = 2%Z /\
  lookup (attrs decoder) "target_position_fc_0" = Some (Linear 512 1024 TorchDefault TorchDefault) /\
  lookup (attrs decoder) "target_position_fc_1" = Some (Linear 1024 2 TorchDefault TorchDefault).
Proof. repeat split. Qed.

End LastWitnesses.
